(** * baidu::common Mutex, MutexLock and CondVar (include/mutex.h)

    A shallow embedding of the three classes of [include/mutex.h].  Every
    method is a program in a small free monad whose actions are the
    statements the C++ text performs on the outside world: a call into
    pthreads or into [timer.h], a load or a store of a field of a [Mutex],
    a [printf], an [fprintf(stderr, ...)], [abort()].

    Programs are run by [run], for one thread, against a model of the
    operating system.  A run ends when the method returns, when the process
    is aborted, or when a pthread call cannot proceed; in the last case the
    rest of the method is kept and is run again in the world that the other
    threads have made meanwhile.  A run records every action it performed
    together with the world it left behind, so that the order in which a
    method touches the lock and the owner field is read off the record.

    A process is a world together with the threads that are blocked inside
    an operation; [play] moves it by letting one thread run up to the next
    point where it returns, blocks or aborts, and [reachable] collects the
    processes that arise after the constructor of the Mutex.

    What is assumed of the platform: LP64 Linux (int64_t, long and time_t
    are 64 bits wide, errno values as in <errno.h>), thread identifiers
    that are never zero, and the behaviour POSIX gives to an
    error-checking mutex and to a condition variable ([posix]).  The clock
    is a parameter: [Env] gives the value of every read.
    [MUTEX_DEBUG] is a parameter of the methods that test it. *)

From Stdlib Require Import ZArith List String Bool Lia.
Import ListNotations.
Local Open Scope string_scope.
Local Open Scope list_scope.
Local Open Scope Z_scope.

(** ** Machine data *)

Definition int := Z.          (* int: results of pthread calls, timeout *)
Definition int64_t := Z.      (* int64_t, long long, time_t, long (LP64) *)
Definition pthread_t := Z.    (* unsigned long; 0 names no live thread *)
Definition addr := Z.         (* the address of an object *)

(** Two's complement wrap-around of 64-bit signed arithmetic. *)
Definition wrap64 (z : Z) : int64_t := (z + 2 ^ 63) mod 2 ^ 64 - 2 ^ 63.
Definition add64 (a b : int64_t) : int64_t := wrap64 (a + b).
Definition sub64 (a b : int64_t) : int64_t := wrap64 (a - b).
Definition mul64 (a b : int64_t) : int64_t := wrap64 (a * b).
(* C division truncates towards zero; the remainder takes the dividend's sign *)
Definition div64 (a b : int64_t) : int64_t := wrap64 (Z.quot a b).
Definition rem64 (a b : int64_t) : int64_t := Z.rem a b.

Definition in_int32 (z : Z) : Prop := - 2 ^ 31 <= z < 2 ^ 31.
Definition in_int64 (z : Z) : Prop := - 2 ^ 63 <= z < 2 ^ 63.

(** errno values (Linux). *)
Definition EPERM : int := 1.
Definition EBUSY : int := 16.
Definition EINVAL : int := 22.
Definition EDEADLK : int := 35.
Definition ETIMEDOUT : int := 110.

Record timeval := mkTimeval { tv_sec : int64_t; tv_usec : int64_t }.
Record timespec := mkTimespec { ts_sec : int64_t; ts_nsec : int64_t }.

Inductive mutex_type := PTHREAD_MUTEX_NORMAL | PTHREAD_MUTEX_ERRORCHECK.
Definition pthread_mutexattr_t := mutex_type.

(** The state of a pthread mutex: its type and the thread holding it. *)
Record pthread_mutex_t := mkPm {
  pm_type : mutex_type;
  pm_holder : option pthread_t
}.

(** A thread inside [pthread_cond_wait] or [pthread_cond_timedwait]:
    asleep ([w_woken = None]) or woken, with the value the call will return
    once the mutex is taken again. *)
Record waiter := mkWaiter {
  w_tid : pthread_t;
  w_timed : bool;
  w_woken : option int
}.
Definition pthread_cond_t := list waiter.

(** ** The classes *)

(** class Mutex: the five data members, in declaration order. *)
Record Mutex := mkMutex {
  mu_ : pthread_mutex_t;
  owner_ : pthread_t;
  msg_ : option string;        (* const char*, NULL is None *)
  msg_threshold_ : int64_t;
  lock_time_ : int64_t
}.

(** class MutexLock: [Mutex *const mu_]. *)
Record MutexLock := mkMutexLock { ml_mu_ : addr }.

(** class CondVar: [Mutex* mu_] and the address of [pthread_cond_t cond_]. *)
Record CondVar := mkCondVar { cv_mu_ : addr; cv_cond_ : addr }.

(** The data members of [Mutex] that the methods read and write. *)
Inductive field : Type -> Type :=
| owner : field pthread_t
| msg : field (option string)
| msg_threshold : field int64_t
| lock_time : field int64_t.

Definition load_field {T} (f : field T) (m : Mutex) : T :=
  match f in field T return T with
  | owner => owner_ m
  | msg => msg_ m
  | msg_threshold => msg_threshold_ m
  | lock_time => lock_time_ m
  end.

Definition store_field {T} (f : field T) (v : T) (m : Mutex) : Mutex :=
  match f in field T return T -> Mutex with
  | owner => fun v =>
      mkMutex (mu_ m) v (msg_ m) (msg_threshold_ m) (lock_time_ m)
  | msg => fun v =>
      mkMutex (mu_ m) (owner_ m) v (msg_threshold_ m) (lock_time_ m)
  | msg_threshold => fun v =>
      mkMutex (mu_ m) (owner_ m) (msg_ m) v (lock_time_ m)
  | lock_time => fun v =>
      mkMutex (mu_ m) (owner_ m) (msg_ m) (msg_threshold_ m) v
  end v.

Definition set_mu (p : pthread_mutex_t) (m : Mutex) : Mutex :=
  mkMutex p (owner_ m) (msg_ m) (msg_threshold_ m) (lock_time_ m).

(** ** Output *)

(** The two lines the instrumentation prints on stdout:
    ["%s [Mutex] %s wait lock %.3f ms\n"] and ["%s [Mutex] %s locked %.3f ms\n"].
    The last argument is kept as the int64 number of microseconds that the
    C++ text divides by [1000.0]. *)
Inductive diag_kind := wait_lock | locked.
Record diag_line := mkDiag {
  d_kind : diag_kind;
  d_buf : string;
  d_msg : option string;
  d_micros : int64_t
}.

(** The line of [PthreadCall] on stderr, ["pthread %s: %s\n"], with the
    label and the error number handed to [strerror]. *)
Record err_line := mkErr { e_label : string; e_result : int }.

(** ** Programs *)

(** Calls that leave the repository: pthreads, [gettimeofday], and the two
    functions of [timer.h]. *)
Inductive oscall : Type -> Type :=
| get_micros : oscall int64_t                     (* timer::get_micros() *)
| now_time_str : oscall string                    (* timer::now_time_str(buf, 32) *)
| gettimeofday : oscall timeval
| pthread_mutexattr_init : oscall (int * pthread_mutexattr_t)
| pthread_mutexattr_settype (a : pthread_mutexattr_t) (k : mutex_type)
    : oscall (int * pthread_mutexattr_t)
| pthread_mutexattr_destroy (a : pthread_mutexattr_t) : oscall int
| pthread_mutex_init (mu : addr) (a : pthread_mutexattr_t) : oscall int
| pthread_mutex_destroy (mu : addr) : oscall int
| pthread_mutex_lock (mu : addr) : oscall int
| pthread_mutex_unlock (mu : addr) : oscall int
| pthread_cond_init (c : addr) : oscall int
| pthread_cond_destroy (c : addr) : oscall int
| pthread_cond_wait (c mu : addr) : oscall int
| pthread_cond_timedwait (c mu : addr) (ts : timespec) : oscall int
| pthread_cond_signal (c : addr) : oscall int
| pthread_cond_broadcast (c : addr) : oscall int
(* the second half of a wait: asleep on [c] until woken, then taking [mu] *)
| cond_reacquire (c mu : addr) : oscall int.

Inductive action : Type -> Type :=
| Os {X} (c : oscall X) : action X
| Load {T} (this : addr) (f : field T) : action T
| Store {T} (this : addr) (f : field T) (v : T) : action unit
| Printf (l : diag_line) : action unit
| FprintfStderr (l : err_line) : action unit
| PthreadSelf : action pthread_t
| Abort : action Empty_set.

Inductive prog (A : Type) : Type :=
| Ret (a : A)
| Vis {X} (e : action X) (k : X -> prog A).

Arguments Ret {A} a.
Arguments Vis {A X} e k.

Fixpoint bind {A B} (p : prog A) (f : A -> prog B) : prog B :=
  match p with
  | Ret a => f a
  | Vis e k => Vis e (fun x => bind (k x) f)
  end.

Definition act {X} (e : action X) : prog X := Vis e (fun x => Ret x).

Declare Scope prog_scope.
Delimit Scope prog_scope with prog.
Notation "x <- p ;; q" := (bind p (fun x => q))
  (at level 61, p at next level, right associativity) : prog_scope.
Notation "p ;; q" := (bind p (fun _ => q))
  (at level 61, right associativity) : prog_scope.
Local Open Scope prog_scope.

Definition os {X} (c : oscall X) : prog X := act (Os c).
Definition load {T} (this : addr) (f : field T) : prog T := act (Load this f).
Definition store {T} (this : addr) (f : field T) (v : T) : prog unit :=
  act (Store this f v).
Definition printf (l : diag_line) : prog unit := act (Printf l).
Definition fprintf_stderr (l : err_line) : prog unit := act (FprintfStderr l).
Definition pthread_self : prog pthread_t := act PthreadSelf.
Definition abort {A} : prog A :=
  Vis Abort (fun x : Empty_set => match x with end).

(** [pthread_equal] on Linux compares the two identifiers. *)
Definition pthread_equal (a b : pthread_t) : int := if a =? b then 1 else 0.

Definition is_some {T} (o : option T) : bool :=
  match o with Some _ => true | None => false end.

(** static void PthreadCall(const char* label, int result) *)
Definition PthreadCall (label : string) (result : int) : prog unit :=
  if negb (result =? 0) then
    fprintf_stderr (mkErr label result) ;;
    abort
  else Ret tt.

(** The deadline of [CondVar::TimeWait]: the three statements that fill
    [usec] and [ts] from [tv] and [timeout], in 64-bit arithmetic. *)
Definition TimeWait_usec (tv : timeval) (timeout : int) : int64_t :=
  add64 (tv_usec tv) (mul64 timeout 1000).

Definition TimeWait_deadline (tv : timeval) (timeout : int) : timespec :=
  let usec := TimeWait_usec tv timeout in
  mkTimespec (add64 (tv_sec tv) (div64 usec 1000000))
             (mul64 (rem64 usec 1000000) 1000).

Section Programs.

(** [#define MUTEX_DEBUG]: commented out in the header as it stands. *)
Variable MUTEX_DEBUG : bool.

(** void Mutex::AfterLock(const char* msg, int64_t msg_threshold) *)
Definition AfterLock (this : addr) (msg' : option string)
    (msg_threshold' : int64_t) : prog unit :=
  (if MUTEX_DEBUG then
     store this msg msg' ;;
     store this msg_threshold msg_threshold' ;;
     m <- load this msg ;;
     if is_some m then
       t <- os get_micros ;;
       store this lock_time t
     else Ret tt
   else Ret tt) ;;
  self <- pthread_self ;;
  store this owner self.

(** void Mutex::BeforeUnlock() *)
Definition BeforeUnlock (this : addr) : prog unit :=
  (if MUTEX_DEBUG then
     m <- load this msg ;;
     (if is_some m then
        now <- os get_micros ;;
        t <- load this lock_time ;;
        threshold <- load this msg_threshold ;;
        if sub64 now t >? threshold then
          buf <- os now_time_str ;;
          m' <- load this msg ;;
          now' <- os get_micros ;;
          t' <- load this lock_time ;;
          printf (mkDiag locked buf m' (sub64 now' t'))
        else Ret tt
      else Ret tt) ;;
     store this msg None
   else Ret tt) ;;
  store this owner 0.

(** Mutex::Mutex() *)
Definition Mutex_ctor (this : addr) : prog unit :=
  store this owner 0 ;;
  store this msg None ;;
  store this msg_threshold 0 ;;
  store this lock_time 0 ;;
  r1 <- os pthread_mutexattr_init ;;
  PthreadCall "init mutexattr" (fst r1) ;;
  r2 <- os (pthread_mutexattr_settype (snd r1) PTHREAD_MUTEX_ERRORCHECK) ;;
  PthreadCall "set mutexattr" (fst r2) ;;
  r3 <- os (pthread_mutex_init this (snd r2)) ;;
  PthreadCall "init mutex" r3 ;;
  r4 <- os (pthread_mutexattr_destroy (snd r2)) ;;
  PthreadCall "destroy mutexattr" r4.

(** Mutex::~Mutex() *)
Definition Mutex_dtor (this : addr) : prog unit :=
  r <- os (pthread_mutex_destroy this) ;;
  PthreadCall "destroy mutex" r.

(** void Mutex::Lock(const char* msg = NULL, int64_t msg_threshold = 5000) *)
Definition Lock (this : addr) (msg' : option string)
    (msg_threshold' : int64_t) : prog unit :=
  s <- (if MUTEX_DEBUG then
          if is_some msg' then os get_micros else Ret 0
        else Ret 0) ;;
  r <- os (pthread_mutex_lock this) ;;
  PthreadCall "mutex lock" r ;;
  AfterLock this msg' msg_threshold' ;;
  if MUTEX_DEBUG then
    if is_some msg' then
      t <- load this lock_time ;;
      if sub64 t s >? msg_threshold' then
        buf <- os now_time_str ;;
        t' <- load this lock_time ;;
        printf (mkDiag wait_lock buf msg' (sub64 t' s))
      else Ret tt
    else Ret tt
  else Ret tt.

(** void Mutex::Unlock() *)
Definition Unlock (this : addr) : prog unit :=
  BeforeUnlock this ;;
  r <- os (pthread_mutex_unlock this) ;;
  PthreadCall "mutex unlock" r.

(** void Mutex::AssertHeld() *)
Definition AssertHeld (this : addr) : prog unit :=
  o <- load this owner ;;
  self <- pthread_self ;;
  if 0 =? pthread_equal o self then abort else Ret tt.

(** MutexLock::MutexLock(Mutex *mu, const char* msg = NULL,
                         int64_t msg_threshold = 5000) *)
Definition MutexLock_ctor (mu : addr) (msg' : option string)
    (msg_threshold' : int64_t) : prog MutexLock :=
  let this := mkMutexLock mu in
  Lock (ml_mu_ this) msg' msg_threshold' ;;
  Ret this.

(** MutexLock::~MutexLock() *)
Definition MutexLock_dtor (this : MutexLock) : prog unit :=
  Unlock (ml_mu_ this).

(** CondVar::CondVar(Mutex* mu); [cond] is the address of [cond_]. *)
Definition CondVar_ctor (cond mu : addr) : prog CondVar :=
  let this := mkCondVar mu cond in
  r <- os (pthread_cond_init (cv_cond_ this)) ;;
  PthreadCall "init condvar" r ;;
  Ret this.

(** CondVar::~CondVar() *)
Definition CondVar_dtor (this : CondVar) : prog unit :=
  r <- os (pthread_cond_destroy (cv_cond_ this)) ;;
  PthreadCall "destroy condvar" r.

(** void CondVar::Wait(const char* msg = NULL) *)
Definition Wait (this : CondVar) (msg' : option string) : prog unit :=
  threshold <- load (cv_mu_ this) msg_threshold ;;
  BeforeUnlock (cv_mu_ this) ;;
  r <- os (pthread_cond_wait (cv_cond_ this) (cv_mu_ this)) ;;
  PthreadCall "condvar wait" r ;;
  AfterLock (cv_mu_ this) msg' threshold.

(** bool CondVar::TimeWait(int timeout, const char* msg = NULL) *)
Definition TimeWait (this : CondVar) (timeout : int)
    (msg' : option string) : prog bool :=
  tv <- os gettimeofday ;;
  let ts := TimeWait_deadline tv timeout in
  threshold <- load (cv_mu_ this) msg_threshold ;;
  BeforeUnlock (cv_mu_ this) ;;
  ret <- os (pthread_cond_timedwait (cv_cond_ this) (cv_mu_ this) ts) ;;
  AfterLock (cv_mu_ this) msg' threshold ;;
  Ret (ret =? 0).

(** void CondVar::Signal() *)
Definition Signal (this : CondVar) : prog unit :=
  r <- os (pthread_cond_signal (cv_cond_ this)) ;;
  PthreadCall "signal" r.

(** void CondVar::Broadcast() *)
Definition Broadcast (this : CondVar) : prog unit :=
  r <- os (pthread_cond_broadcast (cv_cond_ this)) ;;
  PthreadCall "broadcast" r.

End Programs.

(** ** The world *)

Record World := mkWorld {
  mutexes : addr -> Mutex;           (* the Mutex objects, by address *)
  conds : addr -> pthread_cond_t;    (* the condition variables, by address *)
  ticks : nat;                       (* clock reads made so far *)
  out : list diag_line;              (* stdout *)
  err : list err_line;               (* stderr *)
  (* the threads asleep in a wait, counted by the mutex they released:
     pthreads keeps them among the users of that mutex *)
  sleeping : addr -> nat
}.

Definition upd {T} (h : addr -> T) (p : addr) (v : T) : addr -> T :=
  fun q => if q =? p then v else h q.

Definition set_mutex (w : World) (p : addr) (m : Mutex) : World :=
  mkWorld (upd (mutexes w) p m) (conds w) (ticks w) (out w) (err w)
          (sleeping w).
Definition set_cond (w : World) (c : addr) (l : pthread_cond_t) : World :=
  mkWorld (mutexes w) (upd (conds w) c l) (ticks w) (out w) (err w)
          (sleeping w).
Definition tick (w : World) : World :=
  mkWorld (mutexes w) (conds w) (S (ticks w)) (out w) (err w) (sleeping w).
Definition put_out (w : World) (l : diag_line) : World :=
  mkWorld (mutexes w) (conds w) (ticks w) (out w ++ [l]) (err w)
          (sleeping w).
Definition put_err (w : World) (l : err_line) : World :=
  mkWorld (mutexes w) (conds w) (ticks w) (out w) (err w ++ [l])
          (sleeping w).
Definition set_sleeping (w : World) (mu : addr) (n : nat) : World :=
  mkWorld (mutexes w) (conds w) (ticks w) (out w) (err w)
          (upd (sleeping w) mu n).

Definition holder (w : World) (p : addr) : option pthread_t :=
  pm_holder (mu_ (mutexes w p)).
Definition set_holder (w : World) (p : addr) (h : option pthread_t) : World :=
  set_mutex w p (set_mu (mkPm (pm_type (mu_ (mutexes w p))) h) (mutexes w p)).

(** What one action does to the world, seen from the thread that performs
    it: it returns, it cannot proceed in this world ([Blocks]), it has done
    its first half and goes on as another call ([Becomes]), or it ends the
    process ([Terminates]). *)
Inductive step (X : Type) : Type :=
| Returns (x : X) (w : World)
| Blocks
| Becomes (w : World) (c : oscall X)
| Terminates (w : World).
Arguments Returns {X} x w.
Arguments Blocks {X}.
Arguments Becomes {X} w c.
Arguments Terminates {X} w.

(** A model of the operating system: the meaning of every [oscall] for the
    calling thread. *)
Definition os_model := forall X, pthread_t -> oscall X -> World -> step X.

Definition handle (sys : os_model) (self : pthread_t) {X} (e : action X)
    (w : World) : step X :=
  match e in action X return step X with
  | Os c => sys _ self c w
  | Load this f => Returns (load_field f (mutexes w this)) w
  | Store this f v =>
      Returns tt (set_mutex w this (store_field f v (mutexes w this)))
  | Printf l => Returns tt (put_out w l)
  | FprintfStderr l => Returns tt (put_err w l)
  | PthreadSelf => Returns self w
  | Abort => Terminates w
  end.

(** The record of a run: each action with its result and the world after
    it; the first half of a blocking call; the end of the process. *)
Inductive entry : Type :=
| Did {X} (e : action X) (x : X) (w : World)
| Began {X} (e : action X) (w : World)
| Died (w : World).

Definition entry_world (e : entry) : World :=
  match e with
  | Did _ _ w => w
  | Began _ w => w
  | Died w => w
  end.

Inductive outcome (A : Type) : Type :=
| Finished (a : A) (w : World)
| Aborted (w : World)
| Blocked (w : World) (rest : prog A).
Arguments Finished {A} a w.
Arguments Aborted {A} w.
Arguments Blocked {A} w rest.

(** One thread runs a program until it finishes, aborts the process, or
    reaches a call that cannot proceed; [Blocked] carries what is left of
    the program, to be run again once other threads have changed the world. *)
Fixpoint run (sys : os_model) (self : pthread_t) {A} (p : prog A) (w : World)
    : list entry * outcome A :=
  match p with
  | Ret a => ([], Finished a w)
  | Vis e k =>
      match handle sys self e w with
      | Returns x w' =>
          let r := run sys self (k x) w' in
          (Did e x w' :: fst r, snd r)
      | Blocks => ([], Blocked w (Vis e k))
      | Becomes w' c => ([Began e w'], Blocked w' (Vis (Os c) k))
      | Terminates w' => ([Died w'], Aborted w')
      end
  end.

Definition outcome_world {A} (o : outcome A) : World :=
  match o with
  | Finished _ w => w
  | Aborted w => w
  | Blocked w _ => w
  end.

(** ** The operating system *)

(** [timer.h] is a header of its own and the wall clock is outside the
    program: the value of the n-th clock read of a run is a parameter. *)
Record Env := mkEnv {
  get_micros_at : nat -> int64_t;
  now_time_str_at : nat -> string;
  gettimeofday_at : nat -> timeval
}.

Fixpoint find_waiter (t : pthread_t) (l : pthread_cond_t) : option waiter :=
  match l with
  | [] => None
  | x :: l' => if w_tid x =? t then Some x else find_waiter t l'
  end.

Fixpoint remove_waiter (t : pthread_t) (l : pthread_cond_t) : pthread_cond_t :=
  match l with
  | [] => []
  | x :: l' => if w_tid x =? t then l' else x :: remove_waiter t l'
  end.

Definition wake (code : int) (x : waiter) : waiter :=
  mkWaiter (w_tid x) (w_timed x) (Some code).

(* pthread_cond_signal: the longest sleeper is woken *)
Fixpoint wake_first (l : pthread_cond_t) : pthread_cond_t :=
  match l with
  | [] => []
  | x :: l' =>
      match w_woken x with
      | None => wake 0 x :: l'
      | Some _ => x :: wake_first l'
      end
  end.

(* pthread_cond_broadcast *)
Definition wake_all (l : pthread_cond_t) : pthread_cond_t :=
  map (fun x => match w_woken x with None => wake 0 x | Some _ => x end) l.

(* a sleeper wakes without a signal: its deadline passes, or spuriously *)
Fixpoint wake_thread (t : pthread_t) (code : int) (l : pthread_cond_t)
    : pthread_cond_t :=
  match l with
  | [] => []
  | x :: l' =>
      if w_tid x =? t then
        match w_woken x with
        | None => wake code x :: l'
        | Some _ => x :: l'
        end
      else x :: wake_thread t code l'
  end.

Definition timespec_valid (ts : timespec) : bool :=
  (0 <=? ts_nsec ts) && (ts_nsec ts <? 1000000000).

Definition holds (self : pthread_t) (w : World) (mu : addr) : bool :=
  match holder w mu with
  | Some t => t =? self
  | None => false
  end.

Definition checks_errors (w : World) (mu : addr) : bool :=
  match pm_type (mu_ (mutexes w mu)) with
  | PTHREAD_MUTEX_ERRORCHECK => true
  | PTHREAD_MUTEX_NORMAL => false
  end.

(* the first half of a wait: the mutex is released and the thread sleeps *)
Definition sleep_on (self : pthread_t) (timed : bool) (c mu : addr)
    (w : World) : World :=
  set_sleeping
    (set_cond (set_holder w mu None) c
       (conds w c ++ [mkWaiter self timed None]))
    mu (S (sleeping w mu)).

(* the second half: the woken thread takes the mutex and leaves the queue *)
Definition reacquired (self : pthread_t) (c mu : addr) (w : World) : World :=
  set_sleeping
    (set_cond (set_holder w mu (Some self)) c (remove_waiter self (conds w c)))
    mu (Nat.pred (sleeping w mu)).

(** POSIX threads as far as the header uses them.  An error-checking mutex
    answers EDEADLK to a second lock by its holder and EPERM to an unlock
    or a wait by a thread that does not hold it; a lock on a mutex held by
    another thread does not return until it is released.  A mutex answers
    EBUSY to its destruction while a thread holds it and while a thread
    that released it in a wait has not taken it back; the destruction of a
    condition variable does not return while threads are queued on it. *)
Definition posix (env : Env) : os_model := fun X self c w =>
  match c in oscall X return step X with
  | get_micros => Returns (get_micros_at env (ticks w)) (tick w)
  | now_time_str => Returns (now_time_str_at env (ticks w)) (tick w)
  | gettimeofday => Returns (gettimeofday_at env (ticks w)) (tick w)
  | pthread_mutexattr_init => Returns (0, PTHREAD_MUTEX_NORMAL) w
  | pthread_mutexattr_settype _ k => Returns (0, k) w
  | pthread_mutexattr_destroy _ => Returns 0 w
  | pthread_mutex_init mu a =>
      Returns 0
        (set_sleeping (set_mutex w mu (set_mu (mkPm a None) (mutexes w mu)))
           mu 0)
  | pthread_mutex_destroy mu =>
      match holder w mu, sleeping w mu with
      | None, O => Returns 0 w
      | _, _ => Returns EBUSY w
      end
  | pthread_mutex_lock mu =>
      match holder w mu with
      | None => Returns 0 (set_holder w mu (Some self))
      | Some t =>
          if (t =? self) && checks_errors w mu then Returns EDEADLK w
          else Blocks
      end
  | pthread_mutex_unlock mu =>
      if holds self w mu then Returns 0 (set_holder w mu None)
      else if checks_errors w mu then Returns EPERM w
      else Returns 0 (set_holder w mu None)
  | pthread_cond_init c => Returns 0 (set_cond w c [])
  | pthread_cond_destroy c =>
      match conds w c with
      | [] => Returns 0 w
      | _ :: _ => Blocks
      end
  | pthread_cond_wait c mu =>
      if negb (holds self w mu) && checks_errors w mu then Returns EPERM w
      else Becomes (sleep_on self false c mu w) (cond_reacquire c mu)
  | pthread_cond_timedwait c mu ts =>
      if negb (timespec_valid ts) then Returns EINVAL w
      else if negb (holds self w mu) && checks_errors w mu then Returns EPERM w
      else Becomes (sleep_on self true c mu w) (cond_reacquire c mu)
  | pthread_cond_signal c => Returns 0 (set_cond w c (wake_first (conds w c)))
  | pthread_cond_broadcast c => Returns 0 (set_cond w c (wake_all (conds w c)))
  | cond_reacquire c mu =>
      match find_waiter self (conds w c) with
      | Some x =>
          match w_woken x, holder w mu with
          | Some code, None => Returns code (reacquired self c mu w)
          | _, _ => Blocks
          end
      | None => Blocks
      end
  end.

(** Moves of the system that belong to no thread's program: the deadline
    of a timed wait passes, or a sleeper wakes spuriously. *)
Definition expire (c : addr) (t : pthread_t) (w : World) : World :=
  match find_waiter t (conds w c) with
  | Some x =>
      if w_timed x then set_cond w c (wake_thread t ETIMEDOUT (conds w c))
      else w
  | None => w
  end.

Definition spurious_wakeup (c : addr) (t : pthread_t) (w : World) : World :=
  set_cond w c (wake_thread t 0 (conds w c)).

(** An operating system that behaves as [sys] except that
    [pthread_mutex_lock] fails: it returns the error [r] at once and leaves
    the world alone.  Whatever failure the call can report is one of these. *)
Definition lock_returning (r : int) (sys : os_model) : os_model :=
  fun X self c w =>
    match c in oscall X return step X -> step X with
    | pthread_mutex_lock _ => fun _ => Returns r w
    | _ => fun d => d
    end (sys X self c w).

(** ** Properties of worlds and runs *)

(** The owner field names the holder, and is zero when nobody holds. *)
Definition owner_inv (w : World) (mu : addr) : Prop :=
  holder w mu =
    (if owner_ (mutexes w mu) =? 0 then None else Some (owner_ (mutexes w mu))).

(** What holds at every instant, also inside a method: a set owner field
    names the thread that holds the lock. *)
Definition owner_sound (w : World) (mu : addr) : Prop :=
  owner_ (mutexes w mu) <> 0 -> holder w mu = Some (owner_ (mutexes w mu)).

Definition sound_throughout (mu : addr) (l : list entry) : Prop :=
  Forall (fun e => owner_sound (entry_world e) mu) l.

(** The state in which a run leaves the mutex, when the process lives. *)
Definition settled {A} (mu : addr) (o : outcome A) : Prop :=
  match o with
  | Finished _ w => owner_inv w mu
  | Blocked w _ => owner_inv w mu
  | Aborted _ => True
  end.

(** The public operations on a [Mutex] and on a [CondVar] bound to it. *)
Inductive operation :=
| OpLock (msg' : option string) (msg_threshold' : int64_t)
| OpUnlock
| OpAssertHeld
| OpWait (cond : addr) (msg' : option string)
| OpTimeWait (cond : addr) (timeout : int) (msg' : option string)
| OpSignal (cond : addr)
| OpBroadcast (cond : addr).

Definition op_prog (D : bool) (this : addr) (op : operation) : prog bool :=
  match op with
  | OpLock m t => Lock D this m t ;; Ret true
  | OpUnlock => Unlock D this ;; Ret true
  | OpAssertHeld => AssertHeld this ;; Ret true
  | OpWait c m => Wait D (mkCondVar this c) m ;; Ret true
  | OpTimeWait c t m => TimeWait D (mkCondVar this c) t m
  | OpSignal c => Signal (mkCondVar this c) ;; Ret true
  | OpBroadcast c => Broadcast (mkCondVar this c) ;; Ret true
  end.

(** Unlock, Wait and TimeWait are for the thread that holds the lock. *)
Definition op_pre (self : pthread_t) (w : World) (this : addr)
    (op : operation) : Prop :=
  match op with
  | OpUnlock | OpWait _ _ | OpTimeWait _ _ _ => holder w this = Some self
  | _ => True
  end.

(** TimeWait, if it is the operation, is called by the thread that holds
    the lock. *)
Definition TimeWait_by_holder (self : pthread_t) (w : World) (this : addr)
    (op : operation) : Prop :=
  match op with
  | OpTimeWait _ _ _ => holder w this = Some self
  | _ => True
  end.

(** A blocked operation goes on in whatever world the other threads have
    made, as long as that world is settled and they did not make the
    blocked thread the holder. *)
Definition resumes_settled (sys : os_model) (self : pthread_t) (mu : addr)
    {A} (o : outcome A) : Prop :=
  match o with
  | Blocked _ rest =>
      forall w2,
        owner_inv w2 mu ->
        holder w2 mu <> Some self ->
        sound_throughout mu (fst (run sys self rest w2)) /\
        match snd (run sys self rest w2) with
        | Finished _ w3 => owner_inv w3 mu /\ holder w3 mu = Some self
        | Blocked w3 _ => owner_inv w3 mu /\ fst (run sys self rest w2) = []
        | Aborted _ => True
        end
  | _ => True
  end.

(** [w'] shows no trace of the instrumentation when compared with [w]:
    nothing printed, no clock read, the three diagnostic fields of the
    Mutex at [mu] as they were, every other Mutex as it was. *)
Definition instrumentation_untouched (w w' : World) (mu : addr) : Prop :=
  out w' = out w
  /\ ticks w' = ticks w
  /\ msg_ (mutexes w' mu) = msg_ (mutexes w mu)
  /\ msg_threshold_ (mutexes w' mu) = msg_threshold_ (mutexes w mu)
  /\ lock_time_ (mutexes w' mu) = lock_time_ (mutexes w mu)
  /\ forall q, q <> mu -> mutexes w' q = mutexes w q.

(** A run keeps the owner field right: a set owner names the holder in
    every world the run passes through, the run leaves the mutex settled,
    and so does what is left of it once it is resumed. *)
Definition keeps_owner (sys : os_model) (self : pthread_t) (mu : addr) {A}
    (r : list entry * outcome A) : Prop :=
  sound_throughout mu (fst r)
  /\ settled mu (snd r)
  /\ resumes_settled sys self mu (snd r).





Definition map_outcome {A B} (f : A -> B) (o : outcome A) : outcome B :=
  match o with
  | Finished a w => Finished (f a) w
  | Aborted w => Aborted w
  | Blocked w rest => Blocked w (x <- rest ;; Ret (f x))
  end.

(** Exact time in nanoseconds. *)
Definition timeval_ns (tv : timeval) : Z :=
  tv_sec tv * 1000000000 + tv_usec tv * 1000.
Definition timespec_ns (ts : timespec) : Z :=
  ts_sec ts * 1000000000 + ts_nsec ts.

(** ** Sample worlds *)

Definition stale_mutex : Mutex :=
  mkMutex (mkPm PTHREAD_MUTEX_NORMAL (Some 7)) 99 (Some "stale") 5 6.
Definition raw_memory : World :=
  mkWorld (fun _ => stale_mutex) (fun _ => []) 0 [] [] (fun _ => 0%nat).
(* a clock that advances a millisecond per read, up to the year 2100 *)
Definition sample_env : Env :=
  mkEnv (fun n => Z.min (1000 * Z.of_nat n) 4102444800000000)
        (fun _ => "12:00:00")
        (fun _ => mkTimeval 1700000000 0).
(* a Mutex constructed at address 16 *)
Definition constructed_world : World :=
  outcome_world (snd (run (posix sample_env) 1 (Mutex_ctor 16) raw_memory)).
(* ... and a CondVar on it, with its pthread_cond_t at address 32 *)
Definition fresh_world : World :=
  outcome_world
    (snd (run (posix sample_env) 1 (CondVar_ctor 32 16) constructed_world)).
(* ... and locked by thread 1, with and without instrumentation *)
Definition held_world (D : bool) : World :=
  outcome_world
    (snd (run (posix sample_env) 1 (Lock D 16 (Some "sample") 500) fresh_world)).

(** A blocked thread goes on in world [w]. *)
Definition resume (sys : os_model) (self : pthread_t) {A} (o : outcome A)
    (w : World) : list entry * outcome A :=
  match o with
  | Blocked _ rest => run sys self rest w
  | _ => ([], o)
  end.

(* thread 1 holds the Mutex at 16 and waits at most 100 ms on the condition
   variable at 32 *)
Definition sample_sleeper : outcome bool :=
  snd (run (posix sample_env) 1
         (TimeWait true (mkCondVar 16 32) 100 (Some "waiter")) (held_world true)).
(* thread 2 takes the lock, signals and unlocks; thread 1 goes on *)
Definition sample_signalled : outcome bool :=
  snd (resume (posix sample_env) 1 sample_sleeper
         (outcome_world
            (snd (run (posix sample_env) 2
                    (Lock true 16 None 5000 ;;
                     Signal (mkCondVar 16 32) ;;
                     Unlock true 16)
                    (outcome_world sample_sleeper))))).
(* nobody signals and the deadline passes; thread 1 goes on *)
Definition sample_expired : outcome bool :=
  snd (resume (posix sample_env) 1 sample_sleeper
         (expire 32 1 (outcome_world sample_sleeper))).
(* thread 1 wakes although nobody signalled and the deadline has not passed *)
Definition sample_spurious : outcome bool :=
  snd (resume (posix sample_env) 1 sample_sleeper
         (spurious_wakeup 32 1 (outcome_world sample_sleeper))).
(* thread 2 has the lock when the deadline passes: thread 1 stays blocked *)
Definition sample_contended : outcome bool :=
  snd (resume (posix sample_env) 1 sample_sleeper
         (expire 32 1
            (outcome_world
               (snd (run (posix sample_env) 2 (Lock true 16 None 5000)
                       (outcome_world sample_sleeper)))))).


(** ** What the bookkeeping is expected to print *)

(** The line [BeforeUnlock] prints for Mutex [m] when the clock has been
    read [n] times: one read for the test, one by [now_time_str], one for
    the value printed. *)
Definition hold_report (D : bool) (env : Env) (m : Mutex) (n : nat)
    : list diag_line :=
  if D && is_some (msg_ m) &&
     (sub64 (get_micros_at env n) (lock_time_ m) >? msg_threshold_ m)
  then [mkDiag locked (now_time_str_at env (S n)) (msg_ m)
          (sub64 (get_micros_at env (S (S n))) (lock_time_ m))]
  else [].

Definition hold_reads (D : bool) (env : Env) (m : Mutex) (n : nat) : nat :=
  if D && is_some (msg_ m) then
    if sub64 (get_micros_at env n) (lock_time_ m) >? msg_threshold_ m
    then 3%nat else 1%nat
  else 0%nat.

(** The Mutex after [BeforeUnlock] and after [AfterLock]. *)
Definition released (D : bool) (m : Mutex) : Mutex :=
  mkMutex (mu_ m) 0 (if D then None else msg_ m) (msg_threshold_ m)
          (lock_time_ m).

Definition acquired (D : bool) (self : pthread_t) (msg' : option string)
    (msg_threshold' now : int64_t) (m : Mutex) : Mutex :=
  mkMutex (mu_ m) self
          (if D then msg' else msg_ m)
          (if D then msg_threshold' else msg_threshold_ m)
          (if D && is_some msg' then now else lock_time_ m).

(** [w'] is [w] but for the Mutex at [mu], [n] more clock reads and the
    lines [o] on stdout. *)
Definition changes_only (w w' : World) (mu : addr) (m' : Mutex) (n : nat)
    (o : list diag_line) : Prop :=
  mutexes w' mu = m'
  /\ (forall q, q <> mu -> mutexes w' q = mutexes w q)
  /\ conds w' = conds w
  /\ ticks w' = (n + ticks w)%nat
  /\ out w' = out w ++ o
  /\ err w' = err w.

(** Neither the pthread mutex nor the owner field at [mu] differs from [m]. *)
Definition same_lock (m : Mutex) (mu : addr) (e : entry) : Prop :=
  mu_ (mutexes (entry_world e) mu) = mu_ m
  /\ owner_ (mutexes (entry_world e) mu) = owner_ m.

(** [Lock] from its call of [pthread_mutex_lock] on, with [s] the value its
    first statement gave to the local of that name: what is left of [Lock]
    while the call blocks. *)
Definition Lock_after_start (D : bool) (this : addr) (msg' : option string)
    (msg_threshold' s : int64_t) : prog unit :=
  r <- os (pthread_mutex_lock this) ;;
  PthreadCall "mutex lock" r ;;
  AfterLock D this msg' msg_threshold' ;;
  if D then
    if is_some msg' then
      t <- load this lock_time ;;
      if sub64 t s >? msg_threshold' then
        buf <- os now_time_str ;;
        t' <- load this lock_time ;;
        printf (mkDiag wait_lock buf msg' (sub64 t' s))
      else Ret tt
    else Ret tt
  else Ret tt.

(** What is left of [Wait] and of [TimeWait] while the thread sleeps in
    the condition variable: the second half of the pthread call, then the
    statements after it, with the local [msg_threshold] as it was read. *)
Definition Wait_resumed (D : bool) (this : CondVar) (msg' : option string)
    (threshold : int64_t) : prog unit :=
  r <- os (cond_reacquire (cv_cond_ this) (cv_mu_ this)) ;;
  PthreadCall "condvar wait" r ;;
  AfterLock D (cv_mu_ this) msg' threshold.

Definition TimeWait_resumed (D : bool) (this : CondVar)
    (msg' : option string) (threshold : int64_t) : prog bool :=
  ret <- os (cond_reacquire (cv_cond_ this) (cv_mu_ this)) ;;
  AfterLock D (cv_mu_ this) msg' threshold ;;
  Ret (ret =? 0).

(** The line [Lock] prints when it was entered at time [s] and the lock was
    obtained when the clock had been read [n] times. *)
Definition wait_report (D : bool) (env : Env) (msg' : option string)
    (msg_threshold' s : int64_t) (n : nat) : list diag_line :=
  if D && is_some msg' &&
     (sub64 (get_micros_at env n) s >? msg_threshold')
  then [mkDiag wait_lock (now_time_str_at env (S n)) msg'
          (sub64 (get_micros_at env n) s)]
  else [].

Definition wait_reads (D : bool) (env : Env) (msg' : option string)
    (msg_threshold' s : int64_t) (n : nat) : nat :=
  if D && is_some msg' then
    if sub64 (get_micros_at env n) s >? msg_threshold' then 2%nat else 1%nat
  else 0%nat.

Definition take (self : pthread_t) (m : Mutex) : Mutex :=
  set_mu (mkPm (pm_type (mu_ m)) (Some self)) m.
Definition give (m : Mutex) : Mutex :=
  set_mu (mkPm (pm_type (mu_ m)) None) m.

(** ** A process with any number of threads *)

(** The world, and the threads that are blocked inside an operation, each
    with what is left of its operation. *)
Record process := mkProcess {
  p_world : World;
  p_blocked : list (pthread_t * prog bool)
}.

(** The process after a thread has run as far as it could; there is none
    when the thread aborted it. *)
Definition carry_on (self : pthread_t) (o : outcome bool)
    (others : list (pthread_t * prog bool)) : option process :=
  match o with
  | Finished _ w => Some (mkProcess w others)
  | Blocked w rest => Some (mkProcess w ((self, rest) :: others))
  | Aborted _ => None
  end.

Fixpoint left_to_do (self : pthread_t) (l : list (pthread_t * prog bool))
    : option (prog bool) :=
  match l with
  | [] => None
  | x :: l' => if fst x =? self then Some (snd x) else left_to_do self l'
  end.

Fixpoint unblock (self : pthread_t) (l : list (pthread_t * prog bool))
    : list (pthread_t * prog bool) :=
  match l with
  | [] => []
  | x :: l' => if fst x =? self then l' else x :: unblock self l'
  end.

(** What can happen next in a process: a thread calls an operation, a
    blocked thread is scheduled again, a thread constructs a CondVar, the
    deadline of a sleeper passes, a sleeper wakes spuriously. *)
Inductive event :=
| Calls (self : pthread_t) (op : operation)
| GoesOn (self : pthread_t)
| Constructs (self : pthread_t) (cond : addr)
| DeadlinePasses (cond : addr) (t : pthread_t)
| WakesSpuriously (cond : addr) (t : pthread_t).

(* [op_pre], decided *)
Definition op_allowed (self : pthread_t) (w : World) (this : addr)
    (op : operation) : bool :=
  match op with
  | OpUnlock | OpWait _ _ | OpTimeWait _ _ _ => holds self w this
  | _ => true
  end.

(** One move of a process that uses the Mutex at [mu].  A thread that
    calls an operation is not blocked in another one, and calls Unlock,
    Wait and TimeWait when it holds the lock; it runs until it returns,
    blocks or aborts.  There is no move that is not of this kind. *)
Definition play (D : bool) (env : Env) (mu : addr) (e : event) (p : process)
    : option process :=
  match e with
  | Calls self op =>
      if negb (self =? 0)
         && negb (is_some (left_to_do self (p_blocked p)))
         && op_allowed self (p_world p) mu op
      then carry_on self
             (snd (run (posix env) self (op_prog D mu op) (p_world p)))
             (p_blocked p)
      else None
  | GoesOn self =>
      match left_to_do self (p_blocked p) with
      | Some rest =>
          carry_on self (snd (run (posix env) self rest (p_world p)))
            (unblock self (p_blocked p))
      | None => None
      end
  | Constructs self c =>
      match snd (run (posix env) self (CondVar_ctor c mu) (p_world p)) with
      | Finished _ w' => Some (mkProcess w' (p_blocked p))
      | _ => None
      end
  | DeadlinePasses c t =>
      Some (mkProcess (expire c t (p_world p)) (p_blocked p))
  | WakesSpuriously c t =>
      Some (mkProcess (spurious_wakeup c t (p_world p)) (p_blocked p))
  end.

Fixpoint plays (D : bool) (env : Env) (mu : addr) (l : list event)
    (p : process) : option process :=
  match l with
  | [] => Some p
  | e :: l' =>
      match play D env mu e p with
      | Some p' => plays D env mu l' p'
      | None => None
      end
  end.

(** The processes that can arise once the Mutex at [mu] is constructed. *)
Inductive reachable (D : bool) (env : Env) (mu : addr) : process -> Prop :=
| constructed (w w' : World) (self : pthread_t) :
    snd (run (posix env) self (Mutex_ctor mu) w) = Finished tt w' ->
    reachable D env mu (mkProcess w' [])
| moved (p p' : process) (e : event) :
    reachable D env mu p -> play D env mu e p = Some p' ->
    reachable D env mu p'.

(** What is left of an operation on the Mutex at [mu] that is blocked. *)
Inductive left_of (D : bool) (mu : addr) : prog bool -> Prop :=
| left_of_Lock (m : option string) (t s : int64_t) :
    left_of D mu (Lock_after_start D mu m t s ;; Ret true)
| left_of_Wait (c : addr) (m : option string) (threshold : int64_t) :
    left_of D mu (Wait_resumed D (mkCondVar mu c) m threshold ;; Ret true)
| left_of_TimeWait (c : addr) (m : option string) (threshold : int64_t) :
    left_of D mu (TimeWait_resumed D (mkCondVar mu c) m threshold).

(** What the proof carries along: the mutex checks errors, the owner is
    right, and the blocked threads are distinct, hold nothing, and are
    inside Lock, Wait or TimeWait. *)
Definition process_ok (D : bool) (mu : addr) (p : process) : Prop :=
  checks_errors (p_world p) mu = true
  /\ owner_inv (p_world p) mu
  /\ NoDup (map fst (p_blocked p))
  /\ forall self rest,
       In (self, rest) (p_blocked p) ->
       self <> 0
       /\ holder (p_world p) mu <> Some self
       /\ left_of D mu rest.

(* thread 1 locks the Mutex at 16, thread 2 asks for it and blocks, thread 1
   unlocks, thread 2 goes on *)
Definition sample_turns : list event :=
  [Calls 1 (OpLock None 5000); Calls 2 (OpLock (Some "second") 500);
   Calls 1 OpUnlock; GoesOn 2].
(* thread 1 locks and waits, thread 2 locks, broadcasts and unlocks, thread
   1 goes on *)
Definition sample_handover : list event :=
  [Constructs 1 32; Calls 1 (OpLock None 5000); Calls 1 (OpWait 32 None);
   Calls 2 (OpLock None 5000); Calls 2 (OpBroadcast 32); GoesOn 1;
   Calls 2 OpUnlock; GoesOn 1].

(** ** Worlds that agree *)

(** [w'] is [w]: every Mutex, every condition variable, the clock, stdout,
    stderr and the sleepers. *)
Definition same_world (w w' : World) : Prop :=
  (forall q, mutexes w' q = mutexes w q)
  /\ (forall c, conds w' c = conds w c)
  /\ ticks w' = ticks w
  /\ out w' = out w
  /\ err w' = err w
  /\ (forall q, sleeping w' q = sleeping w q).

(** ** What a program touches *)

(** Every action the program can perform, whatever the results of the
    actions before it, satisfies [P]. *)
Inductive all_actions {A} (P : forall X, action X -> Prop) : prog A -> Prop :=
| all_Ret (a : A) : all_actions P (Ret a)
| all_Vis X (e : action X) (k : X -> prog A) :
    P X e -> (forall x, all_actions P (k x)) -> all_actions P (Vis e k).

(** The action concerns no Mutex but the one at [mu] and no condition
    variable but the one at [c]. *)
Definition concerns (mu c : addr) X (e : action X) : Prop :=
  match e with
  | Os call =>
      match call with
      | pthread_mutex_init m _ | pthread_mutex_destroy m
      | pthread_mutex_lock m | pthread_mutex_unlock m => m = mu
      | pthread_cond_init c' | pthread_cond_destroy c'
      | pthread_cond_signal c' | pthread_cond_broadcast c' => c' = c
      | pthread_cond_wait c' m | pthread_cond_timedwait c' m _
      | cond_reacquire c' m => c' = c /\ m = mu
      | _ => True
      end
  | Load this _ => this = mu
  | Store this _ _ => this = mu
  | _ => True
  end.

Definition elsewhere_untouched (mu c : addr) (w w' : World) : Prop :=
  (forall q, q <> mu -> mutexes w' q = mutexes w q)
  /\ (forall c', c' <> c -> conds w' c' = conds w c').

(** The action is none of the instrumentation: no read of the clock of
    [timer.h], no [printf], no store to msg_, msg_threshold_ or lock_time_. *)
Definition uninstrumented X (e : action X) : Prop :=
  match e with
  | Os call =>
      match call with
      | get_micros | now_time_str => False
      | _ => True
      end
  | Store _ f _ =>
      match f with
      | owner => True
      | _ => False
      end
  | Printf _ => False
  | _ => True
  end.

(** The action is no wait on a condition variable and no initialisation
    of a mutex: it puts no thread to sleep and wakes none. *)
Definition never_sleeps X (e : action X) : Prop :=
  match e with
  | Os call =>
      match call with
      | pthread_mutex_init _ _ | pthread_cond_wait _ _
      | pthread_cond_timedwait _ _ _ | cond_reacquire _ _ => False
      | _ => True
      end
  | _ => True
  end.

Definition diagnostics_untouched (w w' : World) : Prop :=
  out w' = out w
  /\ forall q,
       msg_ (mutexes w' q) = msg_ (mutexes w q)
       /\ msg_threshold_ (mutexes w' q) = msg_threshold_ (mutexes w q)
       /\ lock_time_ (mutexes w' q) = lock_time_ (mutexes w q).

(** The relation [R] holds between the world a run starts in and every
    world it passes through and ends in; and when the run blocks, between
    the world in which what is left of it is resumed and every world of
    that run. *)
Definition kept_by (R : World -> World -> Prop) (sys : os_model)
    (self : pthread_t) {A} (w : World) (r : list entry * outcome A) : Prop :=
  Forall (fun e => R w (entry_world e)) (fst r)
  /\ R w (outcome_world (snd r))
  /\ match snd r with
     | Blocked _ rest =>
         forall w2,
           Forall (fun e => R w2 (entry_world e)) (fst (run sys self rest w2))
           /\ R w2 (outcome_world (snd (run sys self rest w2)))
     | _ => True
     end.

(** The methods of a Mutex at [mu] once it is constructed, of a MutexLock
    on it and of a CondVar bound to it whose pthread_cond_t is at [c], each
    as a program that yields a bool. *)
Definition methods (D : bool) (mu c : addr) (m : option string)
    (t : int64_t) (timeout : int) : list (prog bool) :=
  [Mutex_dtor mu ;; Ret true;
   op_prog D mu (OpLock m t);
   op_prog D mu OpUnlock;
   op_prog D mu OpAssertHeld;
   (guard <- MutexLock_ctor D mu m t ;; MutexLock_dtor D guard ;; Ret true);
   (cv <- CondVar_ctor c mu ;; CondVar_dtor cv ;; Ret true);
   op_prog D mu (OpWait c m);
   op_prog D mu (OpTimeWait c timeout m);
   op_prog D mu (OpSignal c);
   op_prog D mu (OpBroadcast c);
   MutexLock_ctor D mu m t ;; Ret true;
   MutexLock_dtor D (mkMutexLock mu) ;; Ret true;
   CondVar_ctor c mu ;; Ret true;
   CondVar_dtor (mkCondVar mu c) ;; Ret true].

(** ** A checked pthread call *)

(** The run of [PthreadCall(label, call)] when the call answers [r] and
    leaves the world [w']. *)
Definition checked (call : oscall int) (label : string) (r : int)
    (w' : World) : list entry * outcome unit :=
  if r =? 0 then ([Did (Os call) r w'], Finished tt w')
  else ([Did (Os call) r w';
         Did (FprintfStderr (mkErr label r)) tt (put_err w' (mkErr label r));
         Died (put_err w' (mkErr label r))],
        Aborted (put_err w' (mkErr label r))).

(** The member initialisers of [Mutex::Mutex()], which run before its body. *)
Definition Mutex_ctor_initialisers (this : addr) : prog unit :=
  store this owner 0 ;;
  store this msg None ;;
  store this msg_threshold 0 ;;
  store this lock_time 0.

(** An operating system that behaves as [sys] except that
    [pthread_mutex_init] fails: it returns the error [r] at once and
    leaves the world alone. *)
Definition mutex_init_returning (r : int) (sys : os_model) : os_model :=
  fun X self c w =>
    match c in oscall X return step X -> step X with
    | pthread_mutex_init _ _ => fun _ => Returns r w
    | _ => fun d => d
    end (sys X self c w).

Definition ENOMEM : int := 12.

(** * Proofs *)

(** ** 64-bit arithmetic *)

Ltac pows :=
  change (2 ^ 31) with 2147483648 in *;
  change (2 ^ 63) with 9223372036854775808 in *;
  change (2 ^ 64) with 18446744073709551616 in *.

Lemma wrap64_small (z : Z) : in_int64 z -> wrap64 z = z.
Proof.
  unfold in_int64, wrap64. intros H. pows.
  rewrite Z.mod_small; lia.
Qed.

Lemma sub64_exact (a b : Z) :
  0 <= a < 2 ^ 63 -> 0 <= b < 2 ^ 63 -> sub64 a b = a - b.
Proof.
  intros Ha Hb. unfold sub64. apply wrap64_small. unfold in_int64. pows. lia.
Qed.

Lemma mul64_int32 (t : Z) : in_int32 t -> mul64 t 1000 = t * 1000.
Proof.
  unfold in_int32. intros H. unfold mul64. pows.
  apply wrap64_small. unfold in_int64. pows. lia.
Qed.

Lemma TimeWait_usec_exact (tv : timeval) (t : Z) :
  0 <= tv_usec tv < 1000000 -> in_int32 t ->
  TimeWait_usec tv t = tv_usec tv + t * 1000.
Proof.
  intros Hu Ht. unfold TimeWait_usec. rewrite (mul64_int32 t Ht).
  unfold add64. apply wrap64_small.
  unfold in_int32 in Ht. unfold in_int64. pows. lia.
Qed.



(** ** Running programs *)

Lemma upd_same T (h : addr -> T) (p : addr) (v : T) : upd h p v p = v.
Proof. unfold upd. now rewrite Z.eqb_refl. Qed.

Lemma upd_other T (h : addr -> T) (p q : addr) (v : T) :
  q <> p -> upd h p v q = h q.
Proof.
  intros Hq. unfold upd. destruct (q =? p) eqn:E; [|reflexivity].
  apply Z.eqb_eq in E. contradiction.
Qed.

Arguments sub64 : simpl never.
Arguments add64 : simpl never.
Arguments mul64 : simpl never.
Arguments TimeWait_deadline : simpl never.

(* evaluate a run as far as the world at hand decides it *)
Ltac sym :=
  repeat (progress
    (cbn;
     unfold holds, checks_errors, holder, set_holder, sleep_on, owner_inv,
       owner_sound;
     cbn; rewrite ?upd_same)).

Lemma run_bind (sys : os_model) (self : pthread_t) A B (p : prog A)
    (f : A -> prog B) (w : World) :
  run sys self (bind p f) w =
    match snd (run sys self p w) with
    | Finished a w' =>
        (fst (run sys self p w) ++ fst (run sys self (f a) w'),
         snd (run sys self (f a) w'))
    | Aborted w' => (fst (run sys self p w), Aborted w')
    | Blocked w' rest => (fst (run sys self p w), Blocked w' (bind rest f))
    end.
Proof.
  revert w. induction p as [a | X e k IH]; intros w.
  - cbn. destruct (run sys self (f a) w); reflexivity.
  - cbn. destruct (handle sys self e w) as [x w' | | w' c | w']; cbn;
      try reflexivity.
    rewrite IH. destruct (snd (run sys self (k x) w')); reflexivity.
Qed.

(** ** The owner field of a world *)

Lemma inv_free_owner (w : World) (mu : addr) :
  owner_inv w mu -> holder w mu = None -> owner_ (mutexes w mu) = 0.
Proof.
  unfold owner_inv. intros H Hn. rewrite Hn in H.
  destruct (owner_ (mutexes w mu) =? 0) eqn:E; [|discriminate].
  now apply Z.eqb_eq.
Qed.

Lemma inv_sound (w : World) (mu : addr) : owner_inv w mu -> owner_sound w mu.
Proof.
  unfold owner_inv, owner_sound. intros H Hn. rewrite H.
  destruct (owner_ (mutexes w mu) =? 0) eqn:E; [|reflexivity].
  apply Z.eqb_eq in E. contradiction.
Qed.

Lemma inv_same (w w' : World) (mu : addr) :
  mutexes w' mu = mutexes w mu -> owner_inv w mu -> owner_inv w' mu.
Proof. unfold owner_inv, holder. now intros ->. Qed.

Lemma sound_same (w w' : World) (mu : addr) :
  mutexes w' mu = mutexes w mu -> owner_sound w mu -> owner_sound w' mu.
Proof. unfold owner_sound, holder. now intros ->. Qed.

Lemma inv_held (self : pthread_t) (w : World) (mu : addr) :
  self <> 0 ->
  pm_holder (mu_ (mutexes w mu)) = Some self ->
  owner_ (mutexes w mu) = self ->
  owner_inv w mu.
Proof.
  intros Hs Hh Ho. unfold owner_inv, holder. rewrite Hh, Ho.
  destruct (self =? 0) eqn:E; [|reflexivity].
  apply Z.eqb_eq in E. contradiction.
Qed.

Lemma inv_released (w : World) (mu : addr) :
  pm_holder (mu_ (mutexes w mu)) = None ->
  owner_ (mutexes w mu) = 0 ->
  owner_inv w mu.
Proof. intros Hh Ho. unfold owner_inv, holder. now rewrite Hh, Ho. Qed.

Lemma sound_unowned (w : World) (mu : addr) :
  owner_ (mutexes w mu) = 0 -> owner_sound w mu.
Proof. intros Ho Hn. contradiction. Qed.

(** ** AssertHeld *)

(** C4: AssertHeld aborts exactly when the stored owner differs from the
    calling thread, and otherwise returns with the world as it was, under
    any operating system.  On a Mutex that was only constructed the stored
    owner is zero, and a Mutex held by another thread stores that thread:
    in both cases the caller is aborted. *)
Theorem AssertHeld_aborts_iff_not_owner (sys : os_model) (env : Env)
    (self : pthread_t) (this : addr) (w : World) :
  snd (run sys self (AssertHeld this) w)
    = (if owner_ (mutexes w this) =? self then Finished tt w else Aborted w)
  /\ fst (run sys self (AssertHeld this) w)
    = Did (Load this owner) (owner_ (mutexes w this)) w
        :: Did PthreadSelf self w
        :: (if owner_ (mutexes w this) =? self then [] else [Died w])
  /\ (self <> 0 ->
      forall w',
        snd (run (posix env) self (Mutex_ctor this) w) = Finished tt w' ->
        owner_ (mutexes w' this) = 0 /\
        snd (run sys self (AssertHeld this) w') = Aborted w')
  /\ (forall other,
        owner_ (mutexes w this) = other -> other <> self ->
        snd (run sys self (AssertHeld this) w) = Aborted w).
Proof.
  assert (H : forall v, snd (run sys self (AssertHeld this) v)
    = (if owner_ (mutexes v this) =? self then Finished tt v else Aborted v)).
  { intros v. cbn. unfold pthread_equal.
    destruct (owner_ (mutexes v this) =? self); reflexivity. }
  split; [apply H|]. split; [|split].
  - cbn. unfold pthread_equal.
    destruct (owner_ (mutexes w this) =? self); reflexivity.
  - intros Hself w' Hc.
    assert (Ho : owner_ (mutexes w' this) = 0).
    { cbn in Hc. injection Hc as <-. sym. reflexivity. }
    split; [exact Ho|]. rewrite H, Ho.
    destruct (0 =? self) eqn:E; [|reflexivity].
    apply Z.eqb_eq in E. congruence.
  - intros other Ho Hne. rewrite H, Ho.
    destruct (other =? self) eqn:E; [|reflexivity].
    apply Z.eqb_eq in E. contradiction.
Qed.

Lemma AssertHeld_aborts_iff_not_owner_witness :
  2 <> 0
  /\ snd (run (posix sample_env) 2 (AssertHeld 16) (held_world false))
    = Aborted (held_world false)
  /\ snd (run (posix sample_env) 1 (AssertHeld 16) (held_world false))
    = Finished tt (held_world false)
  /\ snd (run (posix sample_env) 2 (AssertHeld 16) constructed_world)
    = Aborted constructed_world.
Proof.
  assert (H2 : 2 <> 0) by lia.
  destruct (AssertHeld_aborts_iff_not_owner (posix sample_env) sample_env
              2 16 (held_world false)) as (Ha & _).
  destruct (AssertHeld_aborts_iff_not_owner (posix sample_env) sample_env
              1 16 (held_world false)) as (Hb & _).
  destruct (AssertHeld_aborts_iff_not_owner (posix sample_env) sample_env
              2 16 raw_memory) as (_ & _ & Hc & _).
  split; [exact H2|]. split; [|split].
  - rewrite Ha. reflexivity.
  - rewrite Hb. reflexivity.
  - apply (Hc H2 constructed_world). reflexivity.
Defined.

(** ** The bookkeeping around the pthread calls *)

(* a straight-line method ends with a store: the record, the world left
   and the worlds passed through are read off the run *)
Ltac straight_line :=
  split; [reflexivity|]; sym;
  split; [|repeat constructor; sym; reflexivity];
  repeat split; try reflexivity;
  try (intros q Hq; now rewrite !upd_other);
  try (now rewrite app_nil_r);
  try (match goal with H : msg_ _ = _ |- _ => now rewrite H end).

Lemma BeforeUnlock_run (D : bool) (env : Env) (self : pthread_t)
    (this : addr) (w : World) :
  exists l w',
    run (posix env) self (BeforeUnlock D this) w
      = (l ++ [Did (Store this owner 0) tt w'], Finished tt w')
    /\ changes_only w w' this (released D (mutexes w this))
         (hold_reads D env (mutexes w this) (ticks w))
         (hold_report D env (mutexes w this) (ticks w))
    /\ Forall (same_lock (mutexes w this) this) l.
Proof.
  exists (removelast (fst (run (posix env) self (BeforeUnlock D this) w))),
         (outcome_world (snd (run (posix env) self (BeforeUnlock D this) w))).
  unfold BeforeUnlock, changes_only, hold_reads, hold_report, released.
  destruct D; [destruct (msg_ (mutexes w this)) as [label|] eqn:Hm|].
  - cbn [andb is_some]. sym. rewrite Hm. sym.
    (* is the line due? *)
    destruct (sub64 _ _ >? _) eqn:Hcmp; sym; straight_line.
  - cbn [andb is_some]. sym. rewrite Hm. sym. straight_line.
  - sym. straight_line.
Qed.

Lemma AfterLock_run (D : bool) (env : Env) (self : pthread_t)
    (this : addr) (m : option string) (t : int64_t) (w : World) :
  exists l w',
    run (posix env) self (AfterLock D this m t) w
      = (l ++ [Did (Store this owner self) tt w'], Finished tt w')
    /\ changes_only w w' this
         (acquired D self m t (get_micros_at env (ticks w)) (mutexes w this))
         (if D && is_some m then 1%nat else 0%nat) []
    /\ Forall (same_lock (mutexes w this) this) l.
Proof.
  exists (removelast (fst (run (posix env) self (AfterLock D this m t) w))),
         (outcome_world (snd (run (posix env) self (AfterLock D this m t) w))).
  unfold AfterLock, changes_only, acquired.
  destruct D; [destruct m as [label|]|]; cbn [andb is_some]; sym;
    straight_line.
Qed.

Arguments AfterLock : simpl never.
Arguments BeforeUnlock : simpl never.

(* the worlds a method passes through keep a set owner field truthful *)
Lemma same_lock_sound (m : Mutex) (mu : addr) (l : list entry) :
  (owner_ m <> 0 -> pm_holder (mu_ m) = Some (owner_ m)) ->
  Forall (same_lock m mu) l -> sound_throughout mu l.
Proof.
  intros Hm Hl. unfold sound_throughout.
  eapply Forall_impl; [|exact Hl].
  intros e [Hmu Ho]. unfold owner_sound, holder. rewrite Hmu, Ho. exact Hm.
Qed.

Lemma Lock_after_start_run (D : bool) (env : Env) (self : pthread_t)
    (this : addr) (m : option string) (t s : int64_t) (w : World) :
  holder w this = None ->
  exists l w',
    run (posix env) self (Lock_after_start D this m t s) w
      = (l, Finished tt w')
    /\ changes_only w w' this
         (acquired D self m t (get_micros_at env (ticks w))
            (take self (mutexes w this)))
         (wait_reads D env m t s (ticks w))
         (wait_report D env m t s (ticks w))
    /\ (owner_ (mutexes w this) = 0 -> sound_throughout this l).
Proof.
  intros Hfree. unfold Lock_after_start.
  destruct (AfterLock_run D env self this m t (set_holder w this (Some self)))
    as (l1 & w1 & Hrun & Hch & Hl1).
  destruct Hch as (Hm1 & Hfr1 & Hc1 & Ht1 & Ho1 & He1).
  cbn. rewrite Hfree. cbn. rewrite run_bind, Hrun. cbn [fst snd].
  revert Hm1 Ht1 Hl1. sym. intros Hm1 Ht1 Hl1.
  assert (Hfr : forall q, q <> this -> mutexes w1 q = mutexes w q).
  { intros q Hq. rewrite Hfr1 by exact Hq. cbn. now rewrite upd_other. }
  cbn in Hc1, Ho1, He1. rewrite app_nil_r in Ho1.
  assert (Hs1 : owner_ (mutexes w this) = 0 ->
                sound_throughout this
                  (Did (Os (pthread_mutex_lock this)) 0
                     (set_mutex w this (take self (mutexes w this)))
                   :: l1 ++ [Did (Store this owner self) tt w1])).
  { intros Hz. constructor.
    - sym. congruence.
    - apply Forall_app. split.
      + eapply same_lock_sound; [|exact Hl1]. cbn. congruence.
      + constructor; [|constructor]. unfold owner_sound, holder. cbn.
        rewrite Hm1. destruct D; reflexivity. }
  assert (Hw1 : owner_sound w1 this).
  { unfold owner_sound, holder. rewrite Hm1. destruct D; reflexivity. }
  assert (Hs2 : forall l2,
            Forall (fun e => mutexes (entry_world e) this = mutexes w1 this) l2 ->
            owner_ (mutexes w this) = 0 ->
            sound_throughout this
              (Did (Os (pthread_mutex_lock this)) 0
                 (set_mutex w this (take self (mutexes w this)))
               :: (l1 ++ [Did (Store this owner self) tt w1]) ++ l2)).
  { intros l2 Hl2 Hz. pose proof (Hs1 Hz) as Hs.
    apply Forall_cons_iff in Hs. destruct Hs as [Ha Hb].
    constructor; [exact Ha|]. apply Forall_app. split; [exact Hb|].
    eapply Forall_impl; [|exact Hl2].
    intros e He. now apply (sound_same w1). }
  unfold changes_only, wait_reads, wait_report.
  destruct D; [destruct m as [label|]|]; cbn [andb is_some]; cbn;
    rewrite ?Hm1; cbn [acquired lock_time_ andb is_some];
    (* with a label, is the line due? *)
    try (destruct (sub64 _ s >? t) eqn:Hcmp; cbn; rewrite ?Hm1; cbn);
    (eexists _, _; split; [reflexivity|]); cbn;
    rewrite Hc1, Ht1, Ho1, He1, Hm1; cbn;
    repeat split; try reflexivity; try exact Hfr;
    try (now rewrite app_nil_r);
    try (apply Hs2; repeat constructor).
Qed.

Arguments Lock_after_start : simpl never.
Arguments Wait_resumed : simpl never.
Arguments TimeWait_resumed : simpl never.

(** ** Lock and Unlock on an error-checking mutex *)

Lemma holds_of_holder (self : pthread_t) (w : World) (mu : addr) :
  holder w mu = Some self -> holds self w mu = true.
Proof. intros H. unfold holds. rewrite H. apply Z.eqb_refl. Qed.

Lemma Lock_run (D : bool) (env : Env) (self : pthread_t) (this : addr)
    (m : option string) (t : int64_t) (w : World) :
  run (posix env) self (Lock D this m t) w =
    if D && is_some m then
      (Did (Os get_micros) (get_micros_at env (ticks w)) (tick w)
         :: fst (run (posix env) self
                   (Lock_after_start D this m t (get_micros_at env (ticks w)))
                   (tick w)),
       snd (run (posix env) self
              (Lock_after_start D this m t (get_micros_at env (ticks w)))
              (tick w)))
    else run (posix env) self (Lock_after_start D this m t 0) w.
Proof.
  destruct D, m as [label|]; reflexivity.
Qed.

Lemma Lock_after_start_busy (D : bool) (env : Env) (self : pthread_t)
    (this : addr) (m : option string) (t s : int64_t) (w : World)
    (other : pthread_t) :
  holder w this = Some other ->
  (other =? self) && checks_errors w this = false ->
  run (posix env) self (Lock_after_start D this m t s) w
    = ([], Blocked w (Lock_after_start D this m t s)).
Proof.
  intros Hh Hne. unfold Lock_after_start. cbn. rewrite Hh, Hne.
  reflexivity.
Qed.

Lemma other_thread (self other : pthread_t) (b : bool) :
  other <> self -> (other =? self) && b = false.
Proof.
  intros Hne. destruct (other =? self) eqn:E; [|reflexivity].
  apply Z.eqb_eq in E. contradiction.
Qed.

Lemma Lock_after_start_deadlock (D : bool) (env : Env) (self : pthread_t)
    (this : addr) (m : option string) (t s : int64_t) (w : World) :
  holder w this = Some self -> checks_errors w this = true ->
  run (posix env) self (Lock_after_start D this m t s) w
    = ([Did (Os (pthread_mutex_lock this)) EDEADLK w;
        Did (FprintfStderr (mkErr "mutex lock" EDEADLK)) tt
            (put_err w (mkErr "mutex lock" EDEADLK));
        Died (put_err w (mkErr "mutex lock" EDEADLK))],
       Aborted (put_err w (mkErr "mutex lock" EDEADLK))).
Proof.
  intros Hh Hc. unfold Lock_after_start. cbn. rewrite Hh, Hc, Z.eqb_refl.
  reflexivity.
Qed.

Lemma Unlock_run (D : bool) (env : Env) (self : pthread_t) (this : addr)
    (w : World) :
  exists l w1,
    changes_only w w1 this (released D (mutexes w this))
      (hold_reads D env (mutexes w this) (ticks w))
      (hold_report D env (mutexes w this) (ticks w))
    /\ Forall (same_lock (mutexes w this) this) l
    /\ run (posix env) self (Unlock D this) w =
       if holds self w this || negb (checks_errors w this) then
         ((l ++ [Did (Store this owner 0) tt w1]) ++
          [Did (Os (pthread_mutex_unlock this)) 0 (set_holder w1 this None)],
          Finished tt (set_holder w1 this None))
       else
         ((l ++ [Did (Store this owner 0) tt w1]) ++
          [Did (Os (pthread_mutex_unlock this)) EPERM w1;
           Did (FprintfStderr (mkErr "mutex unlock" EPERM)) tt
               (put_err w1 (mkErr "mutex unlock" EPERM));
           Died (put_err w1 (mkErr "mutex unlock" EPERM))],
          Aborted (put_err w1 (mkErr "mutex unlock" EPERM))).
Proof.
  destruct (BeforeUnlock_run D env self this w) as (l & w1 & Hrun & Hch & Hl).
  exists l, w1. split; [exact Hch|]. split; [exact Hl|].
  destruct Hch as (Hm1 & _).
  unfold Unlock. rewrite run_bind, Hrun. cbn [fst snd].
  cbn. unfold holds, checks_errors, holder. rewrite Hm1. cbn [released mu_].
  destruct (match pm_holder (mu_ (mutexes w this)) with
            | Some t => t =? self | None => false end);
    [reflexivity|].
  destruct (pm_type (mu_ (mutexes w this))); reflexivity.
Qed.

(** ** Wait and TimeWait *)

Lemma Wait_run (D : bool) (env : Env) (self : pthread_t) (c mu : addr)
    (m : option string) (w : World) :
  exists l w1,
    changes_only w w1 mu (released D (mutexes w mu))
      (hold_reads D env (mutexes w mu) (ticks w))
      (hold_report D env (mutexes w mu) (ticks w))
    /\ Forall (same_lock (mutexes w mu) mu) l
    /\ run (posix env) self (BeforeUnlock D mu) w
         = (l ++ [Did (Store mu owner 0) tt w1], Finished tt w1)
    /\ run (posix env) self (Wait D (mkCondVar mu c) m) w =
       if negb (holds self w mu) && checks_errors w mu then
         (Did (Load mu msg_threshold) (msg_threshold_ (mutexes w mu)) w
            :: (l ++ [Did (Store mu owner 0) tt w1]) ++
               [Did (Os (pthread_cond_wait c mu)) EPERM w1;
                Did (FprintfStderr (mkErr "condvar wait" EPERM)) tt
                    (put_err w1 (mkErr "condvar wait" EPERM));
                Died (put_err w1 (mkErr "condvar wait" EPERM))],
          Aborted (put_err w1 (mkErr "condvar wait" EPERM)))
       else
         (Did (Load mu msg_threshold) (msg_threshold_ (mutexes w mu)) w
            :: (l ++ [Did (Store mu owner 0) tt w1]) ++
               [Began (Os (pthread_cond_wait c mu))
                      (sleep_on self false c mu w1)],
          Blocked (sleep_on self false c mu w1)
            (Wait_resumed D (mkCondVar mu c) m (msg_threshold_ (mutexes w mu)))).
Proof.
  destruct (BeforeUnlock_run D env self mu w) as (l & w1 & Hrun & Hch & Hl).
  exists l, w1. split; [exact Hch|]. split; [exact Hl|]. split; [exact Hrun|].
  destruct Hch as (Hm1 & _).
  unfold Wait. cbn. rewrite run_bind, Hrun. cbn [fst snd].
  cbn. unfold holds, checks_errors, holder. rewrite Hm1. cbn [released mu_].
  destruct (negb _ && _); reflexivity.
Qed.

Lemma Wait_resumed_run (D : bool) (env : Env) (self : pthread_t)
    (c mu : addr) (m : option string) (threshold : int64_t) (w2 : World)
    (x : waiter) :
  find_waiter self (conds w2 c) = Some x ->
  w_woken x = Some 0 ->
  holder w2 mu = None ->
  exists l w3,
    run (posix env) self (Wait_resumed D (mkCondVar mu c) m threshold) w2
      = (Did (Os (cond_reacquire c mu)) 0 (reacquired self c mu w2)
           :: l ++ [Did (Store mu owner self) tt w3],
         Finished tt w3)
    /\ run (posix env) self (AfterLock D mu m threshold)
         (reacquired self c mu w2)
         = (l ++ [Did (Store mu owner self) tt w3], Finished tt w3)
    /\ changes_only (reacquired self c mu w2) w3 mu
         (acquired D self m threshold (get_micros_at env (ticks w2))
            (take self (mutexes w2 mu)))
         (if D && is_some m then 1%nat else 0%nat) []
    /\ Forall (same_lock (take self (mutexes w2 mu)) mu) l.
Proof.
  intros Hx Hwoken Hfree.
  destruct (AfterLock_run D env self mu m threshold (reacquired self c mu w2))
    as (l & w3 & Hrun & Hch & Hl).
  exists l, w3.
  assert (Hm : mutexes (reacquired self c mu w2) mu = take self (mutexes w2 mu)).
  { unfold reacquired, take. cbn. now rewrite upd_same. }
  rewrite Hm in Hch, Hl.
  repeat split; try assumption.
  - unfold Wait_resumed. cbn. rewrite Hx, Hwoken, Hfree. cbn.
    rewrite Hrun. reflexivity.
  - apply Hch.
  - apply Hch.
  - apply Hch.
  - apply Hch.
  - apply Hch.
  - apply Hch.
Qed.

Lemma TimeWait_run (D : bool) (env : Env) (self : pthread_t) (c mu : addr)
    (timeout : int) (m : option string) (w : World) :
  let tv := gettimeofday_at env (ticks w) in
  let ts := TimeWait_deadline tv timeout in
  let threshold := msg_threshold_ (mutexes w mu) in
  exists l w1,
    changes_only (tick w) w1 mu (released D (mutexes w mu))
      (hold_reads D env (mutexes w mu) (S (ticks w)))
      (hold_report D env (mutexes w mu) (S (ticks w)))
    /\ Forall (same_lock (mutexes w mu) mu) l
    /\ run (posix env) self (BeforeUnlock D mu) (tick w)
         = (l ++ [Did (Store mu owner 0) tt w1], Finished tt w1)
    /\ run (posix env) self (TimeWait D (mkCondVar mu c) timeout m) w =
       if negb (timespec_valid ts) ||
          negb (holds self w mu) && checks_errors w mu
       then
         let code := if negb (timespec_valid ts) then EINVAL else EPERM in
         (Did (Os gettimeofday) tv (tick w)
            :: Did (Load mu msg_threshold) threshold (tick w)
            :: (l ++ [Did (Store mu owner 0) tt w1]) ++
               Did (Os (pthread_cond_timedwait c mu ts)) code w1
               :: fst (run (posix env) self
                         (AfterLock D mu m threshold ;; Ret false) w1),
          snd (run (posix env) self
                 (AfterLock D mu m threshold ;; Ret false) w1))
       else
         (Did (Os gettimeofday) tv (tick w)
            :: Did (Load mu msg_threshold) threshold (tick w)
            :: (l ++ [Did (Store mu owner 0) tt w1]) ++
               [Began (Os (pthread_cond_timedwait c mu ts))
                      (sleep_on self true c mu w1)],
          Blocked (sleep_on self true c mu w1)
            (TimeWait_resumed D (mkCondVar mu c) m threshold)).
Proof.
  intros tv ts threshold.
  destruct (BeforeUnlock_run D env self mu (tick w)) as (l & w1 & Hrun & Hch & Hl).
  exists l, w1. split; [exact Hch|]. split; [exact Hl|]. split; [exact Hrun|].
  destruct Hch as (Hm1 & _). cbn in Hm1.
  unfold TimeWait. cbn. rewrite run_bind, Hrun. cbn [fst snd].
  cbn. fold tv. fold ts. fold threshold.
  unfold holds, checks_errors, holder. rewrite Hm1. cbn [released mu_].
  destruct (timespec_valid ts); cbn [negb orb].
  - destruct (negb _ && _); reflexivity.
  - reflexivity.
Qed.

Lemma TimeWait_resumed_run (D : bool) (env : Env) (self : pthread_t)
    (c mu : addr) (m : option string) (threshold : int64_t) (w2 : World)
    (x : waiter) (code : int) :
  find_waiter self (conds w2 c) = Some x ->
  w_woken x = Some code ->
  holder w2 mu = None ->
  exists l w3,
    run (posix env) self (TimeWait_resumed D (mkCondVar mu c) m threshold) w2
      = (Did (Os (cond_reacquire c mu)) code (reacquired self c mu w2)
           :: l ++ [Did (Store mu owner self) tt w3],
         Finished (code =? 0) w3)
    /\ changes_only (reacquired self c mu w2) w3 mu
         (acquired D self m threshold (get_micros_at env (ticks w2))
            (take self (mutexes w2 mu)))
         (if D && is_some m then 1%nat else 0%nat) []
    /\ Forall (same_lock (take self (mutexes w2 mu)) mu) l.
Proof.
  intros Hx Hwoken Hfree.
  destruct (AfterLock_run D env self mu m threshold (reacquired self c mu w2))
    as (l & w3 & Hrun & Hch & Hl).
  exists l, w3.
  assert (Hm : mutexes (reacquired self c mu w2) mu = take self (mutexes w2 mu)).
  { unfold reacquired, take. cbn. now rewrite upd_same. }
  rewrite Hm in Hch, Hl.
  split; [|split; assumption].
  unfold TimeWait_resumed. cbn. rewrite Hx, Hwoken, Hfree.
  cbn. rewrite run_bind, Hrun. cbn. now rewrite app_nil_r.
Qed.

(** ** The constructor *)

Lemma Mutex_ctor_run (env : Env) (self : pthread_t) (this : addr) (w : World) :
  exists l w',
    run (posix env) self (Mutex_ctor this) w = (l, Finished tt w')
    /\ changes_only w w' this
         (mkMutex (mkPm PTHREAD_MUTEX_ERRORCHECK None) 0 None 0 0) 0 [].
Proof.
  eexists _, _. split; [reflexivity|].
  unfold changes_only. sym. repeat split; try reflexivity.
  - intros q Hq. now rewrite !upd_other.
  - now rewrite app_nil_r.
Qed.

Lemma Lock_free_run (D : bool) (env : Env) (self : pthread_t) (this : addr)
    (m : option string) (t : int64_t) (w : World) :
  holder w this = None ->
  exists l w',
    run (posix env) self (Lock D this m t) w = (l, Finished tt w')
    /\ mutexes w' this
       = acquired D self m t
           (get_micros_at env (if D && is_some m then S (ticks w) else ticks w))
           (take self (mutexes w this))
    /\ (forall q, q <> this -> mutexes w' q = mutexes w q)
    /\ conds w' = conds w
    /\ err w' = err w
    /\ out w' = out w ++
         wait_report D env m t (get_micros_at env (ticks w))
           (if D && is_some m then S (ticks w) else ticks w)
    /\ (owner_ (mutexes w this) = 0 -> sound_throughout this l).
Proof.
  intros Hfree. rewrite Lock_run.
  destruct (D && is_some m) eqn:E.
  - destruct (Lock_after_start_run D env self this m t
                (get_micros_at env (ticks w)) (tick w) Hfree)
      as (l & w' & Hrun & Hch & Hs).
    destruct Hch as (Hm & Hfr & Hc & Ht & Ho & He).
    rewrite Hrun. cbn [fst snd]. eexists _, w'. split; [reflexivity|].
    repeat split; try assumption.
    intros Hz. constructor; [|exact (Hs Hz)].
    unfold owner_sound, holder. cbn. intros Hn. contradiction.
  - destruct (Lock_after_start_run D env self this m t 0 w Hfree)
      as (l & w' & Hrun & Hch & Hs).
    destruct Hch as (Hm & Hfr & Hc & Ht & Ho & He).
    rewrite Hrun. exists l, w'. split; [reflexivity|].
    repeat split; try assumption.
    rewrite Ho. unfold wait_report. rewrite E. reflexivity.
Qed.

(** ** Lock *)

(** C3: whatever nonzero value pthread_mutex_lock returns, Lock does not
    return: the process is aborted once the line naming "mutex lock" and
    the error is on stderr, and no field of the Mutex has been written.
    On the error-checking mutex that the constructor sets up, a Lock by the
    thread that already holds the lock is answered EDEADLK and so aborts:
    after the constructor and one Lock, a second Lock by the same thread
    never returns. *)
Theorem Lock_aborts_on_os_error (D : bool) (env : Env) (self : pthread_t)
    (this : addr) (m : option string) (t : int64_t) (w : World) (r : int) :
  r <> 0 ->
  let w0 := if D && is_some m then tick w else w in
  let w1 := put_err w0 (mkErr "mutex lock" r) in
  run (lock_returning r (posix env)) self (Lock D this m t) w
    = ((if D && is_some m
        then [Did (Os get_micros) (get_micros_at env (ticks w)) w0]
        else []) ++
       [Did (Os (pthread_mutex_lock this)) r w0;
        Did (FprintfStderr (mkErr "mutex lock" r)) tt w1;
        Died w1],
       Aborted w1)
  /\ (holder w this = Some self -> checks_errors w this = true ->
      snd (run (posix env) self (Lock D this m t) w)
        = Aborted (put_err (if D && is_some m then tick w else w)
                           (mkErr "mutex lock" EDEADLK)))
  /\ (forall m2 t2, exists w1,
        snd (run (posix env) self (Mutex_ctor this ;; Lock D this m t) w)
          = Finished tt w1
        /\ holder w1 this = Some self
        /\ snd (run (posix env) self (Lock D this m2 t2) w1)
           = Aborted (put_err (if D && is_some m2 then tick w1 else w1)
                              (mkErr "mutex lock" EDEADLK))).
Proof.
  intros Hr w0 w1. subst w0 w1.
  assert (Hdead : forall v m' t',
            holder v this = Some self -> checks_errors v this = true ->
            snd (run (posix env) self (Lock D this m' t') v)
              = Aborted (put_err (if D && is_some m' then tick v else v)
                                 (mkErr "mutex lock" EDEADLK))).
  { intros v m' t' Hh Hc. rewrite Lock_run.
    destruct (D && is_some m'); cbn [snd];
      rewrite Lock_after_start_deadlock by assumption; reflexivity. }
  split; [|split].
  - destruct r as [|p|p]; [contradiction| |];
      destruct D, m as [label|]; reflexivity.
  - apply Hdead.
  - intros m2 t2.
    destruct (Mutex_ctor_run env self this w) as (l0 & w0 & Hrun0 & Hch0).
    destruct Hch0 as (Hm0 & _).
    assert (Hfree : holder w0 this = None) by (unfold holder; now rewrite Hm0).
    destruct (Lock_free_run D env self this m t w0 Hfree)
      as (l1 & w1 & Hrun1 & Hm1 & _).
    exists w1. rewrite run_bind, Hrun0. cbn [fst snd]. rewrite Hrun1.
    assert (Hh : holder w1 this = Some self).
    { unfold holder. rewrite Hm1. reflexivity. }
    assert (Hc : checks_errors w1 this = true).
    { unfold checks_errors. rewrite Hm1. cbn. now rewrite Hm0. }
    repeat split; [exact Hh|]. now apply Hdead.
Qed.

Lemma Lock_aborts_on_os_error_witness :
  EINVAL <> 0
  /\ snd (run (lock_returning EINVAL (posix sample_env)) 1
            (Lock true 16 (Some "again") 5000) fresh_world)
     = Aborted (put_err (tick fresh_world) (mkErr "mutex lock" EINVAL))
  /\ holder (held_world true) 16 = Some 1
  /\ checks_errors (held_world true) 16 = true
  /\ snd (run (posix sample_env) 1 (Lock true 16 (Some "again") 5000)
            (held_world true))
     = Aborted (put_err (tick (held_world true)) (mkErr "mutex lock" EDEADLK)).
Proof.
  assert (Hr : EINVAL <> 0) by (unfold EINVAL; lia).
  destruct (Lock_aborts_on_os_error true sample_env 1 16 (Some "again") 5000
              fresh_world EINVAL Hr) as (Ha & _).
  destruct (Lock_aborts_on_os_error true sample_env 1 16 (Some "again") 5000
              (held_world true) EINVAL Hr) as (_ & Hb & _).
  split; [exact Hr|]. split; [now rewrite Ha|].
  split; [reflexivity|]. split; [reflexivity|].
  apply Hb; reflexivity.
Defined.

(** C9: with instrumentation and a label, Lock stores as lock_time_ the
    clock read made right after the lock is obtained, and prints the
    "wait lock" line exactly when that read exceeds the read made on
    entering Lock by more than the threshold; otherwise it prints nothing.
    This holds when the lock is free on entry and when Lock first has to
    wait for another thread to release it. *)
Theorem Lock_reports_long_wait (env : Env) (self : pthread_t) (this : addr)
    (label : string) (t : int64_t) (w : World) :
  (forall n, 0 <= get_micros_at env n < 2 ^ 63) ->
  let start := get_micros_at env (ticks w) in
  let report := fun n : nat =>
    if get_micros_at env n - start >? t
    then [mkDiag wait_lock (now_time_str_at env (S n)) (Some label)
            (get_micros_at env n - start)]
    else [] in
  (holder w this = None ->
     exists w',
       snd (run (posix env) self (Lock true this (Some label) t) w)
         = Finished tt w'
       /\ lock_time_ (mutexes w' this) = get_micros_at env (S (ticks w))
       /\ out w' = out w ++ report (S (ticks w)))
  /\ (forall other, holder w this = Some other -> other <> self ->
        exists rest,
          snd (run (posix env) self (Lock true this (Some label) t) w)
            = Blocked (tick w) rest
          /\ forall w2, holder w2 this = None ->
               exists w',
                 snd (run (posix env) self rest w2) = Finished tt w'
                 /\ lock_time_ (mutexes w' this) = get_micros_at env (ticks w2)
                 /\ out w' = out w2 ++ report (ticks w2)).
Proof.
  intros Hclock start report. subst start.
  set (start := get_micros_at env (ticks w)).
  assert (Hrep : forall n,
            wait_report true env (Some label) t start n = report n).
  { intros n. unfold wait_report, report, start. cbn [andb is_some].
    rewrite (sub64_exact _ _ (Hclock n) (Hclock (ticks w))). reflexivity. }
  split.
  - intros Hfree.
    destruct (Lock_free_run true env self this (Some label) t w Hfree)
      as (l & w' & Hrun & Hm & _ & _ & _ & Ho & _).
    exists w'. rewrite Hrun. cbn [snd]. split; [reflexivity|].
    cbn [andb is_some] in *. rewrite Hm, Ho. split; [reflexivity|].
    now rewrite Hrep.
  - intros other Hh Hne.
    exists (Lock_after_start true this (Some label) t start).
    split.
    + rewrite Lock_run. cbn [andb is_some snd]. fold start.
      now rewrite (Lock_after_start_busy true env self this (Some label) t
                     start (tick w) other Hh (other_thread self other _ Hne)).
    + intros w2 Hfree.
      destruct (Lock_after_start_run true env self this (Some label) t start
                  w2 Hfree) as (l & w' & Hrun & Hch & _).
      destruct Hch as (Hm & _ & _ & _ & Ho & _).
      exists w'. rewrite Hrun. cbn [snd]. split; [reflexivity|].
      rewrite Hm, Ho. split; [reflexivity|]. now rewrite Hrep.
Qed.

Lemma Lock_reports_long_wait_witness :
  (forall n, 0 <= get_micros_at sample_env n < 2 ^ 63)
  /\ holder fresh_world 16 = None
  /\ exists w',
       snd (run (posix sample_env) 1 (Lock true 16 (Some "slow") 500)
              fresh_world) = Finished tt w'
       /\ lock_time_ (mutexes w' 16) = 1000
       /\ out w' = [mkDiag wait_lock "12:00:00" (Some "slow") 1000].
Proof.
  assert (Hclock : forall n, 0 <= get_micros_at sample_env n < 2 ^ 63).
  { intros n. cbn [get_micros_at sample_env]. pows. lia. }
  assert (Hfree : holder fresh_world 16 = None) by reflexivity.
  split; [exact Hclock|]. split; [exact Hfree|].
  destruct (Lock_reports_long_wait sample_env 1 16 "slow" 500 fresh_world
              Hclock) as [H _].
  destruct (H Hfree) as (w' & Hrun & Ht & Ho).
  exists w'. split; [exact Hrun|]. split; [exact Ht|exact Ho].
Defined.

(** ** Without instrumentation *)

(** C8: without MUTEX_DEBUG, a run of Lock is the same whatever label and
    threshold are passed, under any operating system: same record, same
    outcome, same world.  On POSIX threads neither Lock nor Unlock prints
    or reads the clock, and of the Mutex they leave msg_, msg_threshold_
    and lock_time_ as they were: only mu_ and owner_ can differ, and no
    other Mutex is touched. *)
Theorem uninstrumented_Lock_ignores_label (sys : os_model) (env : Env)
    (self : pthread_t) (this : addr) (m1 m2 : option string)
    (t1 t2 : int64_t) (w : World) :
  run sys self (Lock false this m1 t1) w
    = run sys self (Lock false this m2 t2) w
  /\ instrumentation_untouched w
       (outcome_world (snd (run (posix env) self (Lock false this m1 t1) w)))
       this
  /\ instrumentation_untouched w
       (outcome_world (snd (run (posix env) self (Unlock false this) w)))
       this.
Proof.
  split; [reflexivity|]. unfold instrumentation_untouched. split.
  - cbn. destruct (holder w this) as [o|] eqn:Hh.
    + destruct ((o =? self) && checks_errors w this); cbn;
        repeat split; reflexivity.
    + unfold AfterLock. sym. repeat split; try reflexivity.
      intros q Hq. now rewrite !upd_other.
  - unfold Unlock, BeforeUnlock. cbn.
    destruct (holds self _ this) eqn:Hh; [|destruct (checks_errors _ this)];
      sym; repeat split; try reflexivity;
      intros q Hq; now rewrite !upd_other.
Qed.

Lemma uninstrumented_Lock_ignores_label_witness :
  run (posix sample_env) 1 (Lock false 16 (Some "a") 1) fresh_world
    = run (posix sample_env) 1 (Lock false 16 None 5000) fresh_world
  /\ out (outcome_world
            (snd (run (posix sample_env) 1 (Unlock false 16) (held_world false))))
     = out (held_world false).
Proof.
  destruct (uninstrumented_Lock_ignores_label (posix sample_env) sample_env
              1 16 (Some "a") None 1 5000 fresh_world) as [Hsame _].
  destruct (uninstrumented_Lock_ignores_label (posix sample_env) sample_env
              1 16 None None 0 0 (held_world false)) as (_ & _ & Hout & _).
  split; [exact Hsame|exact Hout].
Defined.

(** ** Unlock by a thread that does not hold the lock *)

(** C10: when the calling thread does not hold the error-checking mutex,
    Unlock has already stored zero in owner_ when pthread_mutex_unlock
    answers EPERM: the record of the run shows the store right before the
    call, the owner field kept its old value up to that store, and the
    process is aborted in a world where owner_ is zero although the
    holder of the lock has not changed. *)
Theorem Unlock_by_non_holder_clears_owner (D : bool) (env : Env)
    (self : pthread_t) (this : addr) (w : World) :
  holds self w this = false ->
  checks_errors w this = true ->
  exists l w1 w',
    run (posix env) self (Unlock D this) w
      = ((l ++ [Did (Store this owner 0) tt w1]) ++
         [Did (Os (pthread_mutex_unlock this)) EPERM w1;
          Did (FprintfStderr (mkErr "mutex unlock" EPERM)) tt w';
          Died w'],
         Aborted w')
    /\ Forall (fun e => owner_ (mutexes (entry_world e) this)
                        = owner_ (mutexes w this)) l
    /\ owner_ (mutexes w1 this) = 0
    /\ owner_ (mutexes w' this) = 0
    /\ holder w' this = holder w this
    /\ err w' = err w ++ [mkErr "mutex unlock" EPERM].
Proof.
  intros Hh Hc.
  destruct (Unlock_run D env self this w) as (l & w1 & Hch & Hl & Hrun).
  rewrite Hh, Hc in Hrun. cbn [orb negb] in Hrun.
  destruct Hch as (Hm1 & _ & _ & _ & _ & He1).
  exists l, w1, (put_err w1 (mkErr "mutex unlock" EPERM)).
  split; [exact Hrun|]. split; [|cbn; unfold holder; cbn; rewrite Hm1, He1;
                                 repeat split; reflexivity].
  eapply Forall_impl; [|exact Hl]. intros e [_ Ho]. exact Ho.
Qed.

Lemma Unlock_by_non_holder_clears_owner_witness :
  holds 2 (held_world true) 16 = false
  /\ checks_errors (held_world true) 16 = true
  /\ owner_ (mutexes (held_world true) 16) = 1
  /\ exists w',
       snd (run (posix sample_env) 2 (Unlock true 16) (held_world true))
         = Aborted w'
       /\ owner_ (mutexes w' 16) = 0
       /\ holder w' 16 = Some 1.
Proof.
  assert (Hh : holds 2 (held_world true) 16 = false) by reflexivity.
  assert (Hc : checks_errors (held_world true) 16 = true) by reflexivity.
  split; [exact Hh|]. split; [exact Hc|]. split; [reflexivity|].
  destruct (Unlock_by_non_holder_clears_owner true sample_env 2 16
              (held_world true) Hh Hc)
    as (l & w1 & w' & Hrun & _ & _ & Ho & Hhold & _).
  exists w'. rewrite Hrun. cbn [snd].
  split; [reflexivity|]. split; [exact Ho|]. rewrite Hhold. reflexivity.
Defined.

(** ** TimeWait: the value returned *)

(** C2, what the code does: TimeWait returns whether the pthread call
    returned zero.  Called by the holder with a valid deadline it sleeps,
    and once woken it returns true for a signal and false for ETIMEDOUT.
    When pthread_cond_timedwait fails for another reason (EINVAL for a
    deadline whose nanoseconds are out of range, EPERM for a caller that
    does not hold the mutex), TimeWait does not abort: it runs AfterLock,
    which records the caller as owner, and returns false as it does for a
    timeout. *)
Theorem TimeWait_returns_false_on_os_error (D : bool) (env : Env)
    (self : pthread_t) (c mu : addr) (timeout : int) (m : option string)
    (w : World) :
  let this := mkCondVar mu c in
  let ts := TimeWait_deadline (gettimeofday_at env (ticks w)) timeout in
  let threshold := msg_threshold_ (mutexes w mu) in
  (timespec_valid ts = false
   \/ (holds self w mu = false /\ checks_errors w mu = true) ->
   exists w',
     snd (run (posix env) self (TimeWait D this timeout m) w)
       = Finished false w'
     /\ err w' = err w
     /\ owner_ (mutexes w' mu) = self
     /\ holder w' mu = holder w mu)
  /\ (timespec_valid ts = true -> holder w mu = Some self ->
      exists w1,
        snd (run (posix env) self (TimeWait D this timeout m) w)
          = Blocked w1 (TimeWait_resumed D this m threshold)
        /\ forall w2 x code,
             find_waiter self (conds w2 c) = Some x ->
             w_woken x = Some code ->
             holder w2 mu = None ->
             exists w3,
               snd (run (posix env) self
                      (TimeWait_resumed D this m threshold) w2)
                 = Finished (code =? 0) w3
               /\ holder w3 mu = Some self).
Proof.
  intros this ts threshold.
  destruct (TimeWait_run D env self c mu timeout m w)
    as (l & w1 & Hch & Hl & Hbu & Hrun).
  destruct Hch as (Hm1 & _ & _ & _ & _ & He1).
  fold ts in Hrun. fold threshold in Hrun. split.
  - intros Hbad.
    destruct (AfterLock_run D env self mu m threshold w1)
      as (l3 & w3 & Hal & Hch3 & _).
    destruct Hch3 as (Hm3 & _ & _ & _ & _ & He3).
    exists w3. unfold this. rewrite Hrun.
    assert (E : negb (timespec_valid ts)
                || negb (holds self w mu) && checks_errors w mu = true).
    { destruct Hbad as [-> | [-> ->]]; [reflexivity|].
      cbn. apply orb_true_r. }
    rewrite E. cbn [snd]. rewrite run_bind, Hal. cbn [fst snd].
    cbn. split; [reflexivity|]. unfold holder.
    rewrite He3, He1, Hm3, Hm1. cbn. repeat split; reflexivity.
  - intros Hgood Hheld.
    exists (sleep_on self true c mu w1). unfold this. rewrite Hrun.
    rewrite Hgood, (holds_of_holder self w mu Hheld). cbn [negb orb andb snd].
    split; [reflexivity|].
    intros w2 x code Hx Hwoken Hfree.
    destruct (TimeWait_resumed_run D env self c mu m threshold w2 x code
                Hx Hwoken Hfree) as (l3 & w3 & Hres & Hch3 & _).
    destruct Hch3 as (Hm3 & _).
    exists w3. rewrite Hres. cbn [snd]. split; [reflexivity|].
    unfold holder. now rewrite Hm3.
Qed.

Lemma TimeWait_returns_false_on_os_error_witness :
  timespec_valid
    (TimeWait_deadline (gettimeofday_at sample_env (ticks (held_world false)))
       (-1)) = false
  /\ TimeWait_deadline (mkTimeval 1700000000 0) (-1)
     = mkTimespec 1700000000 (-1000000)
  /\ exists w',
       snd (run (posix sample_env) 1
              (TimeWait false (mkCondVar 16 32) (-1) None) (held_world false))
         = Finished false w'
       /\ err w' = err (held_world false).
Proof.
  assert (Hbad : timespec_valid
            (TimeWait_deadline
               (gettimeofday_at sample_env (ticks (held_world false))) (-1))
          = false) by (vm_compute; reflexivity).
  split; [exact Hbad|]. split; [vm_compute; reflexivity|].
  destruct (TimeWait_returns_false_on_os_error false sample_env 1 32 16 (-1)
              None (held_world false)) as [H _].
  destruct (H (or_introl Hbad)) as (w' & Hrun & He & _).
  exists w'. split; [exact Hrun|exact He].
Defined.

(** ** MutexLock *)

Lemma Unlock_held_run (D : bool) (env : Env) (self : pthread_t) (this : addr)
    (w : World) :
  holder w this = Some self ->
  exists l w',
    run (posix env) self (Unlock D this) w = (l, Finished tt w')
    /\ mutexes w' this = give (released D (mutexes w this))
    /\ (forall q, q <> this -> mutexes w' q = mutexes w q)
    /\ conds w' = conds w
    /\ err w' = err w
    /\ out w' = out w ++ hold_report D env (mutexes w this) (ticks w)
    /\ ((owner_ (mutexes w this) <> 0 -> owner_ (mutexes w this) = self) ->
        sound_throughout this l).
Proof.
  intros Hh.
  destruct (Unlock_run D env self this w) as (l & w1 & Hch & Hl & Hrun).
  destruct Hch as (Hm1 & Hfr1 & Hc1 & Ht1 & Ho1 & He1).
  assert (E : holds self w this = true).
  { unfold holds. rewrite Hh. apply Z.eqb_refl. }
  rewrite E in Hrun. cbn [orb] in Hrun.
  eexists _, _. split; [exact Hrun|].
  unfold holder in Hh.
  cbn. rewrite upd_same, Hm1. repeat split; try assumption.
  - intros q Hq. rewrite upd_other by exact Hq. now apply Hfr1.
  - intros Ho. apply Forall_app. split; [apply Forall_app; split|].
    + eapply same_lock_sound; [|exact Hl]. intros Hn. rewrite Hh.
      f_equal. symmetry. now apply Ho.
    + constructor; [|constructor]. unfold owner_sound. cbn. rewrite Hm1.
      cbn. intros Hn. now contradiction Hn.
    + constructor; [|constructor]. unfold owner_sound. cbn.
      rewrite upd_same. cbn. rewrite Hm1. cbn. intros Hn. now contradiction Hn.
Qed.





(** ** Wait *)

(** C6: Wait first runs BeforeUnlock to its end, in the world of the call
    and with the lock still held: the diagnostic, if due, is printed and
    owner_ is zero before the pthread call releases the mutex.  When the
    thread has been woken and has the mutex again, what remains of Wait is
    AfterLock with the label of this Wait and the threshold read before
    the wait, whatever other threads stored in msg_threshold_ meanwhile;
    with instrumentation and a label it stores in lock_time_ a clock read
    made after the mutex is held again.  The Unlock that follows therefore
    measures the hold time from that read: no clock value read before the
    thread woke up enters the test or the line printed. *)
Theorem Wait_suspends_bookkeeping (D : bool) (env : Env) (self : pthread_t)
    (c mu : addr) (m : option string) (w : World) :
  holder w mu = Some self ->
  let this := mkCondVar mu c in
  let threshold := msg_threshold_ (mutexes w mu) in
  exists l1 w1,
    run (posix env) self (BeforeUnlock D mu) w = (l1, Finished tt w1)
    /\ owner_ (mutexes w1 mu) = 0
    /\ holder w1 mu = Some self
    /\ out w1 = out w ++ hold_report D env (mutexes w mu) (ticks w)
    /\ run (posix env) self (Wait D this m) w
       = (Did (Load mu msg_threshold) threshold w
            :: l1 ++ [Began (Os (pthread_cond_wait c mu))
                            (sleep_on self false c mu w1)],
          Blocked (sleep_on self false c mu w1)
                  (Wait_resumed D this m threshold))
    /\ holder (sleep_on self false c mu w1) mu = None
    /\ forall w2 x,
         find_waiter self (conds w2 c) = Some x ->
         w_woken x = Some 0 ->
         holder w2 mu = None ->
         exists l3 w3,
           run (posix env) self (AfterLock D mu m threshold)
               (reacquired self c mu w2) = (l3, Finished tt w3)
           /\ run (posix env) self (Wait_resumed D this m threshold) w2
              = (Did (Os (cond_reacquire c mu)) 0 (reacquired self c mu w2)
                   :: l3,
                 Finished tt w3)
           /\ holder (reacquired self c mu w2) mu = Some self
           /\ owner_ (mutexes w3 mu) = self
           /\ holder w3 mu = Some self
           /\ (D = true ->
               msg_ (mutexes w3 mu) = m
               /\ msg_threshold_ (mutexes w3 mu) = threshold
               /\ (is_some m = true ->
                   lock_time_ (mutexes w3 mu) = get_micros_at env (ticks w2)))
           /\ forall w4,
                mutexes w4 mu = mutexes w3 mu ->
                out (outcome_world (snd (run (posix env) self (Unlock D mu) w4)))
                = out w4 ++
                  (if D && is_some m &&
                      (sub64 (get_micros_at env (ticks w4))
                             (get_micros_at env (ticks w2)) >? threshold)
                   then [mkDiag locked (now_time_str_at env (S (ticks w4))) m
                           (sub64 (get_micros_at env (S (S (ticks w4))))
                                  (get_micros_at env (ticks w2)))]
                   else []).
Proof.
  intros Hheld this threshold.
  destruct (Wait_run D env self c mu m w)
    as (l & w1 & Hch & Hl & Hbu & Hrun).
  destruct Hch as (Hm1 & _ & _ & _ & Ho1 & _).
  exists (l ++ [Did (Store mu owner 0) tt w1]), w1.
  assert (E : holds self w mu = true).
  { unfold holds. rewrite Hheld. apply Z.eqb_refl. }
  rewrite E in Hrun. cbn [negb andb] in Hrun.
  split; [exact Hbu|]. split; [now rewrite Hm1|].
  split; [unfold holder in *; now rewrite Hm1|].
  split; [exact Ho1|]. split; [exact Hrun|].
  split; [unfold holder, sleep_on; cbn; now rewrite upd_same|].
  intros w2 x Hx Hwoken Hfree.
  destruct (Wait_resumed_run D env self c mu m threshold w2 x Hx Hwoken Hfree)
    as (l3 & w3 & Hres & Hal & Hch3 & _).
  destruct Hch3 as (Hm3 & _).
  exists (l3 ++ [Did (Store mu owner self) tt w3]), w3.
  split; [exact Hal|]. split; [exact Hres|].
  split; [unfold holder, reacquired; cbn; now rewrite upd_same|].
  split; [now rewrite Hm3|].
  split; [unfold holder; now rewrite Hm3|].
  split.
  - intros ->. rewrite Hm3. cbn. repeat split. now intros ->.
  - intros w4 Hm4.
    destruct (Unlock_run D env self mu w4) as (l4 & w5 & Hch5 & _ & Hrun5).
    destruct Hch5 as (_ & _ & _ & _ & Ho5 & _).
    assert (Hout : out (outcome_world
                          (snd (run (posix env) self (Unlock D mu) w4)))
                   = out w5).
    { rewrite Hrun5. destruct (holds self w4 mu || _); reflexivity. }
    rewrite Hout, Ho5. f_equal.
    unfold hold_report. rewrite Hm4, Hm3.
    destruct D, m as [label|]; reflexivity.
Qed.

Lemma Wait_suspends_bookkeeping_witness :
  holder (held_world true) 16 = Some 1
  /\ exists w1 rest,
       snd (run (posix sample_env) 1 (Wait true (mkCondVar 16 32) (Some "w"))
              (held_world true)) = Blocked w1 rest
       /\ holder w1 16 = None
       /\ owner_ (mutexes w1 16) = 0.
Proof.
  assert (Hheld : holder (held_world true) 16 = Some 1) by reflexivity.
  split; [exact Hheld|].
  destruct (Wait_suspends_bookkeeping true sample_env 1 32 16 (Some "w")
              (held_world true) Hheld)
    as (l1 & w1 & _ & Ho & _ & _ & Hrun & Hh & _).
  eexists _, _. rewrite Hrun. cbn [snd]. split; [reflexivity|].
  split; [exact Hh|].
  unfold sleep_on. cbn. exact Ho.
Defined.

(** ** The owner field and the holder of the lock *)

Lemma run_then_ret (sys : os_model) (self : pthread_t) A B (b : B)
    (p : prog A) (w : World) :
  run sys self (p ;; Ret b) w
    = (fst (run sys self p w),
       map_outcome (fun _ : A => b) (snd (run sys self p w))).
Proof.
  rewrite run_bind.
  destruct (snd (run sys self p w)); cbn; rewrite ?app_nil_r; reflexivity.
Qed.

Lemma keeps_owner_then_ret (sys : os_model) (self : pthread_t) (mu : addr)
    A B (b : B) (p : prog A) (w : World) :
  keeps_owner sys self mu (run sys self p w) ->
  keeps_owner sys self mu (run sys self (p ;; Ret b) w).
Proof.
  intros (Hs & Hset & Hres). rewrite run_then_ret. unfold keeps_owner.
  cbn [fst snd]. split; [exact Hs|].
  destruct (snd (run sys self p w)) as [a w' | w' | w' rest]; cbn;
    try (split; [assumption | exact I]).
  split; [exact Hset|].
  intros w2 Hi Hn. specialize (Hres w2 Hi Hn). cbn in Hres.
  rewrite run_then_ret. cbn [fst snd].
  destruct Hres as [Hs2 Hout]. split; [exact Hs2|].
  destruct (snd (run sys self rest w2)); cbn; assumption.
Qed.

(* what is left of Lock, run in a settled world *)
Lemma Lock_resumed_keeps (D : bool) (env : Env) (self : pthread_t)
    (this : addr) (m : option string) (t s : int64_t) (w2 : World) :
  self <> 0 -> owner_inv w2 this -> holder w2 this <> Some self ->
  sound_throughout this
    (fst (run (posix env) self (Lock_after_start D this m t s) w2))
  /\ match snd (run (posix env) self (Lock_after_start D this m t s) w2) with
     | Finished _ w3 => owner_inv w3 this /\ holder w3 this = Some self
     | Blocked w3 rest =>
         owner_inv w3 this
         /\ fst (run (posix env) self (Lock_after_start D this m t s) w2) = []
         /\ rest = Lock_after_start D this m t s
     | Aborted _ => True
     end.
Proof.
  intros Hself Hinv Hn.
  destruct (holder w2 this) as [o|] eqn:Hh.
  - assert (Hne : o <> self) by congruence.
    rewrite (Lock_after_start_busy D env self this m t s w2 o Hh
               (other_thread self o _ Hne)).
    cbn. split; [constructor|]. repeat split. exact Hinv.
  - destruct (Lock_after_start_run D env self this m t s w2 Hh)
      as (l & w' & Hrun & Hch & Hs).
    destruct Hch as (Hm & _).
    rewrite Hrun. cbn [fst snd].
    split; [apply Hs; now apply inv_free_owner|].
    split; [|unfold holder; now rewrite Hm].
    apply (inv_held self); [exact Hself| |]; now rewrite Hm.
Qed.

Lemma Lock_keeps_owner (D : bool) (env : Env) (self : pthread_t)
    (this : addr) (m : option string) (t : int64_t) (w : World) :
  self <> 0 -> owner_inv w this ->
  keeps_owner (posix env) self this (run (posix env) self (Lock D this m t) w).
Proof.
  intros Hself Hinv.
  assert (Hgen : forall s v,
            mutexes v this = mutexes w this ->
            keeps_owner (posix env) self this
              (run (posix env) self (Lock_after_start D this m t s) v)).
  { intros s v Hv.
    assert (Hiv : owner_inv v this) by (now apply (inv_same w v this Hv)).
    destruct (holder v this) as [o|] eqn:Hh.
    - destruct ((o =? self) && checks_errors v this) eqn:Hb.
      + apply andb_prop in Hb. destruct Hb as [Ho Hc].
        apply Z.eqb_eq in Ho. subst o.
        rewrite Lock_after_start_deadlock; [|exact Hh|exact Hc].
        unfold keeps_owner. cbn.
        split; [|split; exact I].
        repeat constructor; cbn; apply (sound_same v); try reflexivity;
          now apply inv_sound.
      + rewrite (Lock_after_start_busy D env self this m t s v o Hh Hb).
        unfold keeps_owner. cbn [fst snd settled resumes_settled].
        split; [constructor|]. split; [exact Hiv|].
        intros w2 Hi2 Hn2.
        destruct (Lock_resumed_keeps D env self this m t s w2 Hself Hi2 Hn2)
          as [Hs2 Ho2].
        split; [exact Hs2|].
        destruct (snd (run (posix env) self (Lock_after_start D this m t s) w2));
          [exact Ho2| exact I | split; apply Ho2].
    - assert (Hn : holder v this <> Some self) by congruence.
      destruct (Lock_resumed_keeps D env self this m t s v Hself Hiv Hn)
        as [Hs Ho].
      destruct (Lock_after_start_run D env self this m t s v Hh)
        as (l & w' & Hrun & _).
      rewrite Hrun in *. cbn [fst snd] in *.
      unfold keeps_owner. cbn. split; [exact Hs|]. split; [apply Ho|exact I]. }
  rewrite Lock_run. destruct (D && is_some m).
  - destruct (Hgen (get_micros_at env (ticks w)) (tick w) eq_refl)
      as (Hs & Hset & Hres).
    unfold keeps_owner. cbn [fst snd]. split; [|split; assumption].
    constructor; [|exact Hs]. cbn. apply (sound_same w); [reflexivity|].
    now apply inv_sound.
  - apply Hgen. reflexivity.
Qed.

Lemma Unlock_keeps_owner (D : bool) (env : Env) (self : pthread_t)
    (this : addr) (w : World) :
  owner_inv w this -> holder w this = Some self ->
  keeps_owner (posix env) self this (run (posix env) self (Unlock D this) w).
Proof.
  intros Hinv Hheld.
  destruct (Unlock_held_run D env self this w Hheld)
    as (l & w' & Hrun & Hm & _ & _ & _ & _ & Hs).
  rewrite Hrun. unfold keeps_owner. cbn [fst snd settled resumes_settled].
  split; [|split; [|exact I]].
  - apply Hs. intros Hn. pose proof (inv_sound w this Hinv Hn) as H.
    rewrite Hheld in H. congruence.
  - apply inv_released; now rewrite Hm.
Qed.

Lemma AssertHeld_keeps_owner (sys : os_model) (self : pthread_t)
    (this : addr) (w : World) :
  owner_inv w this ->
  keeps_owner sys self this (run sys self (AssertHeld this) w).
Proof.
  intros Hinv. pose proof (inv_sound w this Hinv) as Hs.
  unfold keeps_owner, sound_throughout.
  cbn -[owner_sound owner_inv]. unfold pthread_equal.
  destruct (owner_ (mutexes w this) =? self); cbn -[owner_sound owner_inv];
    repeat split; try assumption; repeat constructor; assumption.
Qed.

Lemma signal_keeps_owner (env : Env) (self : pthread_t) (this c : addr)
    (w : World) :
  owner_inv w this ->
  keeps_owner (posix env) self this
    (run (posix env) self (Signal (mkCondVar this c)) w)
  /\ keeps_owner (posix env) self this
       (run (posix env) self (Broadcast (mkCondVar this c)) w).
Proof.
  intros Hinv. pose proof (inv_sound w this Hinv) as Hs.
  unfold keeps_owner, sound_throughout. cbn -[owner_sound owner_inv].
  repeat split; try assumption; repeat constructor; try assumption;
    (apply (sound_same w); [reflexivity|assumption])
    || (apply (inv_same w); [reflexivity|assumption]).
Qed.

(* what is left of Wait and of TimeWait, run in a settled world *)
Lemma Wait_resumed_keeps (D : bool) (env : Env) (self : pthread_t)
    (c mu : addr) (m : option string) (threshold : int64_t) (w2 : World) :
  self <> 0 -> owner_inv w2 mu ->
  sound_throughout mu
    (fst (run (posix env) self
            (Wait_resumed D (mkCondVar mu c) m threshold) w2))
  /\ match snd (run (posix env) self
                  (Wait_resumed D (mkCondVar mu c) m threshold) w2) with
     | Finished _ w3 => owner_inv w3 mu /\ holder w3 mu = Some self
     | Blocked w3 _ =>
         owner_inv w3 mu
         /\ fst (run (posix env) self
                   (Wait_resumed D (mkCondVar mu c) m threshold) w2) = []
     | Aborted _ => True
     end.
Proof.
  intros Hself Hinv.
  destruct (find_waiter self (conds w2 c)) as [x|] eqn:Hx;
    [destruct (w_woken x) as [code|] eqn:Hw;
       [destruct (holder w2 mu) as [o|] eqn:Hh|]|].
  2: destruct (Z.eq_dec code 0) as [-> | Hcode].
  - unfold Wait_resumed. cbn. rewrite Hx, Hw, Hh. cbn.
    split; [constructor|]. split; [exact Hinv|reflexivity].
  - destruct (Wait_resumed_run D env self c mu m threshold w2 x Hx Hw Hh)
      as (l & w3 & Hrun & _ & Hch & Hl).
    destruct Hch as (Hm3 & _).
    rewrite Hrun. cbn [fst snd].
    pose proof (inv_free_owner w2 mu Hinv Hh) as Hz.
    split.
    + constructor.
      * apply sound_unowned. cbn. now rewrite upd_same.
      * apply Forall_app. split.
        -- eapply same_lock_sound; [|exact Hl]. cbn. congruence.
        -- repeat constructor. cbn. unfold owner_sound, holder.
           rewrite Hm3. destruct D; reflexivity.
    + split; [|unfold holder; now rewrite Hm3].
      apply (inv_held self); [exact Hself| |]; now rewrite Hm3.
  - unfold Wait_resumed. cbn. rewrite Hx, Hw, Hh. cbn.
    pose proof (inv_free_owner w2 mu Hinv Hh) as Hz.
    destruct code as [|p|p]; [contradiction| |]; cbn;
      (split; [|exact I]);
      repeat constructor; apply sound_unowned; cbn; now rewrite upd_same.
  - unfold Wait_resumed. cbn. rewrite Hx, Hw. cbn.
    split; [constructor|]. split; [exact Hinv|reflexivity].
  - unfold Wait_resumed. cbn. rewrite Hx. cbn.
    split; [constructor|]. split; [exact Hinv|reflexivity].
Qed.

Lemma TimeWait_resumed_keeps (D : bool) (env : Env) (self : pthread_t)
    (c mu : addr) (m : option string) (threshold : int64_t) (w2 : World) :
  self <> 0 -> owner_inv w2 mu ->
  sound_throughout mu
    (fst (run (posix env) self
            (TimeWait_resumed D (mkCondVar mu c) m threshold) w2))
  /\ match snd (run (posix env) self
                  (TimeWait_resumed D (mkCondVar mu c) m threshold) w2) with
     | Finished _ w3 => owner_inv w3 mu /\ holder w3 mu = Some self
     | Blocked w3 _ =>
         owner_inv w3 mu
         /\ fst (run (posix env) self
                   (TimeWait_resumed D (mkCondVar mu c) m threshold) w2) = []
     | Aborted _ => True
     end.
Proof.
  intros Hself Hinv.
  destruct (find_waiter self (conds w2 c)) as [x|] eqn:Hx;
    [destruct (w_woken x) as [code|] eqn:Hw;
       [destruct (holder w2 mu) as [o|] eqn:Hh|]|].
  - unfold TimeWait_resumed. cbn. rewrite Hx, Hw, Hh. cbn.
    split; [constructor|]. split; [exact Hinv|reflexivity].
  - destruct (TimeWait_resumed_run D env self c mu m threshold w2 x code
                Hx Hw Hh) as (l & w3 & Hrun & Hch & Hl).
    destruct Hch as (Hm3 & _).
    rewrite Hrun. cbn [fst snd].
    pose proof (inv_free_owner w2 mu Hinv Hh) as Hz.
    split.
    + constructor.
      * apply sound_unowned. cbn. now rewrite upd_same.
      * apply Forall_app. split.
        -- eapply same_lock_sound; [|exact Hl]. cbn. congruence.
        -- repeat constructor. cbn. unfold owner_sound, holder.
           rewrite Hm3. destruct D; reflexivity.
    + split; [|unfold holder; now rewrite Hm3].
      apply (inv_held self); [exact Hself| |]; now rewrite Hm3.
  - unfold TimeWait_resumed. cbn. rewrite Hx, Hw. cbn.
    split; [constructor|]. split; [exact Hinv|reflexivity].
  - unfold TimeWait_resumed. cbn. rewrite Hx. cbn.
    split; [constructor|]. split; [exact Hinv|reflexivity].
Qed.

(* the worlds of BeforeUnlock, run by the holder in a settled world *)
Lemma BeforeUnlock_sound (self : pthread_t) (mu : addr) (w w1 : World)
    (l : list entry) :
  owner_inv w mu ->
  Forall (same_lock (mutexes w mu) mu) l ->
  owner_ (mutexes w1 mu) = 0 ->
  sound_throughout mu (l ++ [Did (Store mu owner 0) tt w1]).
Proof.
  intros Hinv Hl Hz. apply Forall_app. split.
  - eapply same_lock_sound; [|exact Hl]. apply (inv_sound w mu Hinv).
  - repeat constructor. now apply sound_unowned.
Qed.

Lemma Wait_keeps_owner (D : bool) (env : Env) (self : pthread_t)
    (c mu : addr) (m : option string) (w : World) :
  self <> 0 -> owner_inv w mu -> holder w mu = Some self ->
  keeps_owner (posix env) self mu
    (run (posix env) self (Wait D (mkCondVar mu c) m) w).
Proof.
  intros Hself Hinv Hheld.
  destruct (Wait_run D env self c mu m w) as (l & w1 & Hch & Hl & _ & Hrun).
  destruct Hch as (Hm1 & _).
  rewrite (holds_of_holder self w mu Hheld) in Hrun. cbn [negb andb] in Hrun.
  rewrite Hrun. unfold keeps_owner. cbn [fst snd settled resumes_settled].
  assert (Hz : owner_ (mutexes w1 mu) = 0) by now rewrite Hm1.
  split; [|split].
  - constructor; [now apply inv_sound|].
    apply Forall_app. split.
    + now apply (BeforeUnlock_sound self mu w w1 l).
    + repeat constructor. apply sound_unowned. cbn. rewrite upd_same. exact Hz.
  - apply inv_released; cbn; rewrite upd_same; [reflexivity|exact Hz].
  - intros w2 Hi2 _.
    destruct (Wait_resumed_keeps D env self c mu m
                (msg_threshold_ (mutexes w mu)) w2 Hself Hi2) as [Hs Ho].
    split; [exact Hs|exact Ho].
Qed.

Lemma TimeWait_keeps_owner (D : bool) (env : Env) (self : pthread_t)
    (c mu : addr) (timeout : int) (m : option string) (w : World) :
  self <> 0 -> owner_inv w mu -> holder w mu = Some self ->
  keeps_owner (posix env) self mu
    (run (posix env) self (TimeWait D (mkCondVar mu c) timeout m) w).
Proof.
  intros Hself Hinv Hheld.
  destruct (TimeWait_run D env self c mu timeout m w)
    as (l & w1 & Hch & Hl & _ & Hrun).
  destruct Hch as (Hm1 & _).
  rewrite (holds_of_holder self w mu Hheld) in Hrun. cbn [negb andb] in Hrun.
  rewrite orb_false_r in Hrun.
  assert (Hz : owner_ (mutexes w1 mu) = 0) by now rewrite Hm1.
  assert (Hpre : sound_throughout mu
            (Did (Os gettimeofday) (gettimeofday_at env (ticks w)) (tick w)
             :: Did (Load mu msg_threshold) (msg_threshold_ (mutexes w mu))
                    (tick w)
             :: l ++ [Did (Store mu owner 0) tt w1])).
  { constructor; [apply (sound_same w); [reflexivity|now apply inv_sound]|].
    constructor; [apply (sound_same w); [reflexivity|now apply inv_sound]|].
    now apply (BeforeUnlock_sound self mu w w1 l). }
  rewrite Hrun. unfold keeps_owner.
  destruct (timespec_valid _); cbn [negb fst snd settled resumes_settled].
  - split; [|split].
    + change (?a :: ?b :: ?l1 ++ ?l2) with ((a :: b :: l1) ++ l2).
      apply Forall_app. split; [exact Hpre|].
      repeat constructor. apply sound_unowned. cbn. rewrite upd_same. exact Hz.
    + apply inv_released; cbn; rewrite upd_same; [reflexivity|exact Hz].
    + intros w2 Hi2 _.
      destruct (TimeWait_resumed_keeps D env self c mu m
                  (msg_threshold_ (mutexes w mu)) w2 Hself Hi2) as [Hs Ho].
      split; [exact Hs|exact Ho].
  - destruct (AfterLock_run D env self mu m (msg_threshold_ (mutexes w mu)) w1)
      as (l3 & w3 & Hal & Hch3 & Hl3).
    destruct Hch3 as (Hm3 & _).
    rewrite run_then_ret, Hal. cbn [fst snd map_outcome settled resumes_settled].
    unfold holder in Hheld.
    split; [|split; [|exact I]].
    + change (?a :: ?b :: ?l1 ++ ?x :: ?l2) with ((a :: b :: l1) ++ x :: l2).
      apply Forall_app. split; [exact Hpre|].
      constructor; [now apply sound_unowned|].
      apply Forall_app. split.
      * eapply same_lock_sound; [|exact Hl3]. congruence.
      * repeat constructor. cbn [entry_world]. unfold owner_sound, holder.
        rewrite Hm3, Hm1. cbn. intros _. exact Hheld.
    + apply (inv_held self); [exact Hself| |]; rewrite Hm3, Hm1; cbn;
        [exact Hheld|reflexivity].
Qed.

Lemma op_keeps_owner (D : bool) (env : Env) (self : pthread_t)
    (this : addr) (op : operation) (w : World) :
  self <> 0 -> owner_inv w this -> op_pre self w this op ->
  keeps_owner (posix env) self this
    (run (posix env) self (op_prog D this op) w).
Proof.
  intros Hself Hinv Hpre.
  destruct op as [m t | | | c m | c timeout m | c | c]; cbn [op_prog op_pre] in *.
  - apply keeps_owner_then_ret. now apply Lock_keeps_owner.
  - apply keeps_owner_then_ret. now apply Unlock_keeps_owner.
  - apply keeps_owner_then_ret. now apply AssertHeld_keeps_owner.
  - apply keeps_owner_then_ret. now apply Wait_keeps_owner.
  - now apply TimeWait_keeps_owner.
  - apply keeps_owner_then_ret. now apply signal_keeps_owner.
  - apply keeps_owner_then_ret. now apply signal_keeps_owner.
Qed.

(* Unlock and Wait, whoever calls them *)
Lemma Unlock_keeps_owner_any (D : bool) (env : Env) (self : pthread_t)
    (this : addr) (w : World) :
  owner_inv w this ->
  keeps_owner (posix env) self this (run (posix env) self (Unlock D this) w).
Proof.
  intros Hinv.
  destruct (Unlock_run D env self this w) as (l & w1 & Hch & Hl & Hrun).
  destruct Hch as (Hm1 & _).
  assert (Hz : owner_ (mutexes w1 this) = 0) by now rewrite Hm1.
  assert (Hpre : sound_throughout this (l ++ [Did (Store this owner 0) tt w1]))
    by now apply (BeforeUnlock_sound self this w w1 l).
  rewrite Hrun. unfold keeps_owner.
  destruct (holds self w this || negb (checks_errors w this));
    cbn [fst snd settled resumes_settled].
  - split; [|split; [|exact I]].
    + apply Forall_app. split; [exact Hpre|].
      repeat constructor. apply sound_unowned. cbn. rewrite upd_same. exact Hz.
    + apply inv_released; cbn; rewrite upd_same; [reflexivity|exact Hz].
  - split; [|split; exact I].
    apply Forall_app. split; [exact Hpre|].
    repeat constructor; now apply sound_unowned.
Qed.

Lemma Wait_keeps_owner_any (D : bool) (env : Env) (self : pthread_t)
    (c mu : addr) (m : option string) (w : World) :
  self <> 0 -> owner_inv w mu ->
  keeps_owner (posix env) self mu
    (run (posix env) self (Wait D (mkCondVar mu c) m) w).
Proof.
  intros Hself Hinv.
  destruct (Wait_run D env self c mu m w) as (l & w1 & Hch & Hl & _ & Hrun).
  destruct Hch as (Hm1 & _).
  assert (Hz : owner_ (mutexes w1 mu) = 0) by now rewrite Hm1.
  assert (Hpre : sound_throughout mu
            (Did (Load mu msg_threshold) (msg_threshold_ (mutexes w mu)) w
             :: l ++ [Did (Store mu owner 0) tt w1])).
  { constructor; [now apply inv_sound|].
    now apply (BeforeUnlock_sound self mu w w1 l). }
  rewrite Hrun. unfold keeps_owner.
  destruct (negb (holds self w mu) && checks_errors w mu);
    cbn [fst snd settled resumes_settled].
  - split; [|split; exact I].
    change (?a :: ?l1 ++ ?l2) with ((a :: l1) ++ l2).
    apply Forall_app. split; [exact Hpre|].
    repeat constructor; now apply sound_unowned.
  - split; [|split].
    + change (?a :: ?l1 ++ ?l2) with ((a :: l1) ++ l2).
      apply Forall_app. split; [exact Hpre|].
      repeat constructor. apply sound_unowned. cbn. rewrite upd_same. exact Hz.
    + apply inv_released; cbn; rewrite upd_same; [reflexivity|exact Hz].
    + intros w2 Hi2 _.
      destruct (Wait_resumed_keeps D env self c mu m
                  (msg_threshold_ (mutexes w mu)) w2 Hself Hi2) as [Hs Ho].
      split; [exact Hs|exact Ho].
Qed.

(* TimeWait by a thread that does not hold the error-checking mutex *)
Lemma TimeWait_by_non_holder_run (D : bool) (env : Env) (self : pthread_t)
    (c mu : addr) (timeout : int) (m : option string) (w : World) :
  holds self w mu = false -> checks_errors w mu = true ->
  exists w',
    snd (run (posix env) self (TimeWait D (mkCondVar mu c) timeout m) w)
      = Finished false w'
    /\ owner_ (mutexes w' mu) = self
    /\ holder w' mu = holder w mu.
Proof.
  intros Hn Hc.
  destruct (TimeWait_run D env self c mu timeout m w)
    as (l & w1 & Hch & _ & _ & Hrun).
  destruct Hch as (Hm1 & _).
  rewrite Hn, Hc in Hrun. cbn [negb andb] in Hrun.
  rewrite orb_true_r in Hrun.
  destruct (AfterLock_run D env self mu m (msg_threshold_ (mutexes w mu)) w1)
    as (l3 & w3 & Hal & Hch3 & _).
  destruct Hch3 as (Hm3 & _).
  exists w3. rewrite Hrun. cbn [snd]. rewrite run_then_ret, Hal. cbn.
  split; [reflexivity|].
  split; [now rewrite Hm3|].
  unfold holder. now rewrite Hm3, Hm1.
Qed.

Lemma holds_false (self : pthread_t) (w : World) (mu : addr) :
  holder w mu <> Some self -> holds self w mu = false.
Proof.
  unfold holds. destruct (holder w mu) as [o|]; [|reflexivity].
  intros H. destruct (o =? self) eqn:E; [|reflexivity].
  apply Z.eqb_eq in E. subst o. now contradiction H.
Qed.

(** C1: on a Mutex whose owner field is right (it names the holder, and is
    zero when nobody holds the lock), every operation keeps it right, with
    one exception: a TimeWait by a thread that does not hold the lock.
    Apart from that call, in each world an operation passes through a set
    owner names the thread that holds the lock, so Lock stores the owner
    after the lock is obtained and Unlock and the waits clear it before
    the lock is released; and when the operation returns, and when it
    blocks, the owner is set if and only if the lock is held.  Lock on a
    free mutex returns with the caller as holder and owner; Unlock by the
    holder returns with no holder and no owner; Wait and TimeWait by the
    holder sleep with no holder and no owner and, once woken, return with
    the caller as holder and owner again.  A TimeWait by a thread that
    does not hold the error-checking mutex returns false with the caller
    stored as owner although the lock is not the caller's: the owner
    field is wrong from then on. *)
Theorem owner_set_iff_held (D : bool) (env : Env) (self : pthread_t)
    (this : addr) (w : World) :
  self <> 0 ->
  owner_inv w this ->
  (forall op,
     TimeWait_by_holder self w this op ->
     keeps_owner (posix env) self this
       (run (posix env) self (op_prog D this op) w)
     /\ forall b w',
          snd (run (posix env) self (op_prog D this op) w) = Finished b w' ->
          holder w' this =
            match op with
            | OpLock _ _ => Some self
            | OpUnlock => None
            | _ => holder w this
            end)
  /\ (forall m t,
        holder w this = None ->
        exists w',
          snd (run (posix env) self (Lock D this m t) w) = Finished tt w'
          /\ holder w' this = Some self
          /\ owner_ (mutexes w' this) = self)
  /\ (holder w this = Some self ->
      exists w',
        snd (run (posix env) self (Unlock D this) w) = Finished tt w'
        /\ holder w' this = None
        /\ owner_ (mutexes w' this) = 0)
  /\ (forall c m,
        holder w this = Some self ->
        exists w1 rest,
          snd (run (posix env) self (Wait D (mkCondVar this c) m) w)
            = Blocked w1 rest
          /\ holder w1 this = None
          /\ owner_ (mutexes w1 this) = 0
          /\ forall w2 x,
               find_waiter self (conds w2 c) = Some x ->
               w_woken x = Some 0 ->
               holder w2 this = None ->
               exists w3,
                 snd (run (posix env) self rest w2) = Finished tt w3
                 /\ holder w3 this = Some self
                 /\ owner_ (mutexes w3 this) = self)
  /\ (forall c timeout m,
        holder w this = Some self ->
        timespec_valid
          (TimeWait_deadline (gettimeofday_at env (ticks w)) timeout) = true ->
        exists w1 rest,
          snd (run (posix env) self
                 (TimeWait D (mkCondVar this c) timeout m) w)
            = Blocked w1 rest
          /\ holder w1 this = None
          /\ owner_ (mutexes w1 this) = 0
          /\ forall w2 x code,
               find_waiter self (conds w2 c) = Some x ->
               w_woken x = Some code ->
               holder w2 this = None ->
               exists w3,
                 snd (run (posix env) self rest w2) = Finished (code =? 0) w3
                 /\ holder w3 this = Some self
                 /\ owner_ (mutexes w3 this) = self)
  /\ (forall c timeout m,
        holder w this <> Some self ->
        checks_errors w this = true ->
        exists w',
          snd (run (posix env) self
                 (TimeWait D (mkCondVar this c) timeout m) w)
            = Finished false w'
          /\ owner_ (mutexes w' this) = self
          /\ holder w' this = holder w this
          /\ ~ owner_inv w' this).
Proof.
  intros Hself Hinv.
  split; [|split; [|split; [|split; [|split]]]].
  - intros op Hpre. split.
    + destruct op as [m t | | | c m | c timeout m | c | c];
        cbn [op_prog TimeWait_by_holder] in *.
      * apply keeps_owner_then_ret. now apply Lock_keeps_owner.
      * apply keeps_owner_then_ret. now apply Unlock_keeps_owner_any.
      * apply keeps_owner_then_ret. now apply AssertHeld_keeps_owner.
      * apply keeps_owner_then_ret. now apply Wait_keeps_owner_any.
      * now apply TimeWait_keeps_owner.
      * apply keeps_owner_then_ret. now apply signal_keeps_owner.
      * apply keeps_owner_then_ret. now apply signal_keeps_owner.
    + intros b w'.
      destruct op as [m t | | | c m | c timeout m | c | c];
        cbn [op_prog TimeWait_by_holder] in *.
      * rewrite run_then_ret. cbn [snd].
        destruct (holder w this) as [o|] eqn:Hh.
        -- rewrite Lock_run.
           destruct ((o =? self) && checks_errors w this) eqn:Hb.
           ++ apply andb_prop in Hb. destruct Hb as [Ho Hc].
              apply Z.eqb_eq in Ho. subst o.
              destruct (D && is_some m); cbn [snd];
                rewrite Lock_after_start_deadlock; cbn; try discriminate;
                assumption.
           ++ destruct (D && is_some m); cbn [snd];
                rewrite (Lock_after_start_busy D env self this m t _ _ o);
                cbn; try discriminate; assumption.
        -- destruct (Lock_free_run D env self this m t w Hh)
             as (l & w1 & Hrun & Hm & _).
           rewrite Hrun. cbn. intros [= _ <-]. unfold holder. now rewrite Hm.
      * rewrite run_then_ret. cbn [snd].
        destruct (Unlock_run D env self this w) as (l & w1 & _ & _ & Hrun).
        rewrite Hrun.
        destruct (holds self w this || negb (checks_errors w this));
          cbn; [|discriminate].
        intros [= _ <-]. unfold holder. cbn. now rewrite upd_same.
      * rewrite run_then_ret. cbn -[holder]. unfold pthread_equal.
        destruct (owner_ (mutexes w this) =? self); cbn -[holder];
          [|discriminate]. now intros [= _ <-].
      * rewrite run_then_ret. cbn [snd].
        destruct (Wait_run D env self c this m w) as (l & w1 & _ & _ & _ & Hrun).
        rewrite Hrun.
        destruct (negb (holds self w this) && checks_errors w this); cbn;
          discriminate.
      * destruct (TimeWait_run D env self c this timeout m w)
          as (l & w1 & Hch & _ & _ & Hrun).
        destruct Hch as (Hm1 & _).
        rewrite Hrun, (holds_of_holder self w this Hpre). cbn [negb andb].
        rewrite orb_false_r.
        destruct (timespec_valid _); cbn [negb snd]; [discriminate|].
        destruct (AfterLock_run D env self this m
                    (msg_threshold_ (mutexes w this)) w1)
          as (l3 & w3 & Hal & Hch3 & _).
        destruct Hch3 as (Hm3 & _).
        rewrite run_then_ret, Hal. cbn. intros [= _ <-].
        unfold holder. now rewrite Hm3, Hm1.
      * cbn -[holder]. intros [= _ <-]. reflexivity.
      * cbn -[holder]. intros [= _ <-]. reflexivity.
  - intros m t Hfree.
    destruct (Lock_free_run D env self this m t w Hfree)
      as (l & w' & Hrun & Hm & _).
    exists w'. rewrite Hrun. split; [reflexivity|].
    split; [unfold holder|]; now rewrite Hm.
  - intros Hheld.
    destruct (Unlock_held_run D env self this w Hheld)
      as (l & w' & Hrun & Hm & _).
    exists w'. rewrite Hrun. split; [reflexivity|].
    split; [unfold holder|]; now rewrite Hm.
  - intros c m Hheld.
    destruct (Wait_run D env self c this m w) as (l & w1 & Hch & _ & _ & Hrun).
    destruct Hch as (Hm1 & _).
    rewrite (holds_of_holder self w this Hheld) in Hrun.
    cbn [negb andb] in Hrun.
    eexists _, _. rewrite Hrun. split; [reflexivity|].
    split; [unfold holder; cbn; now rewrite upd_same|].
    split; [cbn; rewrite upd_same; cbn; now rewrite Hm1|].
    intros w2 x Hx Hw Hfree.
    destruct (Wait_resumed_run D env self c this m
                (msg_threshold_ (mutexes w this)) w2 x Hx Hw Hfree)
      as (l3 & w3 & Hrun3 & _ & Hch3 & _).
    destruct Hch3 as (Hm3 & _).
    exists w3. rewrite Hrun3. split; [reflexivity|].
    split; [unfold holder|]; now rewrite Hm3.
  - intros c timeout m Hheld Hvalid.
    destruct (TimeWait_run D env self c this timeout m w)
      as (l & w1 & Hch & _ & _ & Hrun).
    destruct Hch as (Hm1 & _).
    rewrite Hvalid, (holds_of_holder self w this Hheld) in Hrun.
    cbn [negb andb orb] in Hrun.
    eexists _, _. rewrite Hrun. split; [reflexivity|].
    split; [unfold holder; cbn; now rewrite upd_same|].
    split; [cbn; rewrite upd_same; cbn; now rewrite Hm1|].
    intros w2 x code Hx Hw Hfree.
    destruct (TimeWait_resumed_run D env self c this m
                (msg_threshold_ (mutexes w this)) w2 x code Hx Hw Hfree)
      as (l3 & w3 & Hrun3 & Hch3 & _).
    destruct Hch3 as (Hm3 & _).
    exists w3. rewrite Hrun3. split; [reflexivity|].
    split; [unfold holder|]; now rewrite Hm3.
  - intros c timeout m Hn Hc.
    destruct (TimeWait_by_non_holder_run D env self c this timeout m w
                (holds_false self w this Hn) Hc)
      as (w' & Hrun & Ho & Hh).
    exists w'. split; [exact Hrun|]. split; [exact Ho|]. split; [exact Hh|].
    unfold owner_inv. rewrite Ho, Hh.
    destruct (self =? 0) eqn:E; [apply Z.eqb_eq in E; contradiction|].
    exact Hn.
Qed.

Lemma owner_set_iff_held_witness :
  2 <> 0
  /\ owner_inv (held_world true) 16
  /\ holder (held_world true) 16 <> Some 2
  /\ checks_errors (held_world true) 16 = true
  /\ keeps_owner (posix sample_env) 2 16
       (run (posix sample_env) 2 (op_prog true 16 OpUnlock) (held_world true))
  /\ exists w',
       snd (run (posix sample_env) 2
              (TimeWait true (mkCondVar 16 32) 100 None) (held_world true))
         = Finished false w'
       /\ owner_ (mutexes w' 16) = 2
       /\ holder w' 16 = Some 1
       /\ ~ owner_inv w' 16.
Proof.
  assert (H2 : 2 <> 0) by lia.
  assert (Hinv : owner_inv (held_world true) 16) by reflexivity.
  assert (Hn : holder (held_world true) 16 <> Some 2) by discriminate.
  assert (Hc : checks_errors (held_world true) 16 = true) by reflexivity.
  split; [exact H2|]. split; [exact Hinv|]. split; [exact Hn|].
  split; [exact Hc|].
  destruct (owner_set_iff_held true sample_env 2 16 (held_world true) H2 Hinv)
    as (Hkeeps & _ & _ & _ & _ & Hbad).
  split; [apply (Hkeeps OpUnlock I)|].
  destruct (Hbad 32 100 None Hn Hc) as (w' & Hrun & Ho & Hh & Hno).
  exists w'. split; [exact Hrun|]. split; [exact Ho|].
  split; [exact Hh | exact Hno].
Defined.

(** ** Any number of threads *)

Lemma type_of_same (w w' : World) (mu : addr) :
  mu_ (mutexes w' mu) = mu_ (mutexes w mu) ->
  checks_errors w' mu = checks_errors w mu
  /\ holder w' mu = holder w mu.
Proof. intros H. unfold checks_errors, holder. now rewrite H. Qed.

(* a blocked thread that is scheduled again *)
Lemma left_of_run (D : bool) (env : Env) (self : pthread_t) (mu : addr)
    (rest : prog bool) (w : World) :
  left_of D mu rest ->
  self <> 0 -> checks_errors w mu = true -> owner_inv w mu ->
  holder w mu <> Some self ->
  match snd (run (posix env) self rest w) with
  | Finished _ w' =>
      checks_errors w' mu = true /\ owner_inv w' mu /\ holder w' mu = Some self
  | Blocked w' rest' => w' = w /\ rest' = rest
  | Aborted _ => True
  end.
Proof.
  intros Hrest Hself Hc Hinv Hn.
  destruct Hrest as [m t s | c m threshold | c m threshold].
  - rewrite run_then_ret. cbn [snd].
    destruct (holder w mu) as [o|] eqn:Hh.
    + assert (Hne : o <> self) by congruence.
      rewrite (Lock_after_start_busy D env self mu m t s w o Hh
                 (other_thread self o _ Hne)).
      cbn. split; reflexivity.
    + destruct (Lock_after_start_run D env self mu m t s w Hh)
        as (l & w' & Hrun & Hch & _).
      destruct Hch as (Hm & _).
      rewrite Hrun. cbn.
      split; [unfold checks_errors in *; now rewrite Hm|].
      split; [|unfold holder; now rewrite Hm].
      apply (inv_held self); [exact Hself| |]; now rewrite Hm.
  - rewrite run_then_ret. cbn [snd].
    destruct (find_waiter self (conds w c)) as [x|] eqn:Hx;
      [destruct (w_woken x) as [code|] eqn:Hw;
         [destruct (holder w mu) as [o|] eqn:Hh|]|].
    2: destruct (Z.eq_dec code 0) as [-> | Hcode].
    + unfold Wait_resumed. cbn. rewrite Hx, Hw, Hh. cbn. split; reflexivity.
    + destruct (Wait_resumed_run D env self c mu m threshold w x Hx Hw Hh)
        as (l & w3 & Hrun & _ & Hch & _).
      destruct Hch as (Hm3 & _).
      rewrite Hrun. cbn.
      split; [unfold checks_errors in *; now rewrite Hm3|].
      split; [|unfold holder; now rewrite Hm3].
      apply (inv_held self); [exact Hself| |]; now rewrite Hm3.
    + unfold Wait_resumed. cbn. rewrite Hx, Hw, Hh. cbn.
      destruct code as [|p|p]; [contradiction| |]; exact I.
    + unfold Wait_resumed. cbn. rewrite Hx, Hw. cbn. split; reflexivity.
    + unfold Wait_resumed. cbn. rewrite Hx. cbn. split; reflexivity.
  - destruct (find_waiter self (conds w c)) as [x|] eqn:Hx;
      [destruct (w_woken x) as [code|] eqn:Hw;
         [destruct (holder w mu) as [o|] eqn:Hh|]|].
    + unfold TimeWait_resumed. cbn. rewrite Hx, Hw, Hh. cbn. split; reflexivity.
    + destruct (TimeWait_resumed_run D env self c mu m threshold w x code
                  Hx Hw Hh) as (l & w3 & Hrun & Hch & _).
      destruct Hch as (Hm3 & _).
      rewrite Hrun. cbn.
      split; [unfold checks_errors in *; now rewrite Hm3|].
      split; [|unfold holder; now rewrite Hm3].
      apply (inv_held self); [exact Hself| |]; now rewrite Hm3.
    + unfold TimeWait_resumed. cbn. rewrite Hx, Hw. cbn. split; reflexivity.
    + unfold TimeWait_resumed. cbn. rewrite Hx. cbn. split; reflexivity.
Qed.

(* a thread that calls an operation: whom it can make the holder, and
   where it can block *)
Lemma op_run (D : bool) (env : Env) (self : pthread_t) (mu : addr)
    (op : operation) (w : World) :
  self <> 0 -> checks_errors w mu = true -> owner_inv w mu ->
  op_pre self w mu op ->
  match snd (run (posix env) self (op_prog D mu op) w) with
  | Finished _ w' =>
      checks_errors w' mu = true
      /\ owner_inv w' mu
      /\ forall s, holder w' mu = Some s -> s = self \/ holder w mu = Some s
  | Blocked w' rest =>
      checks_errors w' mu = true
      /\ owner_inv w' mu
      /\ (forall s, holder w' mu = Some s -> s <> self /\ holder w mu = Some s)
      /\ left_of D mu rest
  | Aborted _ => True
  end.
Proof.
  intros Hself Hc Hinv Hpre.
  destruct (op_keeps_owner D env self mu op w Hself Hinv Hpre)
    as (_ & Hset & _).
  revert Hset.
  destruct op as [m t | | | c m | c timeout m | c | c]; cbn [op_prog op_pre] in *.
  - rewrite run_then_ret. cbn [snd].
    destruct (holder w mu) as [o|] eqn:Hh.
    + rewrite Lock_run.
      destruct (Z.eq_dec o self) as [-> | Hne].
      * destruct (D && is_some m); cbn [snd];
          rewrite Lock_after_start_deadlock; cbn; auto.
      * assert (Hbusy : forall s v,
                  mutexes v mu = mutexes w mu ->
                  run (posix env) self (Lock_after_start D mu m t s) v
                    = ([], Blocked v (Lock_after_start D mu m t s))).
        { intros s v Hv.
          apply (Lock_after_start_busy D env self mu m t s v o);
            [unfold holder in *; now rewrite Hv | now apply other_thread]. }
        destruct (D && is_some m); cbn [snd];
          rewrite Hbusy by reflexivity;
          cbn [map_outcome settled]; intros Hset;
          (split; [exact Hc|]); (split; [exact Hset|]);
          (split; [|constructor]);
          intros s Hs; change (holder w mu = Some s) in Hs;
          split; congruence.
    + destruct (Lock_free_run D env self mu m t w Hh)
        as (l & w1 & Hrun & Hm & _).
      rewrite Hrun. cbn. intros Hset.
      split; [unfold checks_errors in *; now rewrite Hm|].
      split; [exact Hset|].
      intros s. unfold holder. rewrite Hm. cbn. intros [= <-]. now left.
  - rewrite run_then_ret. cbn [snd].
    destruct (Unlock_held_run D env self mu w Hpre)
      as (l & w1 & Hrun & Hm & _).
    rewrite Hrun. cbn. intros Hset.
    split; [unfold checks_errors in *; now rewrite Hm|].
    split; [exact Hset|].
    intros s. unfold holder. rewrite Hm. cbn. discriminate.
  - rewrite run_then_ret. cbn -[holder owner_inv checks_errors].
    unfold pthread_equal.
    destruct (owner_ (mutexes w mu) =? self);
      cbn -[holder owner_inv checks_errors]; auto.
  - rewrite run_then_ret. cbn [snd].
    destruct (Wait_run D env self c mu m w) as (l & w1 & Hch & _ & _ & Hrun).
    destruct Hch as (Hm1 & _).
    rewrite Hrun, (holds_of_holder self w mu Hpre). cbn [negb andb snd].
    cbn [map_outcome settled]. intros Hset.
    split; [unfold checks_errors in *; cbn; now rewrite upd_same, Hm1|].
    split; [exact Hset|].
    split; [|constructor].
    intros s. unfold holder. cbn. rewrite upd_same. cbn. discriminate.
  - destruct (TimeWait_run D env self c mu timeout m w)
      as (l & w1 & Hch & _ & _ & Hrun).
    destruct Hch as (Hm1 & _).
    rewrite Hrun, (holds_of_holder self w mu Hpre). cbn [negb andb].
    rewrite orb_false_r.
    destruct (timespec_valid _); cbn [negb snd settled].
    + intros Hset.
      split; [unfold checks_errors in *; cbn; now rewrite upd_same, Hm1|].
      split; [exact Hset|].
      split; [|constructor].
      intros s. unfold holder. cbn. rewrite upd_same. cbn. discriminate.
    + destruct (AfterLock_run D env self mu m
                  (msg_threshold_ (mutexes w mu)) w1)
        as (l3 & w3 & Hal & Hch3 & _).
      destruct Hch3 as (Hm3 & _).
      rewrite run_then_ret, Hal. cbn. intros Hset.
      split; [unfold checks_errors in *; now rewrite Hm3, Hm1|].
      split; [exact Hset|].
      intros s. unfold holder. rewrite Hm3, Hm1. cbn. now right.
  - cbn -[holder owner_inv checks_errors]. intros Hset.
    split; [exact Hc|]. split; [exact Hset|]. intros s Hs. now right.
  - cbn -[holder owner_inv checks_errors]. intros Hset.
    split; [exact Hc|]. split; [exact Hset|]. intros s Hs. now right.
Qed.

Lemma left_to_do_in (self : pthread_t) (l : list (pthread_t * prog bool))
    (rest : prog bool) :
  left_to_do self l = Some rest -> In (self, rest) l.
Proof.
  induction l as [|[s r] l IH]; cbn; [discriminate|].
  destruct (s =? self) eqn:E.
  - apply Z.eqb_eq in E. intros [= <-]. left. now rewrite E.
  - intros H. right. now apply IH.
Qed.

Lemma left_to_do_none (self : pthread_t) (l : list (pthread_t * prog bool)) :
  left_to_do self l = None -> ~ In self (map fst l).
Proof.
  induction l as [|[s r] l IH]; cbn; [tauto|].
  destruct (s =? self) eqn:E; [discriminate|].
  apply Z.eqb_neq in E. intros H [Hs | Hin]; [contradiction|]. now apply IH.
Qed.

Lemma unblock_incl (self : pthread_t) (l : list (pthread_t * prog bool))
    (x : pthread_t * prog bool) :
  In x (unblock self l) -> In x l.
Proof.
  induction l as [|y l IH]; cbn; [tauto|].
  destruct (fst y =? self); cbn; tauto.
Qed.

Lemma unblock_other (self : pthread_t) (l : list (pthread_t * prog bool)) :
  NoDup (map fst l) ->
  In self (map fst l) ->
  NoDup (map fst (unblock self l))
  /\ ~ In self (map fst (unblock self l)).
Proof.
  induction l as [|y l IH]; cbn; [tauto|].
  intros Hnd Hin. apply NoDup_cons_iff in Hnd. destruct Hnd as [Hy Hnd].
  destruct (fst y =? self) eqn:E.
  - apply Z.eqb_eq in E. rewrite <- E. tauto.
  - apply Z.eqb_neq in E. destruct Hin as [Hin | Hin]; [contradiction|].
    destruct (IH Hnd Hin) as [IH1 IH2]. cbn. split.
    + constructor; [|exact IH1].
      intros Hy'. apply Hy. apply in_map_iff in Hy'.
      destruct Hy' as (x & Hx & Hx'). apply in_map_iff. exists x.
      split; [exact Hx|]. now apply (unblock_incl self).
    + tauto.
Qed.

Lemma op_allowed_pre (self : pthread_t) (w : World) (this : addr)
    (op : operation) :
  op_allowed self w this op = true -> op_pre self w this op.
Proof.
  assert (H : holds self w this = true -> holder w this = Some self).
  { unfold holds. destruct (holder w this) as [t|]; [|discriminate].
    intros E. apply Z.eqb_eq in E. now rewrite E. }
  destruct op; cbn; auto.
Qed.

Lemma process_ok_constructed (D : bool) (env : Env) (self : pthread_t)
    (mu : addr) (w w' : World) :
  snd (run (posix env) self (Mutex_ctor mu) w) = Finished tt w' ->
  process_ok D mu (mkProcess w' []).
Proof.
  destruct (Mutex_ctor_run env self mu w) as (l & w1 & Hrun & Hch).
  destruct Hch as (Hm & _).
  rewrite Hrun. cbn. intros [= <-]. unfold process_ok. cbn [p_world p_blocked].
  split; [unfold checks_errors; now rewrite Hm|].
  split; [unfold owner_inv, holder; now rewrite Hm|].
  split; [constructor|]. intros s rest [].
Qed.

(* a move that leaves the mutexes alone *)
Lemma process_ok_same (D : bool) (mu : addr) (w w' : World)
    (l : list (pthread_t * prog bool)) :
  mutexes w' = mutexes w ->
  process_ok D mu (mkProcess w l) -> process_ok D mu (mkProcess w' l).
Proof.
  unfold process_ok, checks_errors, owner_inv, holder. cbn [p_world p_blocked].
  now intros ->.
Qed.

Lemma process_ok_play (D : bool) (env : Env) (mu : addr) (e : event)
    (p p' : process) :
  process_ok D mu p -> play D env mu e p = Some p' -> process_ok D mu p'.
Proof.
  intros Hok Hgo. destruct p as [w pool].
  pose proof Hok as (Hc & Hinv & Hnd & Hpool). cbn [p_world p_blocked] in *.
  destruct e as [self op | self | self c | c t | c t];
    cbn [play p_world p_blocked] in Hgo.
  - destruct (self =? 0) eqn:Hself; [discriminate|]. apply Z.eqb_neq in Hself.
    destruct (left_to_do self pool) eqn:Hfree; [discriminate|].
    apply left_to_do_none in Hfree.
    destruct (op_allowed self w mu op) eqn:Hpre; [|discriminate].
    apply op_allowed_pre in Hpre. cbn [negb andb is_some] in Hgo.
    pose proof (op_run D env self mu op w Hself Hc Hinv Hpre) as Hop.
    destruct (snd (run (posix env) self (op_prog D mu op) w))
      as [b w' | w' | w' rest]; cbn in Hgo; [| discriminate |];
      injection Hgo as <-; unfold process_ok; cbn [p_world p_blocked].
    + destruct Hop as (Hc' & Hinv' & Hh).
      split; [exact Hc'|]. split; [exact Hinv'|]. split; [exact Hnd|].
      intros s r Hs. destruct (Hpool s r Hs) as (Hs0 & Hsn & Hsl).
      split; [exact Hs0|]. split; [|exact Hsl].
      intros Hs'. destruct (Hh s Hs') as [-> | Hw]; [|contradiction].
      apply Hfree. apply in_map_iff. now exists (self, r).
    + destruct Hop as (Hc' & Hinv' & Hh & Hl).
      split; [exact Hc'|]. split; [exact Hinv'|].
      split; [cbn; constructor; assumption|].
      intros s r [[= <- <-] | Hs].
      * split; [exact Hself|]. split; [|exact Hl].
        intros Hs'. now destruct (Hh self Hs').
      * destruct (Hpool s r Hs) as (Hs0 & Hsn & Hsl).
        split; [exact Hs0|]. split; [|exact Hsl].
        intros Hs'. now destruct (Hh s Hs').
  - destruct (left_to_do self pool) as [rest|] eqn:Hin;
      [|discriminate].
    apply left_to_do_in in Hin.
    destruct (Hpool self rest Hin) as (Hself & Hn & Hl).
    pose proof (left_of_run D env self mu rest w Hl Hself Hc Hinv Hn)
      as Hres.
    assert (Hin' : In self (map fst pool)).
    { apply in_map_iff. now exists (self, rest). }
    destruct (unblock_other self pool Hnd Hin') as [Hnd' Hout].
    destruct (snd (run (posix env) self rest w))
      as [b w' | w' | w' rest']; cbn in Hgo; [| discriminate |];
      injection Hgo as <-; unfold process_ok; cbn [p_world p_blocked].
    + destruct Hres as (Hc' & Hinv' & Hh).
      split; [exact Hc'|]. split; [exact Hinv'|]. split; [exact Hnd'|].
      intros s r Hs. pose proof (unblock_incl self _ _ Hs) as Hs1.
      destruct (Hpool s r Hs1) as (Hs0 & Hsn & Hsl).
      split; [exact Hs0|]. split; [|exact Hsl].
      rewrite Hh. intros [= ->]. apply Hout. apply in_map_iff.
      now exists (s, r).
    + destruct Hres as [-> ->].
      split; [exact Hc|]. split; [exact Hinv|].
      split; [cbn; constructor; assumption|].
      intros s r [[= <- <-] | Hs].
      * split; [exact Hself|]. split; [exact Hn|exact Hl].
      * apply Hpool. now apply (unblock_incl self).
  - cbn in Hgo. injection Hgo as <-.
    now apply (process_ok_same D mu w).
  - injection Hgo as <-.
    apply (process_ok_same D mu w); [|easy].
    unfold expire. destruct (find_waiter _ _) as [x|]; [|reflexivity].
    destruct (w_timed x); reflexivity.
  - injection Hgo as <-. now apply (process_ok_same D mu w).
Qed.

Lemma reachable_plays (D : bool) (env : Env) (mu : addr) (l : list event)
    (p p' : process) :
  reachable D env mu p -> plays D env mu l p = Some p' ->
  reachable D env mu p'.
Proof.
  revert p. induction l as [|e l IH]; intros p Hr; cbn.
  - now intros [= <-].
  - destruct (play D env mu e p) as [p1|] eqn:He; [|discriminate].
    apply IH. now apply (moved D env mu p p1 e).
Qed.

(** X17: in every process that can arise once the Mutex is constructed,
    with any number of threads calling its operations and those of
    condition variables bound to it, the owner field is set if and only if
    the lock is held, and it names the holder; a thread that is blocked in
    Lock or in a wait does not hold the lock. *)
Theorem owner_right_in_every_process (D : bool) (env : Env) (mu : addr)
    (p : process) :
  reachable D env mu p ->
  owner_inv (p_world p) mu
  /\ forall self rest,
       In (self, rest) (p_blocked p) -> holder (p_world p) mu <> Some self.
Proof.
  intros Hr.
  assert (Hok : process_ok D mu p).
  { induction Hr as [w w' self Hrun | p p' e _ IH Hmove].
    - now apply (process_ok_constructed D env self mu w w').
    - now apply (process_ok_play D env mu e p p'). }
  destruct Hok as (_ & Hinv & _ & Hpool).
  split; [exact Hinv|]. intros self rest Hin. now apply (Hpool self rest).
Qed.

(** ** Two threads *)

Example signalled_waiter_returns_true :
  exists w,
    sample_signalled = Finished true w
    /\ holder w 16 = Some 1
    /\ owner_ (mutexes w 16) = 1
    /\ conds w 32 = [].
Proof. eexists. vm_compute. repeat split. Qed.

Example expired_waiter_returns_false :
  exists w,
    sample_expired = Finished false w
    /\ holder w 16 = Some 1
    /\ owner_ (mutexes w 16) = 1
    /\ msg_ (mutexes w 16) = Some "waiter".
Proof. eexists. vm_compute. repeat split. Qed.

Example spurious_wakeup_returns_true :
  exists w, sample_spurious = Finished true w /\ holder w 16 = Some 1.
Proof. eexists. vm_compute. repeat split. Qed.

Example destroying_a_held_mutex_aborts :
  exists w,
    snd (run (posix sample_env) 1 (Mutex_dtor 16) (held_world false)) = Aborted w
    /\ err w = [mkErr "destroy mutex" EBUSY].
Proof. eexists. vm_compute. repeat split. Qed.

Example waiter_needs_the_lock_back :
  exists w rest,
    sample_contended = Blocked w rest
    /\ holder w 16 = Some 2
    /\ owner_ (mutexes w 16) = 2.
Proof. eexists _, _. vm_compute. repeat split. Qed.

Example two_threads_take_turns :
  exists p,
    plays true sample_env 16 sample_turns (mkProcess constructed_world [])
      = Some p
    /\ reachable true sample_env 16 p
    /\ p_blocked p = []
    /\ holder (p_world p) 16 = Some 2
    /\ owner_ (mutexes (p_world p) 16) = 2.
Proof.
  assert (H0 : reachable true sample_env 16 (mkProcess constructed_world [])).
  { apply (constructed true sample_env 16 raw_memory constructed_world 1).
    reflexivity. }
  destruct (plays true sample_env 16 sample_turns
              (mkProcess constructed_world [])) as [p|] eqn:E;
    [|vm_compute in E; discriminate].
  exists p. split; [reflexivity|].
  split; [exact (reachable_plays _ _ _ _ _ _ H0 E)|].
  vm_compute in E. injection E as <-. repeat split.
Qed.

Example waiter_is_handed_the_lock :
  exists p1 p2,
    plays true sample_env 16 (firstn 6 sample_handover)
      (mkProcess constructed_world []) = Some p1
    /\ holder (p_world p1) 16 = Some 2
    /\ List.length (p_blocked p1) = 1%nat
    /\ plays true sample_env 16 sample_handover
         (mkProcess constructed_world []) = Some p2
    /\ reachable true sample_env 16 p2
    /\ p_blocked p2 = []
    /\ holder (p_world p2) 16 = Some 1
    /\ owner_ (mutexes (p_world p2) 16) = 1.
Proof.
  assert (H0 : reachable true sample_env 16 (mkProcess constructed_world [])).
  { apply (constructed true sample_env 16 raw_memory constructed_world 1).
    reflexivity. }
  destruct (plays true sample_env 16 (firstn 6 sample_handover)
              (mkProcess constructed_world [])) as [p1|] eqn:E1;
    [|vm_compute in E1; discriminate].
  destruct (plays true sample_env 16 sample_handover
              (mkProcess constructed_world [])) as [p2|] eqn:E2;
    [|vm_compute in E2; discriminate].
  exists p1, p2. split; [reflexivity|].
  pose proof (reachable_plays _ _ _ _ _ _ H0 E2) as Hr.
  vm_compute in E1. injection E1 as <-.
  vm_compute in E2. injection E2 as <-.
  repeat split. exact Hr.
Qed.
(** * Further properties of the three classes *)

(** ** Relations kept by every action *)

Lemma all_actions_bind A B (P : forall X, action X -> Prop) (p : prog A)
    (f : A -> prog B) :
  all_actions P p -> (forall a, all_actions P (f a)) ->
  all_actions P (bind p f).
Proof.
  intros Hp Hf. induction Hp as [a | X e k He _ IH]; cbn.
  - apply Hf.
  - constructor; [exact He|exact IH].
Qed.

Lemma all_actions_impl A (P Q : forall X, action X -> Prop) (p : prog A) :
  (forall X e, P X e -> Q X e) -> all_actions P p -> all_actions Q p.
Proof.
  intros HPQ Hp. induction Hp; constructor; auto.
Qed.

(* a relation kept by every action is kept by the run, and by what is left
   of it *)
Lemma run_all_actions (sys : os_model) (self : pthread_t)
    (P : forall X, action X -> Prop) (R : World -> World -> Prop) :
  (forall w, R w w) ->
  (forall a b c, R a b -> R b c -> R a c) ->
  (forall X (e : action X) w,
     P X e ->
     match handle sys self e w with
     | Returns _ w' => R w w'
     | Blocks => True
     | Becomes w' c => R w w' /\ P X (Os c)
     | Terminates w' => R w w'
     end) ->
  forall A (p : prog A) w,
    all_actions P p ->
    Forall (fun e => R w (entry_world e)) (fst (run sys self p w))
    /\ R w (outcome_world (snd (run sys self p w)))
    /\ match snd (run sys self p w) with
       | Blocked _ rest => all_actions P rest
       | _ => True
       end.
Proof.
  intros Hrefl Htrans Hstep A p w Hp. revert w.
  induction Hp as [a | X e k He Hk IH]; intros w; cbn.
  - repeat split; [constructor | apply Hrefl].
  - specialize (Hstep X e w He).
    destruct (handle sys self e w) as [x w' | | w' c | w']; cbn.
    + destruct (IH x w') as (IH1 & IH2 & IH3).
      split; [|split].
      * constructor; [exact Hstep|].
        eapply Forall_impl; [|exact IH1]. intros en Hen. cbn in Hen.
        now apply (Htrans w w').
      * now apply (Htrans w w').
      * exact IH3.
    + repeat split; [constructor | apply Hrefl |].
      constructor; assumption.
    + destruct Hstep as [Hw Hc].
      repeat split; [repeat constructor; exact Hw | exact Hw |].
      constructor; assumption.
    + repeat split; [repeat constructor; exact Hstep | exact Hstep].
Qed.

Lemma run_kept_by (sys : os_model) (self : pthread_t)
    (P : forall X, action X -> Prop) (R : World -> World -> Prop) :
  (forall w, R w w) ->
  (forall a b c, R a b -> R b c -> R a c) ->
  (forall X (e : action X) w,
     P X e ->
     match handle sys self e w with
     | Returns _ w' => R w w'
     | Blocks => True
     | Becomes w' c => R w w' /\ P X (Os c)
     | Terminates w' => R w w'
     end) ->
  forall A (p : prog A) w,
    all_actions P p -> kept_by R sys self w (run sys self p w).
Proof.
  intros Hrefl Htrans Hstep A p w Hp.
  destruct (run_all_actions sys self P R Hrefl Htrans Hstep A p w Hp)
    as (H1 & H2 & H3).
  split; [exact H1|]. split; [exact H2|].
  destruct (snd (run sys self p w)) as [a w' | w' | w' rest]; [exact I..|].
  intros w2.
  destruct (run_all_actions sys self P R Hrefl Htrans Hstep A rest w2 H3)
    as (H4 & H5 & _).
  split; assumption.
Qed.

(* a method, unfolded: one action after the other, a case for every test *)
Ltac all_actions_tac :=
  repeat (cbn;
    first
      [ apply all_Ret
      | apply all_Vis; [cbn; auto | intro]
      | match goal with
        | x : Empty_set |- _ => destruct x
        | |- context [if ?b then _ else _] => destruct b
        end ]).

(* the answer of the operating system, case by case *)
Ltac case_innermost :=
  match goal with
  | |- context [match ?scrutinee with _ => _ end] =>
      tryif (match scrutinee with
             | context [match _ with _ => _ end] => idtac
             end)
      then fail
      else destruct scrutinee
  end.

Lemma posix_sleeping (env : Env) (self : pthread_t) X (e : action X)
    (w : World) :
  never_sleeps X e ->
  match handle (posix env) self e w with
  | Returns _ w' => sleeping w' = sleeping w
  | Blocks => True
  | Becomes w' c' => sleeping w' = sleeping w /\ never_sleeps X (Os c')
  | Terminates w' => sleeping w' = sleeping w
  end.
Proof.
  intros He.
  destruct e as [X call | T this f | T this f v | l | l | |];
    [destruct call|..]; cbn in He; try contradiction;
    unfold handle, posix; repeat case_innermost;
    solve [exact I | reflexivity].
Qed.

(* a program that puts no thread to sleep leaves the sleepers as they were *)
Lemma run_sleeping (env : Env) (self : pthread_t) A (p : prog A) (w : World) :
  all_actions never_sleeps p ->
  sleeping (outcome_world (snd (run (posix env) self p w))) = sleeping w.
Proof.
  intros Hp.
  destruct (run_all_actions (posix env) self never_sleeps
              (fun a b => sleeping b = sleeping a)) with (p := p) (w := w)
    as (_ & H & _); try assumption.
  - reflexivity.
  - intros a b c Hab Hbc. congruence.
  - intros X e v. apply posix_sleeping.
Qed.

Lemma Lock_never_sleeps (D : bool) (this : addr) (m : option string)
    (t : int64_t) :
  all_actions never_sleeps (Lock D this m t).
Proof.
  unfold Lock, AfterLock, PthreadCall, os, load, store, printf,
    fprintf_stderr, pthread_self, abort, act.
  all_actions_tac.
Qed.

Lemma Unlock_never_sleeps (D : bool) (this : addr) :
  all_actions never_sleeps (Unlock D this).
Proof.
  unfold Unlock, BeforeUnlock, PthreadCall, os, load, store, printf,
    fprintf_stderr, pthread_self, abort, act.
  all_actions_tac.
Qed.

(** ** Construction and destruction of a Mutex *)

(** X1: whatever the memory holds, the constructor returns and leaves at
    [this] an error-checking mutex that nobody holds, with owner_ zero, no
    label, threshold and lock time zero.  It prints nothing, reads no
    clock and touches no other Mutex and no condition variable; the owner
    field is right from the start. *)
Theorem Mutex_ctor_initialises (env : Env) (self : pthread_t) (this : addr)
    (w : World) :
  exists l w',
    run (posix env) self (Mutex_ctor this) w = (l, Finished tt w')
    /\ mutexes w' this
       = mkMutex (mkPm PTHREAD_MUTEX_ERRORCHECK None) 0 None 0 0
    /\ (forall q, q <> this -> mutexes w' q = mutexes w q)
    /\ (forall c, conds w' c = conds w c)
    /\ ticks w' = ticks w
    /\ out w' = out w
    /\ err w' = err w
    /\ owner_inv w' this
    /\ Forall (fun e => owner_ (mutexes (entry_world e) this) = 0) l.
Proof.
  eexists _, _. split; [reflexivity|].
  sym. repeat split; try reflexivity.
  - intros q Hq. now rewrite !upd_other.
  - repeat constructor; sym; reflexivity.
Qed.

(** X2: the constructor of Mutex checks each of its four pthread calls,
    under any operating system.  The member initialisers have run by
    then: whichever call fails first, the process is aborted after the
    line naming that call ("init mutexattr", "set mutexattr",
    "init mutex", "destroy mutexattr"), and the attribute passed to
    pthread_mutex_init is the one pthread_mutexattr_settype was asked to
    make error-checking. *)
Theorem Mutex_ctor_aborts_on_os_error (sys : os_model) (self : pthread_t)
    (this : addr) (w : World) (r : int) (a1 a2 : pthread_mutexattr_t)
    (w1 w2 w3 w4 : World) :
  r <> 0 ->
  let w0 := outcome_world
              (snd (run sys self (Mutex_ctor_initialisers this) w)) in
  let dies := fun label v =>
    snd (run sys self (Mutex_ctor this) w)
      = Aborted (put_err v (mkErr label r)) in
  owner_ (mutexes w0 this) = 0
  /\ (sys _ self pthread_mutexattr_init w0 = Returns (r, a1) w1 ->
      dies "init mutexattr" w1)
  /\ (sys _ self pthread_mutexattr_init w0 = Returns (0, a1) w1 ->
      sys _ self (pthread_mutexattr_settype a1 PTHREAD_MUTEX_ERRORCHECK) w1
        = Returns (r, a2) w2 ->
      dies "set mutexattr" w2)
  /\ (sys _ self pthread_mutexattr_init w0 = Returns (0, a1) w1 ->
      sys _ self (pthread_mutexattr_settype a1 PTHREAD_MUTEX_ERRORCHECK) w1
        = Returns (0, a2) w2 ->
      sys _ self (pthread_mutex_init this a2) w2 = Returns r w3 ->
      dies "init mutex" w3)
  /\ (sys _ self pthread_mutexattr_init w0 = Returns (0, a1) w1 ->
      sys _ self (pthread_mutexattr_settype a1 PTHREAD_MUTEX_ERRORCHECK) w1
        = Returns (0, a2) w2 ->
      sys _ self (pthread_mutex_init this a2) w2 = Returns 0 w3 ->
      sys _ self (pthread_mutexattr_destroy a2) w3 = Returns r w4 ->
      dies "destroy mutexattr" w4).
Proof.
  intros Hr w0 dies. subst w0 dies.
  split; [sym; reflexivity|]. cbn.
  repeat split; intros;
    repeat match goal with H : sys _ _ _ _ = _ |- _ => rewrite H; clear H; cbn end;
    destruct r as [|p|p]; try contradiction; reflexivity.
Qed.

Lemma Mutex_ctor_aborts_on_os_error_witness :
  ENOMEM <> 0
  /\ snd (run (mutex_init_returning ENOMEM (posix sample_env)) 1
            (Mutex_ctor 16) raw_memory)
     = Aborted
         (put_err
            (outcome_world
               (snd (run (mutex_init_returning ENOMEM (posix sample_env)) 1
                       (Mutex_ctor_initialisers 16) raw_memory)))
            (mkErr "init mutex" ENOMEM)).
Proof.
  assert (H : ENOMEM <> 0) by discriminate.
  split; [exact H|].
  set (sys := mutex_init_returning ENOMEM (posix sample_env)).
  set (w0 := outcome_world (snd (run sys 1 (Mutex_ctor_initialisers 16)
                                   raw_memory))).
  destruct (Mutex_ctor_aborts_on_os_error sys 1 16 raw_memory ENOMEM
              PTHREAD_MUTEX_NORMAL PTHREAD_MUTEX_ERRORCHECK w0 w0 w0 w0 H)
    as (_ & _ & _ & Hinit & _).
  apply Hinit; reflexivity.
Defined.

(** X3: the destructor of Mutex aborts the process with EBUSY, after the
    line naming "destroy mutex", while the mutex is in use: once a Lock
    has returned, whichever thread destroys, and also while a thread is
    asleep in Wait on it, although nobody holds the mutex then.  On a
    Mutex that was just constructed, and after the Unlock of its holder
    when no thread is asleep on it, the destructor returns and leaves the
    world as it was. *)
Theorem Mutex_dtor_aborts_while_in_use (D : bool) (env : Env)
    (self other : pthread_t) (this c : addr) (m : option string)
    (t : int64_t) (w : World) :
  (exists w1,
     snd (run (posix env) self (Mutex_ctor this) w) = Finished tt w1
     /\ snd (run (posix env) other (Mutex_dtor this) w1) = Finished tt w1)
  /\ (forall w1,
        snd (run (posix env) self (Lock D this m t) w) = Finished tt w1 ->
        run (posix env) other (Mutex_dtor this) w1
          = ([Did (Os (pthread_mutex_destroy this)) EBUSY w1;
              Did (FprintfStderr (mkErr "destroy mutex" EBUSY)) tt
                  (put_err w1 (mkErr "destroy mutex" EBUSY));
              Died (put_err w1 (mkErr "destroy mutex" EBUSY))],
             Aborted (put_err w1 (mkErr "destroy mutex" EBUSY))))
  /\ (holder w this = Some self ->
      exists w1 rest,
        snd (run (posix env) self (Wait D (mkCondVar this c) m) w)
          = Blocked w1 rest
        /\ holder w1 this = None
        /\ snd (run (posix env) other (Mutex_dtor this) w1)
           = Aborted (put_err w1 (mkErr "destroy mutex" EBUSY)))
  /\ (forall w1,
        holder w this = Some self ->
        sleeping w this = 0%nat ->
        snd (run (posix env) self (Unlock D this) w) = Finished tt w1 ->
        run (posix env) other (Mutex_dtor this) w1
          = ([Did (Os (pthread_mutex_destroy this)) 0 w1], Finished tt w1)).
Proof.
  assert (Hd : forall o v,
            run (posix env) o (Mutex_dtor this) v
              = match holder v this, sleeping v this with
                | None, O =>
                    ([Did (Os (pthread_mutex_destroy this)) 0 v],
                     Finished tt v)
                | _, _ =>
                    ([Did (Os (pthread_mutex_destroy this)) EBUSY v;
                      Did (FprintfStderr (mkErr "destroy mutex" EBUSY)) tt
                          (put_err v (mkErr "destroy mutex" EBUSY));
                      Died (put_err v (mkErr "destroy mutex" EBUSY))],
                     Aborted (put_err v (mkErr "destroy mutex" EBUSY)))
                end).
  { intros o v. cbn.
    destruct (holder v this); destruct (sleeping v this); reflexivity. }
  split; [|split; [|split]].
  - destruct (Mutex_ctor_run env self this w) as (l & w1 & Hrun & Hch).
    assert (Hs : sleeping w1 this = 0%nat).
    { cbn in Hrun. injection Hrun as _ <-. cbn. apply upd_same. }
    destruct Hch as (Hm & _).
    exists w1. rewrite Hrun. split; [reflexivity|].
    rewrite Hd. unfold holder. rewrite Hm, Hs. reflexivity.
  - intros w1 Hrun. rewrite Hd.
    destruct (holder w this) as [o|] eqn:Hh.
    + exfalso. revert Hrun. rewrite Lock_run.
      destruct ((o =? self) && checks_errors w this) eqn:Hb.
      * apply andb_prop in Hb. destruct Hb as [Ho Hc].
        apply Z.eqb_eq in Ho. subst o.
        destruct (D && is_some m); cbn [snd];
          rewrite Lock_after_start_deadlock; cbn; try discriminate;
          assumption.
      * destruct (D && is_some m); cbn [snd];
          rewrite (Lock_after_start_busy D env self this m t _ _ o);
          cbn; try discriminate; assumption.
    + destruct (Lock_free_run D env self this m t w Hh)
        as (l & w' & Hrun' & Hm & _).
      rewrite Hrun' in Hrun. cbn in Hrun. injection Hrun as <-.
      unfold holder. rewrite Hm. cbn. now destruct (sleeping w' this).
  - intros Hh.
    destruct (Wait_run D env self c this m w) as (l & w0 & _ & _ & _ & Hrun).
    rewrite (holds_of_holder self w this Hh) in Hrun.
    cbn [negb andb] in Hrun.
    eexists _, _. rewrite Hrun. split; [reflexivity|].
    split; [unfold holder; cbn; now rewrite upd_same|].
    rewrite Hd. unfold holder. cbn. rewrite !upd_same. reflexivity.
  - intros w1 Hh Hz Hrun. rewrite Hd.
    pose proof (run_sleeping env self unit (Unlock D this) w
                  (Unlock_never_sleeps D this)) as Hs.
    rewrite Hrun in Hs. cbn in Hs.
    destruct (Unlock_held_run D env self this w Hh)
      as (l & w' & Hrun' & Hm & _).
    rewrite Hrun' in Hrun. cbn in Hrun. injection Hrun as <-.
    unfold holder. rewrite Hm, Hs, Hz. reflexivity.
Qed.

Lemma Mutex_dtor_aborts_while_in_use_witness :
  holder (held_world true) 16 = Some 1
  /\ exists w1 rest,
       snd (run (posix sample_env) 1 (Wait true (mkCondVar 16 32) None)
              (held_world true)) = Blocked w1 rest
       /\ holder w1 16 = None
       /\ snd (run (posix sample_env) 2 (Mutex_dtor 16) w1)
          = Aborted (put_err w1 (mkErr "destroy mutex" EBUSY)).
Proof.
  assert (H : holder (held_world true) 16 = Some 1) by reflexivity.
  split; [exact H|].
  destruct (Mutex_dtor_aborts_while_in_use true sample_env 1 2 16 32 None 0
              (held_world true)) as (_ & _ & Hwait & _).
  exact (Hwait H).
Defined.

(** ** Failures of the pthread calls *)

Lemma checked_run (sys : os_model) (self : pthread_t) (call : oscall int)
    (label : string) (w : World) (r : int) (w' : World) :
  sys int self call w = Returns r w' ->
  run sys self (r <- os call ;; PthreadCall label r) w
    = checked call label r w'.
Proof.
  intros H. unfold checked, PthreadCall. cbn. rewrite H.
  destruct r as [|p|p]; reflexivity.
Qed.

(** X4: the destructor of Mutex, the constructor and the destructor of
    CondVar, Signal and Broadcast are one pthread call each, and its
    result is checked, under any operating system: when the call answers
    zero the method returns in the world the call left, and when it
    answers anything else the process is aborted after one line on stderr
    that names the operation ("destroy mutex", "init condvar",
    "destroy condvar", "signal", "broadcast") and the error.  None of them
    reads or writes a member of the Mutex. *)
Theorem single_calls_are_checked (sys : os_model) (self : pthread_t)
    (mu c : addr) (w : World) (r : int) (w' : World) :
  (sys int self (pthread_mutex_destroy mu) w = Returns r w' ->
   run sys self (Mutex_dtor mu) w
     = checked (pthread_mutex_destroy mu) "destroy mutex" r w')
  /\ (sys int self (pthread_cond_init c) w = Returns r w' ->
      run sys self (CondVar_ctor c mu) w
        = (fst (checked (pthread_cond_init c) "init condvar" r w'),
           map_outcome (fun _ => mkCondVar mu c)
             (snd (checked (pthread_cond_init c) "init condvar" r w'))))
  /\ (sys int self (pthread_cond_destroy c) w = Returns r w' ->
      run sys self (CondVar_dtor (mkCondVar mu c)) w
        = checked (pthread_cond_destroy c) "destroy condvar" r w')
  /\ (sys int self (pthread_cond_signal c) w = Returns r w' ->
      run sys self (Signal (mkCondVar mu c)) w
        = checked (pthread_cond_signal c) "signal" r w')
  /\ (sys int self (pthread_cond_broadcast c) w = Returns r w' ->
      run sys self (Broadcast (mkCondVar mu c)) w
        = checked (pthread_cond_broadcast c) "broadcast" r w').
Proof.
  repeat split; intros H; try (now apply checked_run).
  unfold checked, CondVar_ctor, PthreadCall. cbn. rewrite H.
  destruct r as [|p|p]; reflexivity.
Qed.

Lemma single_calls_are_checked_witness :
  posix sample_env int 1 (pthread_mutex_destroy 16) (held_world true)
    = Returns EBUSY (held_world true)
  /\ run (posix sample_env) 1 (Mutex_dtor 16) (held_world true)
     = checked (pthread_mutex_destroy 16) "destroy mutex" EBUSY
         (held_world true).
Proof.
  assert (H : posix sample_env int 1 (pthread_mutex_destroy 16)
                (held_world true) = Returns EBUSY (held_world true))
    by (vm_compute; reflexivity).
  split; [exact H|].
  apply (single_calls_are_checked (posix sample_env) 1 16 32 (held_world true)
           EBUSY (held_world true)). exact H.
Defined.

(** ** A Lock and the Unlock that follows *)

Lemma Lock_free_changes (D : bool) (env : Env) (self : pthread_t)
    (this : addr) (m : option string) (t : int64_t) (w : World) :
  holder w this = None ->
  let n := if D && is_some m then S (ticks w) else ticks w in
  exists w',
    snd (run (posix env) self (Lock D this m t) w) = Finished tt w'
    /\ mutexes w' this
       = acquired D self m t (get_micros_at env n) (take self (mutexes w this))
    /\ (forall q, q <> this -> mutexes w' q = mutexes w q)
    /\ conds w' = conds w
    /\ ticks w'
       = (wait_reads D env m t (get_micros_at env (ticks w)) n + n)%nat
    /\ out w' = out w ++ wait_report D env m t (get_micros_at env (ticks w)) n
    /\ err w' = err w.
Proof.
  intros Hfree n. subst n. rewrite Lock_run.
  destruct (D && is_some m) eqn:E.
  - destruct (Lock_after_start_run D env self this m t
                (get_micros_at env (ticks w)) (tick w) Hfree)
      as (l & w' & Hrun & Hch & _).
    destruct Hch as (Hm & Hfr & Hc & Ht & Ho & He).
    rewrite Hrun. exists w'. repeat split; assumption.
  - destruct (Lock_after_start_run D env self this m t 0 w Hfree)
      as (l & w' & Hrun & Hch & _).
    destruct Hch as (Hm & Hfr & Hc & Ht & Ho & He).
    rewrite Hrun. exists w'. unfold wait_reads, wait_report in *.
    rewrite E in *. repeat split; assumption.
Qed.

Lemma Unlock_held_changes (D : bool) (env : Env) (self : pthread_t)
    (this : addr) (w : World) :
  holder w this = Some self ->
  exists w',
    snd (run (posix env) self (Unlock D this) w) = Finished tt w'
    /\ changes_only w w' this (give (released D (mutexes w this)))
         (hold_reads D env (mutexes w this) (ticks w))
         (hold_report D env (mutexes w this) (ticks w)).
Proof.
  intros Hh.
  destruct (Unlock_run D env self this w) as (l & w1 & Hch & _ & Hrun).
  destruct Hch as (Hm1 & Hfr1 & Hc1 & Ht1 & Ho1 & He1).
  rewrite (holds_of_holder self w this Hh) in Hrun. cbn [orb] in Hrun.
  rewrite Hrun. cbn [snd]. eexists. split; [reflexivity|].
  unfold changes_only. cbn. rewrite upd_same, Hm1.
  repeat split; try assumption.
  intros q Hq. rewrite upd_other by exact Hq. now apply Hfr1.
Qed.

(** X5: without MUTEX_DEBUG, a Lock and the Unlock that follows, on a
    mutex that was free with its owner field zero, put the world back as
    it was: the Mutex with all five members, every other Mutex, the
    condition variables, the clock, stdout, stderr and the sleepers.  In between, the
    caller holds the lock and is the owner. *)
Theorem Lock_then_Unlock_restores (env : Env) (self : pthread_t)
    (this : addr) (m : option string) (t : int64_t) (w : World) :
  holder w this = None ->
  owner_ (mutexes w this) = 0 ->
  exists w1 w2,
    snd (run (posix env) self (Lock false this m t) w) = Finished tt w1
    /\ holder w1 this = Some self
    /\ owner_ (mutexes w1 this) = self
    /\ snd (run (posix env) self (Unlock false this) w1) = Finished tt w2
    /\ snd (run (posix env) self
              (Lock false this m t ;; Unlock false this) w) = Finished tt w2
    /\ same_world w w2.
Proof.
  intros Hfree Hz.
  destruct (Lock_free_changes false env self this m t w Hfree)
    as (w1 & Hrun1 & Hm1 & Hfr1 & Hc1 & Ht1 & Ho1 & He1).
  assert (Hh1 : holder w1 this = Some self).
  { unfold holder. now rewrite Hm1. }
  destruct (Unlock_held_changes false env self this w1 Hh1)
    as (w2 & Hrun2 & Hm2 & Hfr2 & Hc2 & Ht2 & Ho2 & He2).
  exists w1, w2. split; [exact Hrun1|]. split; [exact Hh1|].
  split; [now rewrite Hm1|]. split; [exact Hrun2|]. split.
  - rewrite run_bind, Hrun1. cbn [snd]. exact Hrun2.
  - cbn in Ht1, Ho1, Ht2, Ho2. rewrite app_nil_r in Ho1, Ho2.
    pose proof (run_sleeping env self unit (Lock false this m t) w
                  (Lock_never_sleeps false this m t)) as Hs1.
    pose proof (run_sleeping env self unit (Unlock false this) w1
                  (Unlock_never_sleeps false this)) as Hs2.
    rewrite Hrun1 in Hs1. rewrite Hrun2 in Hs2. cbn in Hs1, Hs2.
    unfold same_world.
    split; [|repeat split; try congruence; intros q; congruence].
    intros q. destruct (Z.eq_dec q this) as [-> | Hq].
    + rewrite Hm2, Hm1. unfold holder in Hfree.
      destruct (mutexes w this) as [[ty h] o ms th lt]. cbn in *.
      now subst.
    + rewrite Hfr2, Hfr1 by exact Hq. reflexivity.
Qed.

Lemma Lock_then_Unlock_restores_witness :
  exists w2,
    snd (run (posix sample_env) 1
           (Lock false 16 (Some "sample") 500 ;; Unlock false 16)
           constructed_world) = Finished tt w2
    /\ same_world constructed_world w2.
Proof.
  assert (H1 : holder constructed_world 16 = None) by reflexivity.
  assert (H2 : owner_ (mutexes constructed_world 16) = 0) by reflexivity.
  destruct (Lock_then_Unlock_restores sample_env 1 16 (Some "sample") 500
              constructed_world H1 H2)
    as (w1 & w2 & _ & _ & _ & _ & Hrun & Hsame).
  exists w2. split; [exact Hrun | exact Hsame].
Defined.

(** X6: with MUTEX_DEBUG but no label, a Lock and the Unlock that follows
    read no clock and print nothing, whatever the threshold passed and
    whatever label, threshold and lock time an earlier critical section
    left in the Mutex.  The pair leaves msg_ cleared and the threshold it
    was passed in msg_threshold_; lock_time_ keeps its old value. *)
Theorem unlabelled_Lock_is_silent (env : Env) (self : pthread_t)
    (this : addr) (t : int64_t) (w : World) :
  holder w this = None ->
  exists w1 w2,
    snd (run (posix env) self (Lock true this None t) w) = Finished tt w1
    /\ snd (run (posix env) self (Unlock true this) w1) = Finished tt w2
    /\ ticks w1 = ticks w /\ out w1 = out w
    /\ ticks w2 = ticks w /\ out w2 = out w /\ err w2 = err w
    /\ mutexes w2 this
       = mkMutex (mkPm (pm_type (mu_ (mutexes w this))) None) 0 None t
           (lock_time_ (mutexes w this)).
Proof.
  intros Hfree.
  destruct (Lock_free_changes true env self this None t w Hfree)
    as (w1 & Hrun1 & Hm1 & Hfr1 & Hc1 & Ht1 & Ho1 & He1).
  assert (Hh1 : holder w1 this = Some self).
  { unfold holder. now rewrite Hm1. }
  destruct (Unlock_held_changes true env self this w1 Hh1)
    as (w2 & Hrun2 & Hm2 & Hfr2 & Hc2 & Ht2 & Ho2 & He2).
  exists w1, w2. split; [exact Hrun1|]. split; [exact Hrun2|].
  cbn in Ht1, Ho1. rewrite app_nil_r in Ho1.
  unfold hold_reads, hold_report in *. rewrite Hm1 in *.
  cbn in Ht2, Ho2. rewrite app_nil_r in Ho2.
  repeat split; try congruence.
  rewrite Hm2. reflexivity.
Qed.

Lemma unlabelled_Lock_is_silent_witness :
  exists w2,
    snd (run (posix sample_env) 1 (Lock true 16 None 0 ;; Unlock true 16)
           constructed_world) = Finished tt w2
    /\ ticks w2 = 0%nat /\ out w2 = [].
Proof.
  assert (H1 : holder constructed_world 16 = None) by reflexivity.
  destruct (unlabelled_Lock_is_silent sample_env 1 16 0 constructed_world H1)
    as (w1 & w2 & Hrun1 & Hrun2 & _ & _ & Ht & Ho & _).
  exists w2. split; [|split; [exact Ht | exact Ho]].
  rewrite run_bind, Hrun1. cbn [snd]. exact Hrun2.
Defined.

(** ** A Lock on a mutex that is held *)

(** X7: Lock on a mutex that another thread holds does not return: it
    blocks in pthread_mutex_lock having written no member of the Mutex and
    printed nothing (with MUTEX_DEBUG and a label it has read the clock
    once).  What is left of it does nothing as long as another thread
    holds the mutex, and once the mutex is free it returns with the
    caller holding the lock and stored as the owner. *)
Theorem Lock_waits_until_free (D : bool) (env : Env)
    (self other : pthread_t) (this : addr) (m : option string) (t : int64_t)
    (w : World) :
  holder w this = Some other ->
  other <> self ->
  let v := if D && is_some m then tick w else w in
  let rest :=
    Lock_after_start D this m t
      (if D && is_some m then get_micros_at env (ticks w) else 0) in
  run (posix env) self (Lock D this m t) w
    = ((if D && is_some m
        then [Did (Os get_micros) (get_micros_at env (ticks w)) (tick w)]
        else []),
       Blocked v rest)
  /\ mutexes v = mutexes w /\ out v = out w /\ err v = err w
  /\ (forall v' o,
        holder v' this = Some o -> o <> self ->
        run (posix env) self rest v' = ([], Blocked v' rest))
  /\ (forall v',
        holder v' this = None ->
        exists w',
          snd (run (posix env) self rest v') = Finished tt w'
          /\ holder w' this = Some self
          /\ owner_ (mutexes w' this) = self).
Proof.
  intros Hh Hne v rest. subst v rest. split; [|split; [|split; [|split; [|split]]]].
  - rewrite Lock_run. destruct (D && is_some m).
    + rewrite (Lock_after_start_busy D env self this m t _ (tick w) other Hh
                 (other_thread self other _ Hne)). reflexivity.
    + rewrite (Lock_after_start_busy D env self this m t _ w other Hh
                 (other_thread self other _ Hne)). reflexivity.
  - now destruct (D && is_some m).
  - now destruct (D && is_some m).
  - now destruct (D && is_some m).
  - intros v' o Ho Hneo.
    apply (Lock_after_start_busy D env self this m t _ v' o Ho
             (other_thread self o _ Hneo)).
  - intros v' Hfree.
    destruct (Lock_after_start_run D env self this m t
                (if D && is_some m then get_micros_at env (ticks w) else 0)
                v' Hfree) as (l & w' & Hrun & Hch & _).
    destruct Hch as (Hm & _).
    exists w'. rewrite Hrun. split; [reflexivity|].
    split; [unfold holder|]; now rewrite Hm.
Qed.

Lemma Lock_waits_until_free_witness :
  holder (held_world true) 16 = Some 1
  /\ 1 <> 2
  /\ snd (run (posix sample_env) 2 (Lock true 16 (Some "second") 500)
            (held_world true))
     = Blocked (tick (held_world true))
         (Lock_after_start true 16 (Some "second") 500
            (get_micros_at sample_env (ticks (held_world true)))).
Proof.
  assert (H1 : holder (held_world true) 16 = Some 1) by reflexivity.
  assert (H2 : 1 <> 2) by lia.
  split; [exact H1|]. split; [exact H2|].
  destruct (Lock_waits_until_free true sample_env 2 1 16 (Some "second") 500
              (held_world true) H1 H2) as (Hrun & _).
  rewrite Hrun. reflexivity.
Defined.

(** ** The hold time reported by Unlock *)

(** X8: with MUTEX_DEBUG, Unlock by the holder prints at most one line.
    It prints the "locked" line exactly when a label is stored and the
    clock read it makes first exceeds lock_time_ by more than
    msg_threshold_; the line carries the stored label and a duration taken
    from a second, later clock read.  Unlock reads the clock three times
    when it prints, once when a label is stored and the line is not due,
    and never without a label.  It leaves msg_ cleared and the threshold
    and the lock time as they were.  When the clock does not run
    backwards, the duration printed is above the threshold too. *)
Theorem Unlock_reports_long_hold (env : Env) (self : pthread_t)
    (this : addr) (w : World) :
  holder w this = Some self ->
  let M := mutexes w this in
  let n := ticks w in
  let due := is_some (msg_ M) &&
             (sub64 (get_micros_at env n) (lock_time_ M) >? msg_threshold_ M) in
  exists w',
    snd (run (posix env) self (Unlock true this) w) = Finished tt w'
    /\ out w' = out w ++
         (if due
          then [mkDiag locked (now_time_str_at env (S n)) (msg_ M)
                  (sub64 (get_micros_at env (S (S n))) (lock_time_ M))]
          else [])
    /\ ticks w' = ((if due then 3 else if is_some (msg_ M) then 1 else 0)
                   + n)%nat
    /\ mutexes w' this
       = mkMutex (mkPm (pm_type (mu_ M)) None) 0 None (msg_threshold_ M)
           (lock_time_ M)
    /\ err w' = err w
    /\ ((forall k, 0 <= get_micros_at env k < 2 ^ 63) ->
        (forall k, get_micros_at env k <= get_micros_at env (S k)) ->
        0 <= lock_time_ M < 2 ^ 63 ->
        forall line, In line (skipn (List.length (out w)) (out w')) ->
          d_micros line > msg_threshold_ M).
Proof.
  intros Hh M n due.
  destruct (Unlock_held_changes true env self this w Hh)
    as (w' & Hrun & Hm & _ & _ & Ht & Ho & He).
  exists w'. split; [exact Hrun|].
  unfold hold_report, hold_reads in *. fold M in Hm, Ht, Ho. fold n in Ht, Ho.
  cbn [andb] in Ht, Ho.
  assert (Hout : out w' = out w ++
            (if due
             then [mkDiag locked (now_time_str_at env (S n)) (msg_ M)
                     (sub64 (get_micros_at env (S (S n))) (lock_time_ M))]
             else [])) by exact Ho.
  split; [exact Hout|]. split.
  - rewrite Ht. unfold due.
    destruct (is_some (msg_ M)); cbn [andb]; [|reflexivity].
    destruct (sub64 _ _ >? _); reflexivity.
  - split; [rewrite Hm; reflexivity|]. split; [exact He|].
    intros Hrange Hmono Hlt line.
    rewrite Hout, skipn_app, skipn_all, Nat.sub_diag. cbn [app skipn].
    destruct due eqn:Hdue; [|intros []].
    intros [<- | []]. cbn [d_micros].
    apply andb_prop in Hdue. destruct Hdue as [_ Hcmp].
    apply Z.gtb_lt in Hcmp.
    rewrite sub64_exact in Hcmp by (apply Hrange || exact Hlt).
    rewrite sub64_exact by (apply Hrange || exact Hlt).
    pose proof (Hmono n). pose proof (Hmono (S n)). lia.
Qed.

Lemma Unlock_reports_long_hold_witness :
  holder (held_world true) 16 = Some 1
  /\ exists w',
       snd (run (posix sample_env) 1 (Unlock true 16) (held_world true))
         = Finished tt w'
       /\ List.length (out w') = 2%nat
       /\ msg_ (mutexes w' 16) = None
       /\ forall line,
            In line (skipn (List.length (out (held_world true))) (out w')) ->
            d_micros line > 500.
Proof.
  assert (H1 : holder (held_world true) 16 = Some 1) by reflexivity.
  split; [exact H1|].
  destruct (Unlock_reports_long_hold sample_env 1 16 (held_world true) H1)
    as (w' & Hrun & Ho & _ & Hm & _ & Hlong).
  exists w'. split; [exact Hrun|]. split; [|split].
  - rewrite Ho. vm_compute. reflexivity.
  - rewrite Hm. reflexivity.
  - apply Hlong.
    + intros k. unfold get_micros_at, sample_env. pows. lia.
    + intros k. unfold get_micros_at, sample_env. lia.
    + vm_compute. split; [discriminate | reflexivity].
Defined.

(** ** AssertHeld between Lock and Unlock *)

Lemma AssertHeld_run (sys : os_model) (self : pthread_t) (this : addr)
    (w : World) :
  snd (run sys self (AssertHeld this) w)
    = if owner_ (mutexes w this) =? self then Finished tt w else Aborted w.
Proof.
  cbn. unfold pthread_equal.
  destruct (owner_ (mutexes w this) =? self); reflexivity.
Qed.

(** X9: on a free mutex, once Lock has returned AssertHeld returns for
    the thread that locked and aborts the process for any other thread;
    once that thread has unlocked, or while it sleeps in Wait, AssertHeld
    aborts for every thread, the one that held the lock included. *)
Theorem AssertHeld_passes_between_Lock_and_Unlock (D : bool) (env : Env)
    (self : pthread_t) (this c : addr) (m m' : option string) (t : int64_t)
    (w : World) :
  self <> 0 ->
  holder w this = None ->
  exists w1 w2 w3 rest,
    snd (run (posix env) self (Lock D this m t) w) = Finished tt w1
    /\ snd (run (posix env) self (AssertHeld this) w1) = Finished tt w1
    /\ (forall other, other <> self ->
          snd (run (posix env) other (AssertHeld this) w1) = Aborted w1)
    /\ snd (run (posix env) self (Unlock D this) w1) = Finished tt w2
    /\ (forall any, any <> 0 ->
          snd (run (posix env) any (AssertHeld this) w2) = Aborted w2)
    /\ snd (run (posix env) self (Wait D (mkCondVar this c) m') w1)
         = Blocked w3 rest
    /\ (forall any, any <> 0 ->
          snd (run (posix env) any (AssertHeld this) w3) = Aborted w3).
Proof.
  intros Hself Hfree.
  destruct (Lock_free_changes D env self this m t w Hfree)
    as (w1 & Hrun1 & Hm1 & _).
  assert (Hh1 : holder w1 this = Some self).
  { unfold holder. now rewrite Hm1. }
  assert (Ho1 : owner_ (mutexes w1 this) = self) by now rewrite Hm1.
  destruct (Unlock_held_changes D env self this w1 Hh1)
    as (w2 & Hrun2 & Hm2 & _).
  destruct (Wait_run D env self c this m' w1)
    as (l & w0 & Hch & _ & _ & Hrun3).
  destruct Hch as (Hm0 & _).
  rewrite (holds_of_holder self w1 this Hh1) in Hrun3.
  cbn [negb andb] in Hrun3.
  eexists w1, w2, _, _.
  split; [exact Hrun1|].
  split; [rewrite AssertHeld_run, Ho1, Z.eqb_refl; reflexivity|].
  split.
  { intros other Hne. rewrite AssertHeld_run, Ho1.
    destruct (self =? other) eqn:E; [|reflexivity].
    apply Z.eqb_eq in E. now contradiction Hne. }
  split; [exact Hrun2|].
  split.
  { intros any Hany. rewrite AssertHeld_run, Hm2. cbn.
    destruct any; [contradiction|reflexivity..]. }
  split; [rewrite Hrun3; reflexivity|].
  intros any Hany. rewrite AssertHeld_run. cbn. rewrite upd_same, Hm0. cbn.
  destruct any; [contradiction|reflexivity..].
Qed.

Lemma AssertHeld_passes_between_Lock_and_Unlock_witness :
  1 <> 0
  /\ holder constructed_world 16 = None
  /\ exists w1,
       snd (run (posix sample_env) 1 (Lock true 16 None 0) constructed_world)
         = Finished tt w1
       /\ snd (run (posix sample_env) 1 (AssertHeld 16) w1) = Finished tt w1.
Proof.
  assert (H1 : 1 <> 0) by lia.
  assert (H2 : holder constructed_world 16 = None) by reflexivity.
  split; [exact H1|]. split; [exact H2|].
  destruct (AssertHeld_passes_between_Lock_and_Unlock true sample_env 1 16 32
              None None 0 constructed_world H1 H2)
    as (w1 & w2 & w3 & rest & Hrun & Ha & _).
  exists w1. split; [exact Hrun | exact Ha].
Defined.

(** ** The waits *)

(** X10: Wait by a thread that does not hold the error-checking mutex does
    not return.  BeforeUnlock has run to its end by the time
    pthread_cond_wait answers EPERM: owner_ is zero although the holder of
    the lock has not changed, and with MUTEX_DEBUG the label is cleared
    too.  The process is aborted after the line naming "condvar wait";
    the thread was never put to sleep on the condition variable. *)
Theorem Wait_by_non_holder_aborts (D : bool) (env : Env) (self : pthread_t)
    (c mu : addr) (m : option string) (w : World) :
  holds self w mu = false ->
  checks_errors w mu = true ->
  exists l w1,
    run (posix env) self (Wait D (mkCondVar mu c) m) w
      = (Did (Load mu msg_threshold) (msg_threshold_ (mutexes w mu)) w
           :: (l ++ [Did (Store mu owner 0) tt w1]) ++
              [Did (Os (pthread_cond_wait c mu)) EPERM w1;
               Did (FprintfStderr (mkErr "condvar wait" EPERM)) tt
                   (put_err w1 (mkErr "condvar wait" EPERM));
               Died (put_err w1 (mkErr "condvar wait" EPERM))],
         Aborted (put_err w1 (mkErr "condvar wait" EPERM)))
    /\ Forall (fun e => owner_ (mutexes (entry_world e) mu)
                        = owner_ (mutexes w mu)) l
    /\ mutexes w1 mu = released D (mutexes w mu)
    /\ owner_ (mutexes w1 mu) = 0
    /\ holder w1 mu = holder w mu
    /\ conds w1 = conds w
    /\ err w1 = err w.
Proof.
  intros Hn Hc.
  destruct (Wait_run D env self c mu m w) as (l & w1 & Hch & Hl & _ & Hrun).
  destruct Hch as (Hm1 & _ & Hc1 & _ & _ & He1).
  rewrite Hn, Hc in Hrun. cbn [negb andb] in Hrun.
  exists l, w1. split; [exact Hrun|].
  split; [eapply Forall_impl; [|exact Hl]; intros e [_ Ho]; exact Ho|].
  split; [exact Hm1|]. split; [now rewrite Hm1|].
  split; [unfold holder; now rewrite Hm1|].
  split; assumption.
Qed.

Lemma Wait_by_non_holder_aborts_witness :
  holds 2 (held_world true) 16 = false
  /\ checks_errors (held_world true) 16 = true
  /\ exists w',
       snd (run (posix sample_env) 2 (Wait true (mkCondVar 16 32) None)
              (held_world true)) = Aborted w'
       /\ owner_ (mutexes w' 16) = 0
       /\ holder w' 16 = Some 1.
Proof.
  assert (H1 : holds 2 (held_world true) 16 = false) by reflexivity.
  assert (H2 : checks_errors (held_world true) 16 = true) by reflexivity.
  split; [exact H1|]. split; [exact H2|].
  destruct (Wait_by_non_holder_aborts true sample_env 2 32 16 None
              (held_world true) H1 H2)
    as (l & w1 & Hrun & _ & _ & Ho & Hh & _).
  eexists. rewrite Hrun. cbn [snd]. split; [reflexivity|].
  split; [exact Ho | exact Hh].
Defined.

(** X11: TimeWait by the holder, with a deadline pthreads accepts, reads the
    wall clock first, then the threshold, then runs BeforeUnlock to its
    end with the lock still held, and only then releases the mutex and
    sleeps as a timed waiter: in the world it sleeps in, owner_ is zero
    and nobody holds the lock.  Whatever code it is woken with, signalled
    or timed out, what is left is the reacquisition and then AfterLock
    with the label of this call and the threshold read before the wait:
    TimeWait returns holding the lock, as the owner, and its result is
    true exactly when the code is zero. *)
Theorem TimeWait_suspends_bookkeeping (D : bool) (env : Env)
    (self : pthread_t) (c mu : addr) (timeout : int) (m : option string)
    (w : World) :
  holder w mu = Some self ->
  let this := mkCondVar mu c in
  let tv := gettimeofday_at env (ticks w) in
  let ts := TimeWait_deadline tv timeout in
  let threshold := msg_threshold_ (mutexes w mu) in
  timespec_valid ts = true ->
  exists l1 w1,
    run (posix env) self (BeforeUnlock D mu) (tick w) = (l1, Finished tt w1)
    /\ owner_ (mutexes w1 mu) = 0
    /\ holder w1 mu = Some self
    /\ out w1 = out w ++ hold_report D env (mutexes w mu) (S (ticks w))
    /\ run (posix env) self (TimeWait D this timeout m) w
       = (Did (Os gettimeofday) tv (tick w)
            :: Did (Load mu msg_threshold) threshold (tick w)
            :: l1 ++ [Began (Os (pthread_cond_timedwait c mu ts))
                            (sleep_on self true c mu w1)],
          Blocked (sleep_on self true c mu w1)
                  (TimeWait_resumed D this m threshold))
    /\ holder (sleep_on self true c mu w1) mu = None
    /\ owner_ (mutexes (sleep_on self true c mu w1) mu) = 0
    /\ conds (sleep_on self true c mu w1) c
       = conds w c ++ [mkWaiter self true None]
    /\ forall w2 x code,
         find_waiter self (conds w2 c) = Some x ->
         w_woken x = Some code ->
         holder w2 mu = None ->
         exists l3 w3,
           run (posix env) self (TimeWait_resumed D this m threshold) w2
             = (Did (Os (cond_reacquire c mu)) code (reacquired self c mu w2)
                  :: l3 ++ [Did (Store mu owner self) tt w3],
                Finished (code =? 0) w3)
           /\ Forall (fun e => owner_ (mutexes (entry_world e) mu)
                               = owner_ (mutexes w2 mu)) l3
           /\ holder w3 mu = Some self
           /\ owner_ (mutexes w3 mu) = self
           /\ out w3 = out w2
           /\ (D = true ->
               msg_ (mutexes w3 mu) = m
               /\ msg_threshold_ (mutexes w3 mu) = threshold
               /\ (is_some m = true ->
                   lock_time_ (mutexes w3 mu) = get_micros_at env (ticks w2))).
Proof.
  intros Hh this tv ts threshold Hvalid. subst this tv ts threshold.
  destruct (TimeWait_run D env self c mu timeout m w)
    as (l & w1 & Hch & Hl & Hbu & Hrun).
  destruct Hch as (Hm1 & Hfr1 & Hc1 & Ht1 & Ho1 & He1).
  rewrite Hvalid, (holds_of_holder self w mu Hh) in Hrun.
  cbn [negb andb orb] in Hrun.
  eexists _, w1. split; [exact Hbu|].
  split; [now rewrite Hm1|].
  split; [unfold holder in *; now rewrite Hm1|].
  split; [exact Ho1|].
  split; [rewrite Hrun; now rewrite <- app_assoc|].
  split; [unfold holder; cbn; now rewrite upd_same|].
  split; [cbn; rewrite upd_same; cbn; now rewrite Hm1|].
  split; [cbn; rewrite upd_same; now rewrite Hc1|].
  intros w2 x code Hx Hw Hfree.
  destruct (TimeWait_resumed_run D env self c mu m
              (msg_threshold_ (mutexes w mu)) w2 x code Hx Hw Hfree)
    as (l3 & w3 & Hrun3 & Hch3 & Hl3).
  destruct Hch3 as (Hm3 & _ & _ & _ & Ho3 & _).
  exists l3, w3. split; [exact Hrun3|].
  split; [eapply Forall_impl; [|exact Hl3]; intros e [_ Ho]; exact Ho|].
  split; [unfold holder; now rewrite Hm3|].
  split; [now rewrite Hm3|].
  split; [rewrite Ho3; cbn; now rewrite app_nil_r|].
  intros ->. rewrite Hm3. cbn. repeat split.
  intros Hs. now rewrite Hs.
Qed.

Lemma TimeWait_suspends_bookkeeping_witness :
  holder (held_world true) 16 = Some 1
  /\ timespec_valid
       (TimeWait_deadline
          (gettimeofday_at sample_env (ticks (held_world true))) 100) = true
  /\ exists w1 rest,
       snd (run (posix sample_env) 1
              (TimeWait true (mkCondVar 16 32) 100 (Some "waiter"))
              (held_world true)) = Blocked w1 rest
       /\ holder w1 16 = None
       /\ owner_ (mutexes w1 16) = 0.
Proof.
  assert (H1 : holder (held_world true) 16 = Some 1) by reflexivity.
  assert (H2 : timespec_valid
                 (TimeWait_deadline
                    (gettimeofday_at sample_env (ticks (held_world true)))
                    100) = true) by (vm_compute; reflexivity).
  split; [exact H1|]. split; [exact H2|].
  destruct (TimeWait_suspends_bookkeeping true sample_env 1 32 16 100
              (Some "waiter") (held_world true) H1 H2)
    as (l1 & w1 & _ & _ & _ & _ & Hrun & Hh & Ho & _).
  eexists _, _. rewrite Hrun. cbn [snd]. split; [reflexivity|].
  split; [exact Hh | exact Ho].
Defined.

(** ** The deadline for a timeout of either sign *)

(** X12: for every 32-bit timeout, negative ones included, and a clock read
    whose microseconds are below one million, the deadline TimeWait
    computes is, as a number of nanoseconds, the time read plus the
    timeout in milliseconds.  Division and remainder truncate towards
    zero, so when the timeout reaches back before the start of the second
    read the nanoseconds come out negative or zero: pthreads accepts the
    deadline exactly when the microseconds [tv_usec + timeout * 1000] are
    not negative or are a whole number of seconds. *)
Theorem TimeWait_deadline_any_timeout (tv : timeval) (timeout : int) :
  in_int32 timeout ->
  0 <= tv_usec tv < 1000000 ->
  - 2 ^ 63 + 2147484 <= tv_sec tv -> tv_sec tv + 2147484 < 2 ^ 63 ->
  let usec := tv_usec tv + timeout * 1000 in
  timespec_ns (TimeWait_deadline tv timeout)
    = timeval_ns tv + timeout * 1000000
  /\ (timespec_valid (TimeWait_deadline tv timeout) = true
      <-> 0 <= usec \/ (1000000 | usec))
  /\ (usec < 0 ->
      - 999999000 <= ts_nsec (TimeWait_deadline tv timeout) <= 0
      /\ ts_sec (TimeWait_deadline tv timeout) <= tv_sec tv)
  /\ (timeout <= - 1000 -> usec < 0).
Proof.
  intros Ht Hu Hlo Hhi usec.
  assert (Husec := TimeWait_usec_exact tv timeout Hu Ht).
  fold usec in Husec. unfold in_int32 in Ht. pows.
  assert (Hub : - 2147483648000 <= usec < 2147484648000)
    by (unfold usec; lia).
  pose proof (Z.quot_rem' usec 1000000) as Hqr.
  assert (Hrb : (0 <= usec -> 0 <= Z.rem usec 1000000 < 1000000)
                /\ (usec <= 0 -> - 1000000 < Z.rem usec 1000000 <= 0)).
  { split; intros H.
    - apply Z.rem_bound_pos; lia.
    - pose proof (Z.rem_bound_pos (- usec) 1000000 ltac:(lia) ltac:(lia))
        as Hb.
      rewrite Z.rem_opp_l' in Hb. lia. }
  destruct Hrb as [Hrp Hrn].
  set (q := Z.quot usec 1000000) in *. set (r := Z.rem usec 1000000) in *.
  assert (Hq : - 2147484 < q < 2147485).
  { destruct (Z_le_gt_dec 0 usec) as [H | H].
    - specialize (Hrp H). lia.
    - specialize (Hrn ltac:(lia)). lia. }
  assert (Hr : - 1000000 < r < 1000000).
  { destruct (Z_le_gt_dec 0 usec) as [H | H].
    - specialize (Hrp H). lia.
    - specialize (Hrn ltac:(lia)). lia. }
  assert (Hsec : ts_sec (TimeWait_deadline tv timeout) = tv_sec tv + q).
  { unfold TimeWait_deadline. cbn [ts_sec]. rewrite Husec.
    unfold div64, add64. fold q.
    rewrite (wrap64_small q) by (unfold in_int64; pows; lia).
    apply wrap64_small. unfold in_int64. pows. lia. }
  assert (Hns : ts_nsec (TimeWait_deadline tv timeout) = r * 1000).
  { unfold TimeWait_deadline. cbn [ts_nsec]. rewrite Husec.
    unfold rem64, mul64. fold r.
    apply wrap64_small. unfold in_int64. pows. lia. }
  split; [|split; [|split]].
  - unfold timespec_ns, timeval_ns. rewrite Hsec, Hns. unfold usec in *. lia.
  - unfold timespec_valid. rewrite Hns, andb_true_iff, Z.leb_le, Z.ltb_lt.
    split.
    + intros [H0 _]. destruct (Z_le_gt_dec 0 usec) as [H | H]; [now left|].
      right. specialize (Hrn ltac:(lia)). exists q. lia.
    + intros [H | [k Hk]].
      * specialize (Hrp H). lia.
      * assert (r = 0); [|lia].
        unfold r. rewrite Hk. apply Z.rem_mul. lia.
  - intros Hneg. specialize (Hrn ltac:(lia)). rewrite Hns, Hsec. lia.
  - intros Hm. unfold usec. lia.
Qed.

Lemma TimeWait_deadline_any_timeout_witness :
  in_int32 (- 1)
  /\ 0 <= tv_usec (mkTimeval 1700000000 0) < 1000000
  /\ timespec_valid (TimeWait_deadline (mkTimeval 1700000000 0) (- 1)) = false
  /\ timespec_ns (TimeWait_deadline (mkTimeval 1700000000 0) (- 1))
     = 1700000000 * 1000000000 - 1000000.
Proof.
  assert (H1 : in_int32 (- 1)) by (unfold in_int32; pows; lia).
  assert (H2 : 0 <= tv_usec (mkTimeval 1700000000 0) < 1000000)
    by (cbn; lia).
  assert (H3 : - 2 ^ 63 + 2147484 <= tv_sec (mkTimeval 1700000000 0))
    by (cbn; pows; lia).
  assert (H4 : tv_sec (mkTimeval 1700000000 0) + 2147484 < 2 ^ 63)
    by (cbn; pows; lia).
  destruct (TimeWait_deadline_any_timeout (mkTimeval 1700000000 0) (- 1)
              H1 H2 H3 H4) as (Hns & Hv & _).
  split; [exact H1|]. split; [exact H2|]. split.
  - destruct (timespec_valid _) eqn:E; [|reflexivity].
    destruct Hv as [Hv _]. destruct (Hv eq_refl) as [H | [k Hk]].
    + cbn in H. lia.
    + cbn in Hk. lia.
  - rewrite Hns. unfold timeval_ns. cbn [tv_sec tv_usec]. lia.
Defined.

(** ** A waiter and the thread that wakes it *)

Lemma find_waiter_new (t : pthread_t) (l : pthread_cond_t) (x : waiter) :
  w_tid x = t -> find_waiter t l = None ->
  find_waiter t (l ++ [x]) = Some x.
Proof.
  intros Hx. induction l as [|y l IH]; cbn.
  - intros _. subst t. now rewrite Z.eqb_refl.
  - destruct (w_tid y =? t); [discriminate|exact IH].
Qed.

Lemma find_waiter_wake_all (t : pthread_t) (l : pthread_cond_t) (x : waiter) :
  find_waiter t l = Some x ->
  find_waiter t (wake_all l)
    = Some (match w_woken x with None => wake 0 x | Some _ => x end).
Proof.
  induction l as [|y l IH]; cbn; [discriminate|].
  destruct (w_woken y) eqn:Hy; cbn;
    (destruct (w_tid y =? t); [intros [= <-]; now rewrite Hy | exact IH]).
Qed.

Lemma wake_first_last (l : pthread_cond_t) (x : waiter) :
  Forall (fun y => w_woken y <> None) l -> w_woken x = None ->
  wake_first (l ++ [x]) = l ++ [wake 0 x].
Proof.
  intros Hl Hx. induction Hl as [|y l Hy _ IH]; cbn.
  - now rewrite Hx.
  - destruct (w_woken y); [now rewrite IH|contradiction].
Qed.

Lemma remove_waiter_new (t : pthread_t) (l : pthread_cond_t) (x : waiter) :
  w_tid x = t -> find_waiter t l = None ->
  remove_waiter t (l ++ [x]) = l.
Proof.
  intros Hx. induction l as [|y l IH]; cbn.
  - intros _. subst t. now rewrite Z.eqb_refl.
  - destruct (w_tid y =? t); [discriminate|]. intros H. now rewrite IH.
Qed.

Lemma find_waiter_tids (t : pthread_t) (l l' : pthread_cond_t) :
  map w_tid l' = map w_tid l ->
  find_waiter t l = None -> find_waiter t l' = None.
Proof.
  revert l'. induction l as [|y l IH]; intros [|y' l']; cbn;
    try discriminate; [reflexivity|].
  intros [= Hy Hl]. rewrite Hy.
  destruct (w_tid y =? t); [discriminate|]. now apply IH.
Qed.

Lemma wake_all_tids (l : pthread_cond_t) :
  map w_tid (wake_all l) = map w_tid l.
Proof.
  unfold wake_all. rewrite map_map. apply map_ext.
  intros y. now destruct (w_woken y).
Qed.

Lemma wake_all_app (l l' : pthread_cond_t) :
  wake_all (l ++ l') = wake_all l ++ wake_all l'.
Proof. apply map_app. Qed.

(* what is left of Wait: asleep, woken but locked out, woken and free to go *)
Lemma Wait_resumed_asleep (D : bool) (env : Env) (self : pthread_t)
    (c mu : addr) (m : option string) (threshold : int64_t) (w2 : World)
    (x : waiter) :
  find_waiter self (conds w2 c) = Some x ->
  w_woken x = None \/ holder w2 mu <> None ->
  run (posix env) self (Wait_resumed D (mkCondVar mu c) m threshold) w2
    = ([], Blocked w2 (Wait_resumed D (mkCondVar mu c) m threshold)).
Proof.
  intros Hx H. unfold Wait_resumed. cbn. rewrite Hx.
  destruct (w_woken x) as [code|]; [|reflexivity].
  destruct H as [H | H]; [discriminate|].
  destruct (holder w2 mu); [reflexivity|contradiction].
Qed.

(** X13: Wait by the holder, not yet in the queue of the condition
    variable, blocks with the lock released and the caller queued.  As
    long as it has not been woken, what is left of Wait does nothing, and
    no deadline wakes it.
    After a Broadcast by any thread, or a Signal when no earlier sleeper
    is still asleep, it still does nothing while some thread holds the
    mutex; once the mutex is free, Wait returns: the caller holds the
    lock, is the owner again and has left the queue. *)
Theorem Wait_returns_after_wake_up (D : bool) (env : Env)
    (self other : pthread_t) (c mu : addr) (m : option string) (w : World) :
  holder w mu = Some self ->
  find_waiter self (conds w c) = None ->
  let this := mkCondVar mu c in
  let rest := Wait_resumed D this m (msg_threshold_ (mutexes w mu)) in
  let stays := fun v => run (posix env) self rest v = ([], Blocked v rest) in
  let returns := fun v =>
    exists w',
      snd (run (posix env) self rest v) = Finished tt w'
      /\ holder w' mu = Some self
      /\ owner_ (mutexes w' mu) = self
      /\ find_waiter self (conds w' c) = None in
  exists w1,
    snd (run (posix env) self (Wait D this m) w) = Blocked w1 rest
    /\ holder w1 mu = None
    /\ conds w1 c = conds w c ++ [mkWaiter self false None]
    /\ (forall v, conds v c = conds w1 c -> stays v /\ expire c self v = v)
    /\ (forall v w2,
          conds v c = conds w1 c ->
          snd (run (posix env) other (Broadcast this) v) = Finished tt w2 ->
          forall v', conds v' c = conds w2 c ->
            (holder v' mu <> None -> stays v')
            /\ (holder v' mu = None -> returns v'))
    /\ (forall v w2,
          conds v c = conds w1 c ->
          Forall (fun y => w_woken y <> None) (conds w c) ->
          snd (run (posix env) other (Signal this) v) = Finished tt w2 ->
          forall v', conds v' c = conds w2 c ->
            (holder v' mu <> None -> stays v')
            /\ (holder v' mu = None -> returns v')).
Proof.
  intros Hh Hnew this rest stays returns.
  destruct (Wait_run D env self c mu m w) as (l & w0 & Hch & _ & _ & Hrun).
  destruct Hch as (Hm0 & _ & Hc0 & _).
  rewrite (holds_of_holder self w mu Hh) in Hrun. cbn [negb andb] in Hrun.
  set (x := mkWaiter self false None).
  assert (Hq : conds (sleep_on self false c mu w0) c = conds w c ++ [x]).
  { cbn. rewrite upd_same. now rewrite Hc0. }
  exists (sleep_on self false c mu w0).
  split; [subst this rest; now rewrite Hrun|].
  split; [unfold holder; cbn; now rewrite upd_same|].
  split; [exact Hq|].
  (* once woken with code 0 *)
  assert (Hwoken : forall v',
            conds v' c = wake_all (conds w c) ++ [wake 0 x]
            \/ conds v' c = conds w c ++ [wake 0 x] ->
            (holder v' mu <> None -> stays v')
            /\ (holder v' mu = None -> returns v')).
  { intros v' Hv'.
    assert (Hx' : find_waiter self (conds v' c) = Some (wake 0 x)).
    { destruct Hv' as [-> | ->]; apply find_waiter_new; try reflexivity;
        [|exact Hnew].
      apply (find_waiter_tids self (conds w c)); [|exact Hnew].
      apply wake_all_tids. }
    split.
    - intros Hbusy. apply (Wait_resumed_asleep D env self c mu m _ v' _ Hx').
      now right.
    - intros Hfree.
      destruct (Wait_resumed_run D env self c mu m
                  (msg_threshold_ (mutexes w mu)) v' (wake 0 x) Hx' eq_refl
                  Hfree) as (l3 & w3 & Hrun3 & _ & Hch3 & _).
      destruct Hch3 as (Hm3 & _ & Hc3 & _).
      exists w3. subst rest this. rewrite Hrun3.
      split; [reflexivity|].
      split; [unfold holder; now rewrite Hm3|].
      split; [now rewrite Hm3|].
      rewrite Hc3. cbn. rewrite upd_same.
      destruct Hv' as [-> | ->]; rewrite remove_waiter_new;
        try reflexivity; try exact Hnew.
      + apply (find_waiter_tids self (conds w c)); [|exact Hnew].
        apply wake_all_tids.
      + apply (find_waiter_tids self (conds w c)); [|exact Hnew].
        apply wake_all_tids. }
  split; [|split].
  - intros v Hv.
    assert (Hx : find_waiter self (conds v c) = Some x)
      by (rewrite Hv, Hq; now apply find_waiter_new).
    split.
    + apply (Wait_resumed_asleep D env self c mu m _ v x Hx). now left.
    + unfold expire. now rewrite Hx.
  - intros v w2 Hv Hb v' Hv'. apply Hwoken. left.
    cbn in Hb. injection Hb as <-. rewrite Hv'. cbn. rewrite upd_same.
    rewrite Hv, Hq, wake_all_app. reflexivity.
  - intros v w2 Hv Hall Hs v' Hv'. apply Hwoken. right.
    cbn in Hs. injection Hs as <-. rewrite Hv'. cbn. rewrite upd_same.
    rewrite Hv, Hq. now apply wake_first_last.
Qed.

Lemma Wait_returns_after_wake_up_witness :
  holder (held_world true) 16 = Some 1
  /\ find_waiter 1 (conds (held_world true) 32) = None
  /\ exists w1 rest,
       snd (run (posix sample_env) 1 (Wait true (mkCondVar 16 32) None)
              (held_world true)) = Blocked w1 rest
       /\ run (posix sample_env) 1 rest w1 = ([], Blocked w1 rest).
Proof.
  assert (H1 : holder (held_world true) 16 = Some 1) by reflexivity.
  assert (H2 : find_waiter 1 (conds (held_world true) 32) = None)
    by reflexivity.
  split; [exact H1|]. split; [exact H2|].
  destruct (Wait_returns_after_wake_up true sample_env 1 2 32 16 None
              (held_world true) H1 H2)
    as (w1 & Hrun & _ & _ & Hstays & _).
  exists w1. eexists. split; [exact Hrun|].
  apply (Hstays w1 eq_refl).
Defined.

Lemma wake_thread_new (t : pthread_t) (code : int) (l : pthread_cond_t)
    (x : waiter) :
  w_tid x = t -> w_woken x = None -> find_waiter t l = None ->
  wake_thread t code (l ++ [x]) = l ++ [wake code x].
Proof.
  intros Hx Hw. induction l as [|y l IH]; cbn.
  - intros _. subst t. now rewrite Z.eqb_refl, Hw.
  - destruct (w_tid y =? t); [discriminate|]. intros H. now rewrite IH.
Qed.

Lemma TimeWait_resumed_asleep (D : bool) (env : Env) (self : pthread_t)
    (c mu : addr) (m : option string) (threshold : int64_t) (w2 : World)
    (x : waiter) :
  find_waiter self (conds w2 c) = Some x ->
  w_woken x = None \/ holder w2 mu <> None ->
  run (posix env) self (TimeWait_resumed D (mkCondVar mu c) m threshold) w2
    = ([], Blocked w2 (TimeWait_resumed D (mkCondVar mu c) m threshold)).
Proof.
  intros Hx H. unfold TimeWait_resumed. cbn. rewrite Hx.
  destruct (w_woken x) as [code|]; [|reflexivity].
  destruct H as [H | H]; [discriminate|].
  destruct (holder w2 mu); [reflexivity|contradiction].
Qed.

(** X14: TimeWait by the holder, with a deadline pthreads accepts, blocks
    with the caller queued as a timed sleeper, and what is left of it does
    nothing until the caller is woken.  Once the mutex is free again it
    returns holding the lock, as the owner: false when the deadline has
    passed, true after a Broadcast, and true as well after a wake-up that
    nobody asked for, so true does not tell that a signal was sent. *)
Theorem TimeWait_result_after_wake_up (D : bool) (env : Env)
    (self other : pthread_t) (c mu : addr) (timeout : int)
    (m : option string) (w : World) :
  holder w mu = Some self ->
  find_waiter self (conds w c) = None ->
  timespec_valid
    (TimeWait_deadline (gettimeofday_at env (ticks w)) timeout) = true ->
  let this := mkCondVar mu c in
  let rest := TimeWait_resumed D this m (msg_threshold_ (mutexes w mu)) in
  let returns := fun (b : bool) v =>
    exists w',
      snd (run (posix env) self rest v) = Finished b w'
      /\ holder w' mu = Some self
      /\ owner_ (mutexes w' mu) = self
      /\ find_waiter self (conds w' c) = None in
  exists w1,
    snd (run (posix env) self (TimeWait D this timeout m) w) = Blocked w1 rest
    /\ conds w1 c = conds w c ++ [mkWaiter self true None]
    /\ (forall v, conds v c = conds w1 c ->
          run (posix env) self rest v = ([], Blocked v rest))
    /\ (forall v v',
          conds v c = conds w1 c ->
          conds v' c = conds (expire c self v) c ->
          holder v' mu = None -> returns false v')
    /\ (forall v v',
          conds v c = conds w1 c ->
          conds v' c = conds (spurious_wakeup c self v) c ->
          holder v' mu = None -> returns true v')
    /\ (forall v w2 v',
          conds v c = conds w1 c ->
          snd (run (posix env) other (Broadcast this) v) = Finished tt w2 ->
          conds v' c = conds w2 c ->
          holder v' mu = None -> returns true v').
Proof.
  intros Hh Hnew Hvalid this rest returns.
  destruct (TimeWait_run D env self c mu timeout m w)
    as (l & w0 & Hch & _ & _ & Hrun).
  destruct Hch as (Hm0 & _ & Hc0 & _).
  rewrite Hvalid, (holds_of_holder self w mu Hh) in Hrun.
  cbn [negb andb orb] in Hrun.
  set (x := mkWaiter self true None).
  assert (Hq : conds (sleep_on self true c mu w0) c = conds w c ++ [x]).
  { cbn. rewrite upd_same. now rewrite Hc0. }
  exists (sleep_on self true c mu w0).
  split; [subst this rest; now rewrite Hrun|].
  split; [exact Hq|].
  assert (Hwoken : forall code l' v',
            map w_tid l' = map w_tid (conds w c) ->
            conds v' c = l' ++ [wake code x] ->
            holder v' mu = None -> returns (code =? 0) v').
  { intros code l' v' Hl' Hv' Hfree.
    assert (Hnew' : find_waiter self l' = None)
      by (now apply (find_waiter_tids self (conds w c))).
    assert (Hx' : find_waiter self (conds v' c) = Some (wake code x)).
    { rewrite Hv'. now apply find_waiter_new. }
    destruct (TimeWait_resumed_run D env self c mu m
                (msg_threshold_ (mutexes w mu)) v' (wake code x) code Hx'
                eq_refl Hfree) as (l3 & w3 & Hrun3 & Hch3 & _).
    destruct Hch3 as (Hm3 & _ & Hc3 & _).
    exists w3. subst rest this. rewrite Hrun3.
    split; [reflexivity|].
    split; [unfold holder; now rewrite Hm3|].
    split; [now rewrite Hm3|].
    rewrite Hc3. cbn. rewrite upd_same, Hv'.
    now rewrite remove_waiter_new. }
  assert (Hx : forall v, conds v c = conds w c ++ [x] ->
               find_waiter self (conds v c) = Some x).
  { intros v ->. now apply find_waiter_new. }
  split; [|split; [|split]].
  - intros v Hv. rewrite Hq in Hv.
    apply (TimeWait_resumed_asleep D env self c mu m _ v x (Hx v Hv)).
    now left.
  - intros v v' Hv Hv' Hfree. rewrite Hq in Hv.
    apply (Hwoken ETIMEDOUT (conds w c) v' eq_refl); [|exact Hfree].
    rewrite Hv'. unfold expire. rewrite (Hx v Hv). cbn. rewrite upd_same, Hv.
    now apply wake_thread_new.
  - intros v v' Hv Hv' Hfree. rewrite Hq in Hv.
    apply (Hwoken 0 (conds w c) v' eq_refl); [|exact Hfree].
    rewrite Hv'. cbn. rewrite upd_same, Hv. now apply wake_thread_new.
  - intros v w2 v' Hv Hb Hv' Hfree. rewrite Hq in Hv.
    apply (Hwoken 0 (wake_all (conds w c)) v' (wake_all_tids _));
      [|exact Hfree].
    cbn in Hb. injection Hb as <-. rewrite Hv'. cbn.
    rewrite upd_same, Hv, wake_all_app. reflexivity.
Qed.

Lemma TimeWait_result_after_wake_up_witness :
  holder (held_world true) 16 = Some 1
  /\ find_waiter 1 (conds (held_world true) 32) = None
  /\ timespec_valid
       (TimeWait_deadline
          (gettimeofday_at sample_env (ticks (held_world true))) 100) = true
  /\ exists w1 rest w',
       snd (run (posix sample_env) 1
              (TimeWait true (mkCondVar 16 32) 100 None) (held_world true))
         = Blocked w1 rest
       /\ snd (run (posix sample_env) 1 rest (expire 32 1 w1))
          = Finished false w'
       /\ holder w' 16 = Some 1.
Proof.
  assert (H1 : holder (held_world true) 16 = Some 1) by reflexivity.
  assert (H2 : find_waiter 1 (conds (held_world true) 32) = None)
    by reflexivity.
  assert (H3 : timespec_valid
                 (TimeWait_deadline
                    (gettimeofday_at sample_env (ticks (held_world true)))
                    100) = true) by (vm_compute; reflexivity).
  split; [exact H1|]. split; [exact H2|]. split; [exact H3|].
  destruct (TimeWait_result_after_wake_up true sample_env 1 2 32 16 100 None
              (held_world true) H1 H2 H3)
    as (w1 & Hrun & Hq & _ & Hexp & _).
  assert (Hfree : holder (expire 32 1 w1) 16 = None).
  { revert Hrun. vm_compute. intros [= <-]. reflexivity. }
  destruct (Hexp w1 (expire 32 1 w1) eq_refl eq_refl Hfree)
    as (w' & Hres & Hh & _).
  exists w1. eexists. exists w'. split; [exact Hrun|].
  split; [exact Hres | exact Hh].
Defined.

(** ** What the methods never touch *)

Ltac unfold_methods :=
  unfold op_prog, MutexLock_ctor, MutexLock_dtor, Mutex_ctor, Mutex_dtor,
    Lock, Unlock, AssertHeld, CondVar_ctor, CondVar_dtor, Wait,
    TimeWait, Signal, Broadcast, AfterLock, BeforeUnlock, PthreadCall,
    os, load, store, printf, fprintf_stderr, pthread_self, abort, act.

Lemma methods_concern (D : bool) (mu c : addr) (m : option string)
    (t : int64_t) (timeout : int) (p : prog bool) :
  In p ((Mutex_ctor mu ;; Ret true) :: methods D mu c m t timeout) ->
  all_actions (concerns mu c) p.
Proof.
  intros H. cbn [methods In] in H.
  repeat (destruct H as [<- | H]); [..|contradiction];
    unfold_methods; all_actions_tac.
Qed.

Lemma methods_uninstrumented (mu c : addr) (m : option string)
    (t : int64_t) (timeout : int) (p : prog bool) :
  In p (methods false mu c m t timeout) -> all_actions uninstrumented p.
Proof.
  intros H. cbn [methods In] in H.
  repeat (destruct H as [<- | H]); [..|contradiction];
    unfold_methods; all_actions_tac.
Qed.

Lemma posix_elsewhere (env : Env) (self : pthread_t) (mu c : addr) X
    (e : action X) (w : World) :
  concerns mu c X e ->
  match handle (posix env) self e w with
  | Returns _ w' => elsewhere_untouched mu c w w'
  | Blocks => True
  | Becomes w' c' => elsewhere_untouched mu c w w' /\ concerns mu c X (Os c')
  | Terminates w' => elsewhere_untouched mu c w w'
  end.
Proof.
  assert (Hsame : forall v, mutexes v = mutexes w -> conds v = conds w ->
                  elsewhere_untouched mu c w v).
  { intros v Hm Hc. unfold elsewhere_untouched. now rewrite Hm, Hc. }
  assert (Hmu : forall M, elsewhere_untouched mu c w (set_mutex w mu M)).
  { intros M. split; intros q Hq; cbn; [now rewrite upd_other|reflexivity]. }
  assert (Hc : forall l, elsewhere_untouched mu c w (set_cond w c l)).
  { intros l. split; intros q Hq; cbn; [reflexivity|now rewrite upd_other]. }
  assert (Hboth : forall M l,
            elsewhere_untouched mu c w (set_cond (set_mutex w mu M) c l)).
  { intros M l. split; intros q Hq; cbn; now rewrite ?upd_other. }
  intros He.
  destruct e as [X call | T this f | T this f v | l | l | |];
    [destruct call|..]; cbn in He; try destruct He; subst;
    unfold handle, posix, sleep_on, reacquired, set_holder;
    repeat case_innermost;
    solve [ exact I | apply Hsame; reflexivity | apply Hmu | apply Hc
          | apply Hboth | split; [apply Hboth | cbn; auto] ].
Qed.

Lemma posix_diagnostics (env : Env) (self : pthread_t) X (e : action X)
    (w : World) :
  uninstrumented X e ->
  match handle (posix env) self e w with
  | Returns _ w' => diagnostics_untouched w w'
  | Blocks => True
  | Becomes w' c' => diagnostics_untouched w w' /\ uninstrumented X (Os c')
  | Terminates w' => diagnostics_untouched w w'
  end.
Proof.
  assert (Hsame : forall v, mutexes v = mutexes w -> out v = out w ->
                  diagnostics_untouched w v).
  { intros v Hm Ho. unfold diagnostics_untouched. now rewrite Hm, Ho. }
  assert (Hmu : forall mu M l s,
            msg_ M = msg_ (mutexes w mu) ->
            msg_threshold_ M = msg_threshold_ (mutexes w mu) ->
            lock_time_ M = lock_time_ (mutexes w mu) ->
            diagnostics_untouched w
              (mkWorld (upd (mutexes w) mu M) l (ticks w) (out w) (err w) s)).
  { intros mu M l s H1 H2 H3. split; [reflexivity|]. intros q. cbn.
    unfold upd. destruct (q =? mu) eqn:E; [|auto].
    apply Z.eqb_eq in E. subst q. auto. }
  intros He.
  destruct e as [X call | T this f | T this f v | l | l | |];
    [destruct call | | destruct f | ..]; cbn in He; try contradiction;
    unfold handle, posix, sleep_on, reacquired, set_holder, set_cond,
      set_mutex, set_sleeping;
    repeat case_innermost;
    solve [ exact I | apply Hsame; reflexivity
          | apply Hmu; reflexivity
          | split; [apply Hmu; reflexivity | exact I] ].
Qed.

(** X15: no method of a Mutex, of a MutexLock on it or of a CondVar bound
    to it touches another Mutex or another condition variable: in every
    world a run passes through and in the world it ends in, whether the
    method returns, blocks or aborts the process, every other Mutex has
    all its members as they were and every other pthread_cond_t its queue;
    so has the run of what is left of a Lock or of a wait once it goes on. *)
Theorem methods_touch_nothing_else (D : bool) (env : Env) (self : pthread_t)
    (mu c : addr) (m : option string) (t : int64_t) (timeout : int)
    (p : prog bool) (w : World) :
  In p ((Mutex_ctor mu ;; Ret true) :: methods D mu c m t timeout) ->
  kept_by (elsewhere_untouched mu c) (posix env) self w
    (run (posix env) self p w).
Proof.
  intros Hp.
  apply (run_kept_by (posix env) self (concerns mu c)).
  - intros v. split; reflexivity.
  - intros a b d [H1 H2] [H3 H4]. split; intros q Hq.
    + rewrite H3, H1 by exact Hq. reflexivity.
    + rewrite H4, H2 by exact Hq. reflexivity.
  - intros X e v. apply posix_elsewhere.
  - now apply (methods_concern D mu c m t timeout).
Qed.

Lemma methods_touch_nothing_else_witness :
  In (op_prog true 16 (OpWait 32 None))
     ((Mutex_ctor 16 ;; Ret true) :: methods true 16 32 None 0 0)
  /\ kept_by (elsewhere_untouched 16 32) (posix sample_env) 1
       (held_world true)
       (run (posix sample_env) 1 (op_prog true 16 (OpWait 32 None))
          (held_world true)).
Proof.
  assert (H : In (op_prog true 16 (OpWait 32 None))
                ((Mutex_ctor 16 ;; Ret true) :: methods true 16 32 None 0 0)).
  { do 7 right. left. reflexivity. }
  split; [exact H|].
  apply (methods_touch_nothing_else true sample_env 1 16 32 None 0 0 _
           (held_world true) H).
Defined.

(** X16: without MUTEX_DEBUG no method, the constructor of Mutex apart,
    calls timer::get_micros or now_time_str, prints to stdout or stores to
    msg_, msg_threshold_ or lock_time_, whatever the calls before it
    returned.  So stdout and the three diagnostic members of every Mutex
    are the same in every world a run passes through or ends in, whether
    the method returns, blocks or aborts, and in the run of what is left
    of it once it goes on. *)
Theorem uninstrumented_methods_are_silent (env : Env) (self : pthread_t)
    (mu c : addr) (m : option string) (t : int64_t) (timeout : int)
    (p : prog bool) (w : World) :
  In p (methods false mu c m t timeout) ->
  all_actions uninstrumented p
  /\ kept_by diagnostics_untouched (posix env) self w
       (run (posix env) self p w).
Proof.
  intros Hp.
  pose proof (methods_uninstrumented mu c m t timeout p Hp) as Ha.
  split; [exact Ha|].
  apply (run_kept_by (posix env) self uninstrumented); [| | |exact Ha].
  - intros v. split; [reflexivity|]. intros q. repeat split.
  - intros a b d [H1 H2] [H3 H4]. split; [congruence|].
    intros q. destruct (H2 q) as (? & ? & ?). destruct (H4 q) as (? & ? & ?).
    repeat split; congruence.
  - intros X e v. apply posix_diagnostics.
Qed.

Lemma uninstrumented_methods_are_silent_witness :
  In (op_prog false 16 (OpTimeWait 32 100 (Some "waiter")))
     (methods false 16 32 (Some "waiter") 0 100)
  /\ kept_by diagnostics_untouched (posix sample_env) 1 (held_world false)
       (run (posix sample_env) 1
          (op_prog false 16 (OpTimeWait 32 100 (Some "waiter")))
          (held_world false)).
Proof.
  assert (H : In (op_prog false 16 (OpTimeWait 32 100 (Some "waiter")))
                (methods false 16 32 (Some "waiter") 0 100)).
  { do 7 right. left. reflexivity. }
  split; [exact H|].
  apply (uninstrumented_methods_are_silent sample_env 1 16 32
           (Some "waiter") 0 100 _ (held_world false) H).
Defined.

(** ** Every process *)

Lemma owner_right_in_every_process_witness :
  exists p,
    plays true sample_env 16 sample_handover (mkProcess constructed_world [])
      = Some p
    /\ reachable true sample_env 16 p
    /\ owner_inv (p_world p) 16.
Proof.
  assert (H0 : reachable true sample_env 16 (mkProcess constructed_world [])).
  { apply (constructed true sample_env 16 raw_memory constructed_world 1).
    reflexivity. }
  destruct (plays true sample_env 16 sample_handover
              (mkProcess constructed_world [])) as [p|] eqn:E;
    [|vm_compute in E; discriminate].
  exists p. split; [reflexivity|].
  pose proof (reachable_plays true sample_env 16 sample_handover
                (mkProcess constructed_world []) p H0 E) as Hr.
  split; [exact Hr|].
  apply (owner_right_in_every_process true sample_env 16 p Hr).
Defined.
